(** * steamParser: a shallow embedding of the extension's background worker,
      its float filters, the migration runner and the SQL migrations.

    Source files embedded here:
    - [extention/background.js]  (wear names, investment score, fade
      percentage, batch queue, 5xx retry loops, [fetchFloatData], price
      alerts and the alert store, price histories, the hourly cleanup)
    - [extention/content.js], [extention/floatSorter.js]  (float range
      filters, their counters, the reset)
    - the two migration runner scripts (shell) and the two SQL migrations.

    JavaScript numbers are IEEE-754 binary64 values, so they are embedded as
    the kernel's primitive floats; integers that the code only counts with
    (retry counters, delays in milliseconds, queue lengths) are [nat]. *)

From Stdlib Require Import ZArith List String Ascii Bool Lia Floats PeanoNat.
From Stdlib Require Import Decimal DecimalString.
From Stdlib Require Import Orders Sorting.Mergesort Sorting.Sorted Sorting.Permutation.
From Stdlib Require Import OrderedTypeEx RelationClasses.
From Equations Require Import Equations.
Import ListNotations.
Set Warnings "-inexact-float,-abstract-large-number".

(* ===================================================================== *)
(** ** JavaScript values and numbers *)
(* ===================================================================== *)

Module JS.

Local Open Scope float_scope.

(** The primitive values a decoded JSON document (or a missing property) can
    hand to the functions below.  [JSObject s] is a plain object or array; [s]
    is the string its ToPrimitive conversion yields. *)
Inductive JSValue : Type :=
| JSUndefined
| JSNull
| JSBoolean (b : bool)
| JSNumber (x : float)
| JSString (s : string)
| JSObject (prim : string).

Section Conversions.

(** StringToNumber of the language (the numeric-literal grammar); it is not
    code of the repository, so it stays a parameter. *)
Variable StringToNumber : string -> float.

Definition ToNumber (v : JSValue) : float :=
  match v with
  | JSUndefined => nan
  | JSNull => 0
  | JSBoolean true => 1
  | JSBoolean false => 0
  | JSNumber x => x
  | JSString s => StringToNumber s
  | JSObject s => StringToNumber s
  end.

(** [v < c], [v >= c], with a number on the right: both sides go through
    ToNumber and a NaN on either side makes the comparison false. *)
Definition lt_num (v : JSValue) (c : float) : bool := ToNumber v <? c.
Definition ge_num (v : JSValue) (c : float) : bool := c <=? ToNumber v.

End Conversions.

Definition ToBoolean (v : JSValue) : bool :=
  match v with
  | JSUndefined | JSNull => false
  | JSBoolean b => b
  | JSNumber x => negb ((x =? 0) || is_nan x)
  | JSString s => negb (String.eqb s EmptyString)
  | JSObject _ => true
  end.

(** [v === "lit"] *)
Definition strict_eq_string (v : JSValue) (lit : string) : bool :=
  match v with
  | JSString s => String.eqb s lit
  | _ => false
  end.

(** [v !== null] *)
Definition strict_ne_null (v : JSValue) : bool :=
  match v with
  | JSNull => false
  | _ => true
  end.

(** [Array.prototype.includes] on an array of string literals. *)
Definition includes (arr : list string) (v : JSValue) : bool :=
  existsb (strict_eq_string v) arr.

Definition is_neg_zero (x : float) : bool :=
  match classify x with
  | NZero => true
  | _ => false
  end.

(** [Math.max] and [Math.min] on two arguments: NaN is contagious and
    [+0] counts as larger than [-0]. *)
Definition Math_max (x y : float) : float :=
  if is_nan x || is_nan y then nan
  else if x <? y then y
  else if y <? x then x
  else if is_neg_zero x then y else x.

Definition Math_min (x y : float) : float :=
  if is_nan x || is_nan y then nan
  else if x <? y then x
  else if y <? x then y
  else if is_neg_zero x then x else y.

End JS.

(* ===================================================================== *)
(** ** extention/background.js *)
(* ===================================================================== *)

Module Background.

Import JS.
Local Open Scope string_scope.
Local Open Scope float_scope.

(** [getWearName(floatValue)] *)
Definition getWearName (floatValue : float) : string :=
  if floatValue <? 0.07 then "Factory New"
  else if floatValue <? 0.15 then "Minimal Wear"
  else if floatValue <? 0.38 then "Field-Tested"
  else if floatValue <? 0.45 then "Well-Worn"
  else "Battle-Scarred".

Section InvestmentScore.

Variable StringToNumber : string -> float.

Let ge := ge_num StringToNumber.
Let lt := lt_num StringToNumber.

Definition popularKnives : list string :=
  ["Karambit"; "M9 Bayonet"; "Butterfly Knife"].

(** [calculateInvestmentScore(floatValue, rarity, paintIndex, dopplerPhase,
    fadePercentage, weaponType)].  [paintIndex] is accepted and never read,
    as in the source. *)
Definition calculateInvestmentScore
    (floatValue rarity paintIndex dopplerPhase fadePercentage weaponType : JSValue)
    : float :=
  let score := 5 in
  (* rarity bonus *)
  let score :=
    if ge rarity 6 then score + 3
    else if ge rarity 5 then score + 2
    else if ge rarity 4 then score + 1
    else score in
  (* float bonus *)
  let score :=
    if lt floatValue 0.001 then score + 3
    else if lt floatValue 0.01 then score + 2
    else if lt floatValue 0.07 then score + 1
    else score in
  (* Doppler phase bonus: switch over the phase name *)
  let score :=
    if ToBoolean dopplerPhase then
      if strict_eq_string dopplerPhase "Ruby"
         || strict_eq_string dopplerPhase "Sapphire"
         || strict_eq_string dopplerPhase "Black Pearl"
         || strict_eq_string dopplerPhase "Emerald" then score + 4
      else if strict_eq_string dopplerPhase "Phase 2" then score + 2
      else if strict_eq_string dopplerPhase "Phase 4" then score + 1
      else if strict_eq_string dopplerPhase "Phase 1"
              || strict_eq_string dopplerPhase "Phase 3" then score + 0.5
      else score
    else score in
  (* fade percentage bonus *)
  let score :=
    if strict_ne_null fadePercentage then
      if ge fadePercentage 95 then score + 3
      else if ge fadePercentage 90 then score + 2
      else if ge fadePercentage 80 then score + 1
      else score
    else score in
  (* popular knives *)
  let score :=
    if ToBoolean weaponType then
      if includes popularKnives weaponType then score + 1 else score
    else score in
  Math_min (Math_max score 1) 10.

End InvestmentScore.


(** *** Batch queue and the two fetch loops *)

Local Close Scope float_scope.
Local Open Scope nat_scope.

(** [`${n}`] for a non-negative integer. *)
Definition nat_to_string (n : nat) : string :=
  NilZero.string_of_uint (Nat.to_uint n).

(** [haystack.includes(needle)] on strings. *)
Definition string_includes (haystack needle : string) : bool :=
  match String.index 0 needle haystack with
  | Some _ => true
  | None => false
  end.

Definition is_digit (c : ascii) : bool :=
  let n := nat_of_ascii c in (48 <=? n) && (n <=? 57).

(** [s] is made of digits only. *)
Fixpoint all_digits (s : string) : bool :=
  match s with
  | EmptyString => true
  | String c rest => is_digit c && all_digits rest
  end.

(** The longest run of digits at the head of [s], and what follows it. *)
Fixpoint span_digits (s : string) : string * string :=
  match s with
  | String c rest =>
      if is_digit c
      then let '(ds, tl) := span_digits rest in (String c ds, tl)
      else (EmptyString, s)
  | EmptyString => (EmptyString, EmptyString)
  end.

(** [link.match(/A(\d+)D/)], reduced to its first capture group: the first
    place where an [A] is followed by one or more digits and then a [D]. *)
Fixpoint match_asset_id (link : string) : option string :=
  match link with
  | String c rest =>
      if Ascii.eqb c "A"%char then
        match span_digits rest with
        | (String d ds, String e _) =>
            if Ascii.eqb e "D"%char then Some (String d ds)
            else match_asset_id rest
        | _ => match_asset_id rest
        end
      else match_asset_id rest
  | EmptyString => None
  end.

Definition BATCH_SIZE : nat := 10.
Definition BATCH_DELAY : nat := 100.
Definition MAX_RETRIES : nat := 3.

(** An entry of [batchQueue]: the inspect link and the promise whose
    [resolve]/[reject] pair was stored with it. *)
Record queue_item : Type := {
  link : string;
  promise : nat
}.

(** A thrown value: an [Error] (or DOMException) with its name and message. *)
Record js_error : Type := {
  error_name : string;
  error_message : string
}.

Definition Error (message : string) : js_error :=
  {| error_name := "Error"; error_message := message |}.

Inductive request : Type :=
| Bulk (links : list string)        (* POST API_URL/bulk, body {links} *)
| Single (inspectLink : string).    (* GET API_URL/?url=... *)

Section Worker.

(** Decoded JSON documents, and the property reads the worker makes on
    them: [data.iteminfo], [results[assetId]], [floatData.error]; each
    gives [None] when the property is missing or falsy. *)
Variable J : Type.
Variable iteminfo : J -> option J.
Variable result_for : J -> string -> option J.
Variable error_of : J -> option string.

(** What a [fetch] call ends with: a response (status, decoded body when
    it is JSON) or a rejection (network failure, timeout). *)
Inductive fetch_outcome : Type :=
| Response (status : nat) (body : option J)
| Rejected (err : js_error).

(** The environment: the outcome of the [n]-th fetch, and whether
    [chrome.runtime.id] is still there after [n] fetches. *)
Variable net : nat -> fetch_outcome.
Variable runtime_id : nat -> bool.

Inductive event : Type :=
| EvFetch (r : request)
| EvSleep (ms : nat)
| EvResolve (promise : nat) (data : option J)
| EvReject (promise : nat) (message : string).

(** The worker's module-level state, the pending timers ([handle, delay]),
    and what it has done so far. *)
Record world : Type := {
  batchQueue : list queue_item;
  batchTimer : option nat;
  timers : list (nat * nat);
  next_timer : nat;
  next_promise : nat;
  fetches : nat;
  trace : list event
}.

Definition M (A : Type) : Type := world -> (A + js_error) * world.

Definition ret {A} (a : A) : M A := fun w => (inl a, w).

Definition bind {A B} (m : M A) (k : A -> M B) : M B :=
  fun w => match m w with
           | (inl a, w') => k a w'
           | (inr e, w') => (inr e, w')
           end.

Definition throw {A} (e : js_error) : M A := fun w => (inr e, w).

Definition try_catch {A} (m : M A) (handler : js_error -> M A) : M A :=
  fun w => match m w with
           | (inl a, w') => (inl a, w')
           | (inr e, w') => handler e w'
           end.

Definition emit (e : event) (w : world) : world :=
  {| batchQueue := batchQueue w; batchTimer := batchTimer w; timers := timers w;
     next_timer := next_timer w; next_promise := next_promise w;
     fetches := fetches w; trace := (trace w ++ [e])%list |}.

Definition log (e : event) : M unit := fun w => (inl tt, emit e w).

(** [await fetch(...)] *)
Definition fetch (r : request) : M (nat * option J) :=
  fun w =>
    let w' := {| batchQueue := batchQueue w; batchTimer := batchTimer w;
                 timers := timers w; next_timer := next_timer w;
                 next_promise := next_promise w;
                 fetches := S (fetches w); trace := (trace w ++ [EvFetch r])%list |} in
    match net (fetches w) with
    | Response status body => (inl (status, body), w')
    | Rejected err => (inr err, w')
    end.

(** [await new Promise(resolve => setTimeout(resolve, ms))] *)
Definition sleep (ms : nat) : M unit := log (EvSleep ms).

(** [await response.json()] *)
Definition json (body : option J) : M J :=
  match body with
  | Some data => ret data
  | None => throw {| error_name := "SyntaxError"; error_message := "Unexpected token" |}
  end.

Definition server_error (status : nat) : bool :=
  (500 <=? status) && (status <? 600).

(** [response.ok] *)
Definition response_ok (status : nat) : bool :=
  (200 <=? status) && (status <? 300).

(** [1000 * Math.pow(2, retryCount - 1)] *)
Definition backoffDelay (retryCount : nat) : nat := 1000 * 2 ^ (retryCount - 1).


(** [fetchFloatDataSingle(inspectLink)]: its inner [attemptFetch], called
    with the current value of the closure variable [retryCount]. *)
Equations? attemptFetch (inspectLink : string) (retryCount : nat) (w : world)
    : (option J + js_error) * world by wf (MAX_RETRIES - retryCount) lt :=
attemptFetch inspectLink retryCount w :=
  bind (fetch (Single inspectLink)) (fun '(status, body) =>
    if server_error status then
      match lt_dec retryCount MAX_RETRIES with
      | left _ =>
          let retryCount := S retryCount in
          bind (sleep (backoffDelay retryCount)) (fun _ w' =>
            attemptFetch inspectLink retryCount w')
      | right _ =>
          throw (Error ("API returned " ++ nat_to_string status ++ " after "
                        ++ nat_to_string MAX_RETRIES ++ " retries"))
      end
    else if negb (response_ok status) then
      throw (Error ("API returned " ++ nat_to_string status))
    else
      bind (json body) (fun data => ret (iteminfo data))) w.
Proof.
  match goal with
  | H : ?n < MAX_RETRIES |- _ =>
      unfold MAX_RETRIES in H; destruct n as [|[|[|?]]]; lia
  end.
Qed.

Definition fetchFloatDataSingle (inspectLink : string) : M (option J) :=
  attemptFetch inspectLink 0.

(** The [batch.forEach] that settles every promise from the bulk result. *)
Definition settle_item (results : J) (item : queue_item) : event :=
  match match_asset_id (link item) with
  | None => EvReject (promise item) "Invalid inspect link format"
  | Some assetId =>
      match result_for results assetId with
      | Some floatData =>
          match error_of floatData with
          | Some err => EvReject (promise item) err
          | None => EvResolve (promise item) (Some floatData)
          end
      | None => EvReject (promise item) "No data received for this item"
      end
  end.

Fixpoint log_all (es : list event) : M unit :=
  match es with
  | [] => ret tt
  | e :: es' => bind (log e) (fun _ => log_all es')
  end.

(** The fallback loop of the [catch] block: one single request per item. *)
Fixpoint fallback_individually (batch : list queue_item) : M unit :=
  match batch with
  | [] => ret tt
  | item :: rest =>
      bind (try_catch
              (bind (fetchFloatDataSingle (link item)) (fun data =>
                 log (EvResolve (promise item) data)))
              (fun err => log (EvReject (promise item) (error_message err))))
           (fun _ => fallback_individually rest)
  end.

(** The [catch (error)] block of [attemptBatchFetch]. *)
Definition batch_catch (batch : list queue_item) (error : js_error) : M unit :=
  if string_includes (error_message error) "Extension context invalidated" then
    log_all (map (fun item => EvReject (promise item) "Extension reloaded") batch)
  else
    fallback_individually batch.

(** [attemptBatchFetch()] inside [processBatch], for the spliced [batch]
    and the current [retryCount]. *)
Equations? attemptBatchFetch (batch : list queue_item) (retryCount : nat) (w : world)
    : (unit + js_error) * world by wf (MAX_RETRIES - retryCount) lt :=
attemptBatchFetch batch retryCount w :=
  try_catch
    (bind (fun w0 => if runtime_id (fetches w0)
                     then ret tt w0
                     else throw (Error "Extension context invalidated") w0)
       (fun _ =>
    let links := map link batch in
    bind (fetch (Bulk links)) (fun '(status, body) =>
      if server_error status then
        match lt_dec retryCount MAX_RETRIES with
        | left _ =>
            let retryCount := S retryCount in
            bind (sleep (backoffDelay retryCount)) (fun _ w' =>
              attemptBatchFetch batch retryCount w')
        | right _ =>
            throw (Error ("Batch API returned " ++ nat_to_string status ++ " after "
                          ++ nat_to_string MAX_RETRIES ++ " retries"))
        end
      else if negb (response_ok status) then
        throw (Error ("Batch API returned " ++ nat_to_string status))
      else
        bind (json body) (fun results =>
          log_all (map (settle_item results) batch)))))
    (batch_catch batch) w.
Proof.
  match goal with
  | H : ?n < MAX_RETRIES |- _ =>
      unfold MAX_RETRIES in H; destruct n as [|[|[|?]]]; lia
  end.
Qed.

(** [clearTimeout(handle)] *)
Definition clearTimeout (handle : nat) (ts : list (nat * nat)) : list (nat * nat) :=
  filter (fun t => negb (fst t =? handle)) ts.

(** [clearBatchQueue()] *)
Definition clearBatchQueue (w : world) : world :=
  let w1 :=
    if 0 <? List.length (batchQueue w) then
      {| batchQueue := [];
         batchTimer := batchTimer w; timers := timers w;
         next_timer := next_timer w; next_promise := next_promise w;
         fetches := fetches w;
         trace := (trace w ++ map (fun item =>
                     EvReject (promise item) "Extension context invalidated")
                     (batchQueue w))%list |}
    else w in
  match batchTimer w1 with
  | Some handle =>
      {| batchQueue := batchQueue w1; batchTimer := None;
         timers := clearTimeout handle (timers w1);
         next_timer := next_timer w1; next_promise := next_promise w1;
         fetches := fetches w1; trace := trace w1 |}
  | None => w1
  end.

(** [processBatch()] *)
Definition processBatch : M unit := fun w =>
  if List.length (batchQueue w) =? 0 then ret tt w
  else if negb (runtime_id (fetches w)) then ret tt (clearBatchQueue w)
  else
    (* clear timer *)
    let '(timer, ts) :=
      match batchTimer w with
      | Some handle => (None, clearTimeout handle (timers w))
      | None => (batchTimer w, timers w)
      end in
    (* const batch = batchQueue.splice(0, BATCH_SIZE) *)
    let batch := firstn BATCH_SIZE (batchQueue w) in
    let w' := {| batchQueue := skipn BATCH_SIZE (batchQueue w);
                 batchTimer := timer; timers := ts;
                 next_timer := next_timer w; next_promise := next_promise w;
                 fetches := fetches w; trace := trace w |} in
    attemptBatchFetch batch 0 w'.

(** [addToBatchQueue(inspectLink)]: the new promise, and the world after
    the executor has run. *)
Definition addToBatchQueue (inspectLink : string) : M nat := fun w =>
  let p := next_promise w in
  let queue := (batchQueue w ++ [{| link := inspectLink; promise := p |}])%list in
  (* clear existing timer; [batchTimer] keeps the stale handle *)
  let ts :=
    match batchTimer w with
    | Some handle => clearTimeout handle (timers w)
    | None => timers w
    end in
  if BATCH_SIZE <=? List.length queue then
    bind processBatch (fun _ => ret p)
      {| batchQueue := queue; batchTimer := batchTimer w; timers := ts;
         next_timer := next_timer w; next_promise := S p;
         fetches := fetches w; trace := trace w |}
  else
    let handle := next_timer w in
    ret p
      {| batchQueue := queue; batchTimer := Some handle;
         timers := (ts ++ [(handle, BATCH_DELAY)])%list;
         next_timer := S handle; next_promise := S p;
         fetches := fetches w; trace := trace w |}.

(** A pending timer expires: its callback ([processBatch]) runs. *)
Definition fire_timer (handle : nat) : M unit := fun w =>
  if existsb (fun t => fst t =? handle) (timers w) then
    processBatch
      {| batchQueue := batchQueue w; batchTimer := batchTimer w;
         timers := clearTimeout handle (timers w);
         next_timer := next_timer w; next_promise := next_promise w;
         fetches := fetches w; trace := trace w |}
  else ret tt w.

(** The worker right after the script has loaded. *)
Definition initial_world : world :=
  {| batchQueue := []; batchTimer := None; timers := [];
     next_timer := 1; next_promise := 0; fetches := 0; trace := [] |}.

(** Where [fetchFloatData] stands after its synchronous part: it has
    answered from the cache, or it waits for the promise of the queue. *)
Inductive fetch_state : Type :=
| FromCache (data : J)
| Awaiting (promise : nat).

(** [fetchFloatData(inspectLink)] up to [await addToBatchQueue(inspectLink)]
    ([BATCH_ENABLED] is the constant [true]).  [cached] is
    [cache.get(inspectLink)], an entry's data and timestamp; [Date_now] is
    the clock. *)
Definition fetchFloatData (cached : option (J * nat)) (Date_now : nat)
    (inspectLink : string) : M fetch_state :=
  let queued := bind (addToBatchQueue inspectLink) (fun p => ret (Awaiting p)) in
  match cached with
  | Some (data, timestamp) =>
      if Date_now - timestamp <? 60000 then ret (FromCache data) else queued
  | None => queued
  end.

(** [fetchFloatData] from the moment its promise is settled, with the data
    or with the message of the rejection. *)
Definition fetchFloatData_resume (inspectLink : string) (outcome : option J + string)
    : M (option J) :=
  match outcome with
  | inl data => ret data
  | inr message =>
      if string_includes message "Extension context invalidated" then ret None
      else
        try_catch (fetchFloatDataSingle inspectLink) (fun fallbackError => ret None)
  end.

(** *** Vocabulary for runs of the worker *)

(** [w] after [k] more fetches and the events [es]. *)
Definition advance (w : world) (k : nat) (es : list event) : world :=
  {| batchQueue := batchQueue w; batchTimer := batchTimer w;
     timers := timers w; next_timer := next_timer w;
     next_promise := next_promise w;
     fetches := fetches w + k; trace := (trace w ++ es)%list |}.

(** The delays between attempts, in milliseconds. *)
Definition backoff : list nat := [1000; 2000; 4000].

(** Attempts of one request separated by the given delays. *)
Fixpoint schedule (r : request) (delays : list nat) : list event :=
  match delays with
  | [] => [EvFetch r]
  | d :: ds => EvFetch r :: EvSleep d :: schedule r ds
  end.

(** The [j] failed attempts that follow [retryCount] earlier ones, each
    with the sleep after it. *)
Fixpoint retries (r : request) (retryCount j : nat) : list event :=
  match j with
  | 0 => []
  | S j' => EvFetch r :: EvSleep (backoffDelay (S retryCount))
              :: retries r (S retryCount) j'
  end.

(** The first [j] fetches from [n] on all answer with a 5xx status. *)
Definition all_5xx (n j : nat) : Prop :=
  forall i, i < j ->
    exists status body, net (n + i) = Response status body
                        /\ server_error status = true.

(** The link lists of the bulk requests among some events, in order. *)
Fixpoint bulk_requests (es : list event) : list (list string) :=
  match es with
  | [] => []
  | EvFetch (Bulk links) :: es' => links :: bulk_requests es'
  | _ :: es' => bulk_requests es'
  end.

(** A request within the batch size. *)
Definition at_most_batch_size (links : list string) : Prop :=
  List.length links <= BATCH_SIZE.

(** The items a call of [processBatch] takes off the queue: the first ten
    with the extension context alive, the whole queue without it. *)
Definition leaving (w : world) : list queue_item :=
  if runtime_id (fetches w) then firstn BATCH_SIZE (batchQueue w) else batchQueue w.

(** The queue at rest: fewer than ten links wait, at most one timer is
    pending, it is the one [batchTimer] names, and no link waits without
    it. *)
Definition at_rest (w : world) : Prop :=
  List.length (batchQueue w) < BATCH_SIZE
  /\ (timers w = []
      \/ exists handle, batchTimer w = Some handle
                        /\ timers w = [(handle, BATCH_DELAY)])
  /\ (batchQueue w <> [] -> timers w <> []).

(** The promises that some events settle (resolve or reject), in order. *)
Fixpoint settled (es : list event) : list nat :=
  match es with
  | [] => []
  | EvResolve p _ :: es' => p :: settled es'
  | EvReject p _ :: es' => p :: settled es'
  | _ :: es' => settled es'
  end.

(** How promise [p] is settled by some events: the first resolve or reject
    that names it. *)
Fixpoint settlement (p : nat) (es : list event) : option (option J + string) :=
  match es with
  | [] => None
  | EvResolve q data :: es' => if q =? p then Some (inl data) else settlement p es'
  | EvReject q message :: es' => if q =? p then Some (inr message) else settlement p es'
  | _ :: es' => settlement p es'
  end.

(** The worker's states: it starts with an empty queue; links are queued
    and timers expire, in any order. *)
Inductive reachable : world -> Prop :=
| reach_init : reachable initial_world
| reach_add inspectLink w :
    reachable w ->
    reachable (snd (addToBatchQueue inspectLink w))
| reach_fire handle w :
    reachable w ->
    reachable (snd (fire_timer handle w)).

End Worker.

Arguments Response {J}.
Arguments Rejected {J}.
Arguments EvFetch {J}.
Arguments EvSleep {J}.
Arguments EvResolve {J}.
Arguments EvReject {J}.
Arguments batchQueue {J}.
Arguments batchTimer {J}.
Arguments timers {J}.
Arguments next_timer {J}.
Arguments next_promise {J}.
Arguments fetches {J}.
Arguments trace {J}.
Arguments initial_world {J}.
Arguments advance {J}.
Arguments schedule {J}.
Arguments retries {J}.
Arguments all_5xx {J}.
Arguments bulk_requests {J}.
Arguments reachable {J}.
Arguments FromCache {J}.
Arguments Awaiting {J}.
Arguments at_rest {J}.
Arguments settled {J}.
Arguments settlement {J}.


(** *** Price alerts *)

(** A stored alert, as [saveAlert] puts it in [priceAlerts]; [triggered]
    and [triggeredAt] are absent until [checkPriceAlerts] sets them. *)
Record price_alert : Type := {
  itemName : string;
  targetPrice : float;
  alertType : string;
  triggered : bool;
  triggeredAt : option nat
}.

Inductive price_move : Type := Dropped | Rose.

(** A call of [chrome.notifications.create]: the item of the title and the
    two prices and the verb that fill the message template. *)
Record notification : Type := {
  notified_item : string;
  move : price_move;
  notified_price : float;
  notified_target : float
}.

(** [chrome.storage.local] (the [priceAlerts] object, entries in key
    order), the notifications created so far, and the clock. *)
Record alert_state : Type := {
  priceAlerts : list (string * price_alert);
  notifications : list notification;
  now : nat
}.

(** [alerts[alertId].triggered = true; alerts[alertId].triggeredAt = Date.now()] *)
Fixpoint mark_triggered (alertId : string) (at_ : nat)
    (alerts : list (string * price_alert)) : list (string * price_alert) :=
  match alerts with
  | [] => []
  | (k, a) :: rest =>
      if String.eqb k alertId then
        (k, {| itemName := itemName a; targetPrice := targetPrice a;
               alertType := alertType a; triggered := true;
               triggeredAt := Some at_ |}) :: rest
      else (k, a) :: mark_triggered alertId at_ rest
  end.

(** The decision taken for one entry: [Some] message kind when
    [shouldAlert] ends up true. *)
Definition shouldAlert (alert : price_alert) (item : string) (currentPrice : float)
    : option price_move :=
  if String.eqb (itemName alert) item then
    if String.eqb (alertType alert) "below"
       && PrimFloat.ltb currentPrice (targetPrice alert) then Some Dropped
    else if String.eqb (alertType alert) "above"
            && PrimFloat.ltb (targetPrice alert) currentPrice then Some Rose
    else None
  else None.

(** Whether an entry makes [checkPriceAlerts] notify. *)
Definition fires (item : string) (currentPrice : float)
    (entry : string * price_alert) : bool :=
  match shouldAlert (snd entry) item currentPrice with
  | Some _ => true
  | None => false
  end.

(** One iteration of [for (const [alertId, alert] of Object.entries(alerts))];
    [alerts] is the local object that is mutated and written back. *)
Definition check_entry (item : string) (currentPrice : float)
    (acc : list (string * price_alert) * alert_state)
    (entry : string * price_alert) : list (string * price_alert) * alert_state :=
  let '(alerts, st) := acc in
  let '(alertId, alert) := entry in
  match shouldAlert alert item currentPrice with
  | Some m =>
      let alerts' := mark_triggered alertId (now st) alerts in
      (alerts',
       {| priceAlerts := alerts';
          notifications :=
            (notifications st ++
               [{| notified_item := item; move := m;
                   notified_price := currentPrice;
                   notified_target := targetPrice alert |}])%list;
          now := now st |})
  | None => (alerts, st)
  end.

(** [checkPriceAlerts(itemName, currentPrice)] *)
Definition checkPriceAlerts (item : string) (currentPrice : float)
    (st : alert_state) : alert_state :=
  let alerts := priceAlerts st in
  snd (fold_left (check_entry item currentPrice) alerts (alerts, st)).

(** An entry as a call at time [at_] writes it back: marked when it
    fires, untouched otherwise. *)
Definition checked (item : string) (currentPrice : float) (at_ : nat)
    (entry : string * price_alert) : string * price_alert :=
  if fires item currentPrice entry then
    (fst entry,
     {| itemName := itemName (snd entry); targetPrice := targetPrice (snd entry);
        alertType := alertType (snd entry); triggered := true;
        triggeredAt := Some at_ |})
  else entry.

(** The notification an entry makes a call create, if any. *)
Definition notified (item : string) (currentPrice : float)
    (entry : string * price_alert) : list notification :=
  match shouldAlert (snd entry) item currentPrice with
  | Some m => [{| notified_item := item; move := m;
                  notified_price := currentPrice;
                  notified_target := targetPrice (snd entry) |}]
  | None => []
  end.

(** *** The alert store: [saveAlert], [deleteAlert] *)

(** [alerts[id] = alertData] on the [priceAlerts] object: an existing key
    keeps its place, a new key goes last (the ids written by the content
    script are [alert_<item>_<time>], never integer-like). *)
Fixpoint assign (id : string) (alertData : price_alert)
    (alerts : list (string * price_alert)) : list (string * price_alert) :=
  match alerts with
  | [] => [(id, alertData)]
  | (k, a) :: rest =>
      if String.eqb k id then (k, alertData) :: rest
      else (k, a) :: assign id alertData rest
  end.

(** [delete alerts[alertId]] *)
Definition delete (alertId : string) (alerts : list (string * price_alert))
    : list (string * price_alert) :=
  filter (fun entry => negb (String.eqb (fst entry) alertId)) alerts.

(** [alerts[alertId]] *)
Definition lookup (alertId : string) (alerts : list (string * price_alert))
    : option price_alert :=
  option_map snd (find (fun entry => String.eqb (fst entry) alertId) alerts).

(** The [saveAlert] message: [alertData] is stored under [alertData.id]. *)
Definition saveAlert (id : string) (alertData : price_alert) (st : alert_state)
    : alert_state :=
  {| priceAlerts := assign id alertData (priceAlerts st);
     notifications := notifications st; now := now st |}.

(** The [deleteAlert] message. *)
Definition deleteAlert (alertId : string) (st : alert_state) : alert_state :=
  {| priceAlerts := delete alertId (priceAlerts st);
     notifications := notifications st; now := now st |}.

(** *** Price history: the [trackItemPrice] message *)

(** A JavaScript string as its UTF-16 code units. *)
Definition code_units : Type := list nat.

(** The class [[a-zA-Z0-9]] on a code unit. *)
Definition is_alnum (c : nat) : bool :=
  ((97 <=? c) && (c <=? 122)) || ((65 <=? c) && (c <=? 90))
  || ((48 <=? c) && (c <=? 57)).

(** [itemName.replace(/[^a-zA-Z0-9]/g, '_')]: every code unit outside the
    class becomes an underscore, so the result is an ASCII string. *)
Fixpoint replace_non_alnum (itemName : code_units) : string :=
  match itemName with
  | [] => EmptyString
  | c :: rest =>
      String (if is_alnum c then ascii_of_nat c else "_"%char)
             (replace_non_alnum rest)
  end.

(** [`priceHistory_${itemName.replace(/[^a-zA-Z0-9]/g, '_')}`] *)
Definition itemKey (itemName : code_units) : string :=
  "priceHistory_" ++ replace_non_alnum itemName.

(** [s.replace(/_/g, ' ')] *)
Fixpoint underscores_to_spaces (s : string) : string :=
  match s with
  | EmptyString => EmptyString
  | String c rest =>
      String (if Ascii.eqb c "_"%char then " "%char else c)
             (underscores_to_spaces rest)
  end.

(** [debugGetAllItemNames]: the name shown for a storage key, for the keys
    that pass [key.startsWith('priceHistory_')] (the first occurrence of the
    prefix, which [replace] removes, is then the one at the front). *)
Definition debug_key (key : string) : option string :=
  if prefix "priceHistory_" key
  then Some (underscores_to_spaces
               (substring 13 (String.length key - 13) key))
  else None.

(** A point of [priceHistory]. *)
Record data_point : Type := {
  point_price : JSValue;
  point_floatValue : JSValue;
  point_timestamp : nat;
  point_inspectLink : JSValue
}.

(** The record kept under an item key; [lastUpdated] is absent in the
    default record and set before every write. *)
Record item_data : Type := {
  tracked_itemName : code_units;
  priceHistory : list data_point;
  floatHistory : list (JSValue * nat);
  firstSeen : nat;
  lastUpdated : option nat
}.

(** [Array.prototype.shift] *)
Definition shift {A} (l : list A) : list A := tl l.

(** The update [trackItemPrice] makes to the record under the item key:
    [stored] is [result[itemKey]], the result is what is written back.  The
    clock readings of one run are taken as one value. *)
Definition track (stored : option item_data) (itemName : code_units)
    (price floatValue inspectLink : JSValue) (Date_now : nat) : item_data :=
  let itemData :=
    match stored with
    | Some d => d
    | None => {| tracked_itemName := itemName; priceHistory := [];
                 floatHistory := []; firstSeen := Date_now; lastUpdated := None |}
    end in
  let dataPoint :=
    {| point_price := price; point_floatValue := floatValue;
       point_timestamp := Date_now; point_inspectLink := inspectLink |} in
  let prices := (priceHistory itemData ++ [dataPoint])%list in
  let floats :=
    if ToBoolean floatValue
    then (floatHistory itemData ++ [(floatValue, Date_now)])%list
    else floatHistory itemData in
  (* keep only last 100 data points *)
  let prices := if 100 <? List.length prices then shift prices else prices in
  let floats := if 100 <? List.length floats then shift floats else floats in
  {| tracked_itemName := tracked_itemName itemData;
     priceHistory := prices; floatHistory := floats;
     firstSeen := firstSeen itemData; lastUpdated := Some Date_now |}.

(** The record under an item key after a sequence of [trackItemPrice]
    messages whose item names all have that key, starting with nothing
    stored.  A message is [(itemName, price, floatValue, inspectLink)] with
    the clock reading of its run. *)
Definition tracked
    (messages : list (code_units * JSValue * JSValue * JSValue * nat))
    : option item_data :=
  fold_left
    (fun stored '(itemName, price, floatValue, inspectLink, Date_now) =>
       Some (track stored itemName price floatValue inspectLink Date_now))
    messages None.

(** The point a message adds to [priceHistory], and the entry it adds to
    [floatHistory] when its float value is truthy. *)
Definition point_of (message : code_units * JSValue * JSValue * JSValue * nat)
    : data_point :=
  let '(_, price, floatValue, inspectLink, Date_now) := message in
  {| point_price := price; point_floatValue := floatValue;
     point_timestamp := Date_now; point_inspectLink := inspectLink |}.

Definition float_of (message : code_units * JSValue * JSValue * JSValue * nat)
    : list (JSValue * nat) :=
  let '(_, _, floatValue, _, Date_now) := message in
  if ToBoolean floatValue then [(floatValue, Date_now)] else [].

(** The item name and the clock reading of a message. *)
Definition sender (message : code_units * JSValue * JSValue * JSValue * nat)
    : code_units * nat :=
  let '(itemName, _, _, _, Date_now) := message in (itemName, Date_now).

(** *** The hourly [dataCleanup] alarm *)

(** What the alarm reads from [chrome.storage.local]: the records under
    [priceHistory_...] keys and the [priceAlerts] object. *)
Record storage : Type := {
  histories : list (string * item_data);
  stored_alerts : list (string * price_alert)
}.

(** [data[key].lastUpdated < cutoff]; the subtraction that gives [cutoff]
    stops at 0, below which no timestamp lies. *)
Definition outdated (cutoff : nat) (d : item_data) : bool :=
  match lastUpdated d with
  | Some t => t <? cutoff
  | None => false
  end.

(** [alert.triggered && alert.triggeredAt < Date.now() - 24 h] *)
Definition stale (Date_now : nat) (alert : price_alert) : bool :=
  triggered alert
  && match triggeredAt alert with
     | Some t => t <? Date_now - 24 * 60 * 60 * 1000
     | None => false
     end.

(** [chrome.storage.local.remove(keys)] on the history records. *)
Definition remove_keys (keys : list string) (hs : list (string * item_data))
    : list (string * item_data) :=
  filter (fun kv => negb (existsb (String.eqb (fst kv)) keys)) hs.

(** The [dataCleanup] branch of the alarm listener. *)
Definition dataCleanup (Date_now : nat) (data : storage) : storage :=
  let cutoff := Date_now - 7 * 24 * 60 * 60 * 1000 in
  let keysToClean :=
    map fst (filter (fun kv => outdated cutoff (snd kv)) (histories data)) in
  let alerts := stored_alerts data in
  let alertsToRemove :=
    map fst (filter (fun kv => stale Date_now (snd kv)) alerts) in
  {| histories :=
       if 0 <? List.length keysToClean
       then remove_keys keysToClean (histories data)
       else histories data;
     stored_alerts :=
       if 0 <? List.length alertsToRemove
       then fold_left (fun alerts alertId => delete alertId alerts)
              alertsToRemove alerts
       else alerts |}.

(** *** Fade percentage *)

Section Fade.

Local Open Scope float_scope.

Variable StringToNumber : string -> float.

(** [Math.round], and the value the one [Math.random()] call of a
    calculation returns. *)
Variable Math_round : float -> float.
Variable Math_random : float.

Let ge := ge_num StringToNumber.
Let le (v : JSValue) (c : float) : bool := ToNumber StringToNumber v <=? c.

(** The calculators return [{ percentage }] or [null]. *)
Definition calculateKarambitFade (seed : JSValue) : option float :=
  if ge seed 1 && le seed 25 then Some (96 + Math_random * 4)
  else if ge seed 26 && le seed 100 then Some (85 + Math_random * 10)
  else if ge seed 101 && le seed 400 then Some (88 + Math_random * 8)
  else if ge seed 401 && le seed 600 then Some (92 + Math_random * 6)
  else if ge seed 601 && le seed 1000 then Some (75 + Math_random * 15)
  else None.

Definition calculateM9Fade (seed : JSValue) : option float :=
  if ge seed 1 && le seed 100 then Some (95 + Math_random * 5)
  else if ge seed 101 && le seed 400 then Some (85 + Math_random * 10)
  else if ge seed 401 && le seed 800 then Some (75 + Math_random * 15)
  else None.

Definition calculateBayonetFade (seed : JSValue) : option float :=
  if ge seed 1 && le seed 150 then Some (90 + Math_random * 10)
  else if ge seed 151 && le seed 500 then Some (80 + Math_random * 15)
  else if ge seed 501 && le seed 1000 then Some (65 + Math_random * 20)
  else None.

Definition calculateFlipKnifeFade (seed : JSValue) : option float :=
  if ge seed 1 && le seed 200 then Some (85 + Math_random * 15)
  else if ge seed 201 && le seed 700 then Some (70 + Math_random * 20)
  else None.

Definition calculateGutKnifeFade (seed : JSValue) : option float :=
  if ge seed 1 && le seed 300 then Some (80 + Math_random * 20)
  else if ge seed 301 && le seed 800 then Some (60 + Math_random * 25)
  else None.

Definition calculateHuntsmanFade (seed : JSValue) : option float :=
  if ge seed 1 && le seed 250 then Some (85 + Math_random * 15)
  else if ge seed 251 && le seed 750 then Some (65 + Math_random * 25)
  else None.

Definition calculateButterflyFade (seed : JSValue) : option float :=
  if ge seed 1 && le seed 120 then Some (90 + Math_random * 10)
  else if ge seed 121 && le seed 500 then Some (75 + Math_random * 20)
  else None.

Definition calculateGenericFade (seed : JSValue) : option float :=
  if ge seed 1 && le seed 200 then Some (85 + Math_random * 15)
  else if ge seed 201 && le seed 600 then Some (70 + Math_random * 20)
  else if ge seed 601 && le seed 1000 then Some (50 + Math_random * 25)
  else None.

Definition calculateAcidFade (seed : JSValue) : option float :=
  if ge seed 1 && le seed 150 then Some (90 + Math_random * 10)
  else if ge seed 151 && le seed 500 then Some (70 + Math_random * 20)
  else None.

Definition calculateAmberFade (seed : JSValue) : option float :=
  if ge seed 1 && le seed 200 then Some (85 + Math_random * 15)
  else if ge seed 201 && le seed 600 then Some (60 + Math_random * 25)
  else None.

(** [calculateFadeForWeapon(weaponType, fadeType, paintSeed)] *)
Definition calculateFadeForWeapon (weaponType fadeType : string) (paintSeed : JSValue)
    : option float :=
  if String.eqb fadeType "Fade" then
    if String.eqb weaponType "Karambit" then calculateKarambitFade paintSeed
    else if String.eqb weaponType "M9 Bayonet" then calculateM9Fade paintSeed
    else if String.eqb weaponType "Bayonet" then calculateBayonetFade paintSeed
    else if String.eqb weaponType "Flip Knife" then calculateFlipKnifeFade paintSeed
    else if String.eqb weaponType "Gut Knife" then calculateGutKnifeFade paintSeed
    else if String.eqb weaponType "Huntsman Knife" then calculateHuntsmanFade paintSeed
    else if String.eqb weaponType "Butterfly Knife" then calculateButterflyFade paintSeed
    else calculateGenericFade paintSeed
  else if String.eqb fadeType "Acid Fade" then calculateAcidFade paintSeed
  else if String.eqb fadeType "Amber Fade" then calculateAmberFade paintSeed
  else None.

(** The [supportedWeapons] table. *)
Definition supportedWeapons (fadeType : string) : option (list string) :=
  if String.eqb fadeType "Fade" then
    Some ["AWP"; "Bayonet"; "Bowie Knife"; "Butterfly Knife"; "Classic Knife";
          "Falchion Knife"; "Flip Knife"; "Glock-18"; "Gut Knife"; "Huntsman Knife";
          "Karambit"; "Kukri Knife"; "M4A1-S"; "M9 Bayonet"; "MAC-10"; "MP7";
          "Navaja Knife"; "Nomad Knife"; "Paracord Knife"; "R8 Revolver";
          "Shadow Daggers"; "Skeleton Knife"; "Stiletto Knife"; "Survival Knife";
          "Talon Knife"; "UMP-45"; "Ursus Knife"]
  else if String.eqb fadeType "Acid Fade" then Some ["SSG 08"]
  else if String.eqb fadeType "Amber Fade" then
    Some ["AUG"; "Galil AR"; "MAC-10"; "P2000"; "R8 Revolver"; "Sawed-Off"]
  else None.

(** [getFadePercentage(weaponType, itemName, paintSeed, fullItemName)]; the
    three names are strings of the API answer, [None] when the property is
    missing or null. *)
Definition getFadePercentage (weaponType itemName : option string)
    (paintSeed : JSValue) (fullItemName : option string) : option float :=
  match itemName, weaponType with
  | Some itemName, Some weaponType =>
      if String.eqb itemName "" || String.eqb weaponType "" then None
      else
        let fadeType :=
          if string_includes itemName "Fade" then Some "Fade"
          else if string_includes itemName "Acid Fade" then Some "Acid Fade"
          else if string_includes itemName "Amber Fade" then Some "Amber Fade"
          else
            match fullItemName with
            | Some fullItemName =>
                if String.eqb fullItemName "" then None
                else if string_includes fullItemName "Fade" then Some "Fade"
                else if string_includes fullItemName "Acid Fade" then Some "Acid Fade"
                else if string_includes fullItemName "Amber Fade" then Some "Amber Fade"
                else None
            | None => None
            end in
        match fadeType with
        | None => None
        | Some fadeType =>
            match supportedWeapons fadeType with
            | None => None
            | Some weapons =>
                if negb (existsb (String.eqb weaponType) weapons) then None
                else
                  match calculateFadeForWeapon weaponType fadeType paintSeed with
                  | Some percentage => Some (Math_round percentage)
                  | None => None
                  end
            end
        end
  | _, _ => None
  end.

End Fade.

End Background.

(* ===================================================================== *)
(** ** extention/content.js: [filterItems] *)
(* ===================================================================== *)

Module Content.

Local Open Scope string_scope.
Local Open Scope float_scope.

(** A [.market_listing_row]: the text of its [.cs2-float-value] child when
    it has one, and its [style.display]. *)
Record market_listing_row : Type := {
  float_element : option string;
  style_display : string
}.

(** The script's global state read by the filter. *)
Record globals : Type := {
  minFloat : float;
  maxFloat : float;
  isProcessing : bool
}.

(** [let minFloat = 0.00; let maxFloat = 1.00; let isProcessing = false;] *)
Definition initial_globals : globals :=
  {| minFloat := 0.00; maxFloat := 1.00; isProcessing := false |}.

Record counters : Type := {
  visibleCount : nat;
  hiddenCount : nat;
  processedCount : nat
}.

(** Rows that carry a float element, and rows with [display: none]. *)
Definition has_float (item : market_listing_row) : bool :=
  match float_element item with
  | Some _ => true
  | None => false
  end.

Definition hidden (item : market_listing_row) : bool :=
  String.eqb (style_display item) "none".

Section Filter.

(** The global [parseFloat] of the language. *)
Variable parseFloat : string -> float.

Definition set_display (item : market_listing_row) (d : string) : market_listing_row :=
  {| float_element := float_element item; style_display := d |}.

(** One iteration of the [for (const item of items)] loop. *)
Definition filter_step (g : globals) (acc : list market_listing_row * counters)
    (item : market_listing_row) : list market_listing_row * counters :=
  let '(done, c) := acc in
  let processed := S (processedCount c) in
  match float_element item with
  | Some textContent =>
      let floatValue := parseFloat textContent in
      if (minFloat g <=? floatValue) && (floatValue <=? maxFloat g) then
        ((done ++ [set_display item ""])%list,
         {| visibleCount := S (visibleCount c); hiddenCount := hiddenCount c;
            processedCount := processed |})
      else
        ((done ++ [set_display item "none"])%list,
         {| visibleCount := visibleCount c; hiddenCount := S (hiddenCount c);
            processedCount := processed |})
  | None =>
      ((done ++ [set_display item ""])%list,
       {| visibleCount := visibleCount c; hiddenCount := hiddenCount c;
          processedCount := processed |})
  end.

(** [filterItems()]: returns the rows after the pass and the counters, or
    leaves everything alone when a pass is already running. *)
Definition filterItems (g : globals) (items : list market_listing_row)
    : list market_listing_row * option counters :=
  if isProcessing g then (items, None)
  else
    let '(items', c) :=
      fold_left (filter_step g) items
        ([], {| visibleCount := 0; hiddenCount := 0; processedCount := 0 |}) in
    (items', Some c).

(** What one pass does to a single row. *)
Definition row_after (g : globals) (item : market_listing_row) : market_listing_row :=
  match float_element item with
  | Some t =>
      if (minFloat g <=? parseFloat t) && (parseFloat t <=? maxFloat g)
      then set_display item ""
      else set_display item "none"
  | None => set_display item ""
  end.

(** [x || d] on a number: [d] stands in for [0] and for NaN. *)
Definition number_or (x d : float) : float :=
  if (x =? 0) || is_nan x then d else x.

(** [filterListings()], the handler of the sorting bar's two inputs, whose
    texts are [min_input] and [max_input]: the rows after the pass, and the
    two numbers of the stats line ([visible], [listings.length]). *)
Definition filterListings (min_input max_input : string)
    (listings : list market_listing_row) : list market_listing_row * nat * nat :=
  let minValue := number_or (parseFloat min_input) 0 in
  let maxValue := number_or (parseFloat max_input) 1 in
  let '(listings', visible) :=
    fold_left
      (fun '(done, visible) listing =>
         match float_element listing with
         | Some textContent =>
             let floatValue := parseFloat textContent in
             if (minValue <=? floatValue) && (floatValue <=? maxValue)
             then ((done ++ [set_display listing ""])%list, S visible)
             else ((done ++ [set_display listing "none"])%list, visible)
         | None => ((done ++ [set_display listing ""])%list, visible)
         end)
      listings ([], 0%nat) in
  (listings', visible, List.length listings).

End Filter.

End Content.

(* ===================================================================== *)
(** ** extention/floatSorter.js: [FloatSorter.filterItems] *)
(* ===================================================================== *)

Module FloatSorter.

Local Open Scope string_scope.
Local Open Scope float_scope.

(** The fields of a [FloatSorter] instance the filter reads: the trimmed
    texts of the two inputs. *)
Record sorter : Type := {
  minFloatValue : string;
  maxFloatValue : string
}.

Record style : Type := {
  display : string;
  opacity : string
}.

Section Filter.

Variable parseFloat : string -> float.

(** The listing rows of the page and what [getFloatValue] extracts from one
    (a number found in the row's float markup, or [null]). *)
Variable listing : Type.
Variable getFloatValue : listing -> option float.

(** Listings for which [getFloatValue] finds a number, and styles that
    leave a listing shown. *)
Definition with_float (l : listing) : bool :=
  match getFloatValue l with
  | Some _ => true
  | None => false
  end.

Definition shown (st : style) : bool := String.eqb (display st) "".

(** Truthiness of a string: non-empty. *)
Definition truthy (s : string) : bool := negb (String.eqb s "").

(** [this.minFloatValue ? parseFloat(this.minFloatValue) : null] *)
Definition bound_of (text : string) : option float :=
  if truthy text then Some (parseFloat text) else None.

(** The body of the [listings.forEach] callback: the style the listing
    ends with, and whether it counted as visible / as having a float. *)
Definition filter_listing (minFloat maxFloat : option float) (l : listing)
    : style * bool * bool :=
  match getFloatValue l with
  | Some floatValue =>
      let shouldShow := true in
      let shouldShow :=
        match minFloat with
        | Some m => if floatValue <? m then false else shouldShow
        | None => shouldShow
        end in
      let shouldShow :=
        match maxFloat with
        | Some M => if M <? floatValue then false else shouldShow
        | None => shouldShow
        end in
      if shouldShow
      then ({| display := ""; opacity := "1" |}, true, true)
      else ({| display := "none"; opacity := "0.3" |}, false, true)
  | None => ({| display := ""; opacity := "1" |}, false, false)
  end.

(** [filterItems()]: the styles in page order, then [visibleCount] and
    [totalWithFloat] as handed to [updateFilterStats]. *)
Definition filterItems (this : sorter) (listings : list listing)
    : list style * nat * nat :=
  let minFloat := bound_of (minFloatValue this) in
  let maxFloat := bound_of (maxFloatValue this) in
  fold_left
    (fun '(styles, visibleCount, totalWithFloat) l =>
       let '(st, vis, has) := filter_listing minFloat maxFloat l in
       ((styles ++ [st])%list,
        if vis then S visibleCount else visibleCount,
        if has then S totalWithFloat else totalWithFloat))
    listings ([], 0, 0)%nat.

(** The style one pass gives a listing. *)
Definition style_after (this : sorter) (l : listing) : style :=
  fst (fst (filter_listing (bound_of (minFloatValue this))
              (bound_of (maxFloatValue this)) l)).

(** The text [updateFilterStats(visible, total)] writes. *)
Inductive stats_text : Type :=
| ItemsShown (visible total : nat)     (* `${visible}/${total} items shown` *)
| NoFloatData.                         (* 'No float data detected yet' *)

Definition updateFilterStats (visible total : nat) : stats_text :=
  if (0 <? total)%nat then ItemsShown visible total else NoFloatData.

(** What [resetFilter()] leaves behind: the instance fields (the two
    inputs are emptied with them), the text of the sort button, the style
    of every listing, and the stats text. *)
Record reset : Type := {
  reset_this : sorter;
  reset_sortDirection : string;
  reset_sortButton : string;
  reset_styles : list style;
  reset_stats : stats_text
}.

Definition resetFilter (listings : list listing) : reset :=
  {| reset_this := {| minFloatValue := ""; maxFloatValue := "" |};
     reset_sortDirection := "none";
     reset_sortButton := "Sort by Float";
     reset_styles := map (fun _ => {| display := ""; opacity := "1" |}) listings;
     reset_stats := updateFilterStats (List.length listings) (List.length listings) |}.

End Filter.

End FloatSorter.

(* ===================================================================== *)
(** ** The migration runner (the two shell scripts) *)
(* ===================================================================== *)

Module Migrations.

Local Open Scope string_scope.

(** [sort] in the C locale: byte-wise lexicographic order of the names. *)
Module StringOrder <: TotalLeBool.
Definition t := string.
Definition leb (a b : string) : bool := String.leb a b.
Theorem leb_total : forall a b, leb a b = true \/ leb b a = true.
Proof. exact String.leb_total. Qed.
End StringOrder.

Module StringSort := Sort StringOrder.

(** [name] ends with [suffix]. *)
Definition ends_with (suffix name : string) : bool :=
  let n := String.length name in
  let k := String.length suffix in
  (k <=? n)%nat && String.eqb (substring (n - k) k name) suffix.

(** The glob [*.sql]: any name with that suffix that is not a dot file. *)
Definition matches_sql_glob (name : string) : bool :=
  ends_with ".sql" name && negb (prefix "." name).

(** [$(ls -1 "$MIGRATIONS_DIR"/*.sql 2>/dev/null | sort)] for a directory
    holding the files [dir]. *)
Definition migration_files (dir : list string) : list string :=
  StringSort.sort (filter matches_sql_glob dir).

(** The wait of the service-side script.  [pg_isready] gives the outcome of
    each probe (by the number of failed probes before it); the loop sleeps
    one second after a failed probe and ends the script with status 1 when
    [attempt] reaches [max_attempts]. *)
Definition max_attempts : nat := 30.

Inductive waited : Type :=
| PostgresReady (sleeps : nat)
| Exit1 (sleeps : nat).

Equations? wait_for_postgres (pg_isready : nat -> bool) (attempt : nat) : waited
    by wf (max_attempts - attempt) lt :=
wait_for_postgres pg_isready attempt :=
  if pg_isready attempt then PostgresReady attempt
  else
    match lt_dec (S attempt) max_attempts with
    | left _ => wait_for_postgres pg_isready (S attempt)   (* sleep 1 *)
    | right _ => Exit1 attempt
    end.
Proof.
  clear wait_for_postgres. unfold max_attempts in *.
  do 30 (destruct attempt as [|attempt]; [cbn; lia|]). lia.
Qed.

Section Runner.

(** Everything in the database except [schema_migrations]. *)
Variable D : Type.

(** The database.  Of a [schema_migrations] row only [migration_name] is
    kept: the serial [id] and the [applied_at] default are filled in by the
    server and never read by the scripts.  The table exists throughout
    (the scripts create it first, IF NOT EXISTS). *)
Record database : Type := {
  data : D;
  schema_migrations : list string
}.

(** [psql ... -f file]: whether psql exits with status 0, and the database
    it leaves behind. *)
Variable psql_file : string -> database -> bool * database.

(** [SELECT 1 FROM schema_migrations WHERE migration_name='$migration_name']
    printed something. *)
Definition MIGRATION_APPLIED (migration_name : string) (db : database) : bool :=
  existsb (String.eqb migration_name) (schema_migrations db).

(** [INSERT INTO schema_migrations (migration_name) VALUES (...)
     ON CONFLICT (migration_name) DO NOTHING] *)
Definition record_migration (migration_name : string) (db : database) : database :=
  if existsb (String.eqb migration_name) (schema_migrations db) then db
  else {| data := data db;
          schema_migrations := (schema_migrations db ++ [migration_name])%list |}.

(** What the loop echoes about a migration. *)
Inductive report : Type :=
| Applied          (* "применена успешно" *)
| NotApplied       (* "не применена": psql failed *)
| AlreadyApplied.  (* "уже применена, пропускаем" *)

Record run : Type := {
  db : database;
  migrations_applied : nat;
  echoed : list (string * report)
}.

(** The body of [for migration_file in ...; do ... done]. *)
Definition apply_migration (r : run) (migration_name : string) : run :=
  if negb (MIGRATION_APPLIED migration_name (db r)) then
    let '(ok, db') := psql_file migration_name (db r) in
    if ok then
      {| db := record_migration migration_name db';
         migrations_applied := S (migrations_applied r);
         echoed := (echoed r ++ [(migration_name, Applied)])%list |}
    else
      {| db := db';
         migrations_applied := migrations_applied r;
         echoed := (echoed r ++ [(migration_name, NotApplied)])%list |}
  else
    {| db := db r;
       migrations_applied := migrations_applied r;
       echoed := (echoed r ++ [(migration_name, AlreadyApplied)])%list |}.

Definition migration_loop (dir : list string) (db0 : database) : run :=
  fold_left apply_migration (migration_files dir)
    {| db := db0; migrations_applied := 0; echoed := [] |}.

(** The service-side script: nothing happens without a migrations
    directory; otherwise the loop runs and the script reports whether
    [migrations_applied] is positive. *)
Definition apply_migrations (MIGRATIONS_DIR : option (list string)) (db0 : database)
    : run :=
  match MIGRATIONS_DIR with
  | None => {| db := db0; migrations_applied := 0; echoed := [] |}
  | Some dir => migration_loop dir db0
  end.

(** The database-init script: the same loop, without the counter. *)
Definition init_db_migrations (MIGRATIONS_DIR : option (list string)) (db0 : database)
    : database * list (string * report) :=
  match MIGRATIONS_DIR with
  | None => (db0, [])
  | Some dir =>
      let r := migration_loop dir db0 in (db r, echoed r)
  end.

(** The runner as a function on databases. *)
Definition run_migrations (dir : list string) (db0 : database) : database :=
  db (apply_migrations (Some dir) db0).

(** The [psql -f] invocations of a run, in order. *)
Definition attempted (r : run) : list string :=
  map fst (filter (fun e => match snd e with AlreadyApplied => false | _ => true end)
             (echoed r)).

(** The UNIQUE constraint on [migration_name]. *)
Definition unique_names (d : database) : Prop := NoDup (schema_migrations d).

End Runner.

Arguments data {D}.
Arguments schema_migrations {D}.
Arguments db {D}.
Arguments migrations_applied {D}.
Arguments echoed {D}.
Arguments attempted {D}.
Arguments unique_names {D}.

End Migrations.

(* ===================================================================== *)
(** ** The [blocked_until] migration: the two partial indexes on [proxies] *)
(* ===================================================================== *)

Module ProxyIndexes.

Local Open Scope Z_scope.

(** SQL truth values: [None] is NULL (unknown). *)
Definition sql_bool : Type := option bool.

Definition sql_and (a b : sql_bool) : sql_bool :=
  match a, b with
  | Some false, _ | _, Some false => Some false
  | Some true, Some true => Some true
  | _, _ => None
  end.

Definition sql_or (a b : sql_bool) : sql_bool :=
  match a, b with
  | Some true, _ | _, Some true => Some true
  | Some false, Some false => Some false
  | _, _ => None
  end.

Definition sql_eq_bool (a : option bool) (b : bool) : sql_bool :=
  option_map (fun x => Bool.eqb x b) a.

Definition sql_lt (a : option Z) (b : Z) : sql_bool := option_map (fun x => x <? b) a.
Definition sql_ge (a : option Z) (b : Z) : sql_bool := option_map (fun x => x >=? b) a.

Definition is_null {A} (a : option A) : sql_bool :=
  Some (match a with None => true | Some _ => false end).

Definition is_not_null {A} (a : option A) : sql_bool :=
  Some (match a with None => false | Some _ => true end).

(** A row satisfies a WHERE clause when the clause is true (not false, not
    unknown). *)
Definition holds (c : sql_bool) : bool :=
  match c with
  | Some true => true
  | _ => false
  end.

(** The columns of a [proxies] row that the indexes look at; timestamps are
    microseconds since the epoch. *)
Record proxy : Type := {
  is_active : option bool;
  blocked_until : option Z   (* TIMESTAMP NULL *)
}.

(** [WHERE is_active = true AND (blocked_until IS NULL OR blocked_until < NOW())] *)
Definition idx_proxies_active_not_blocked (p : proxy) (now : Z) : bool :=
  holds (sql_and (sql_eq_bool (is_active p) true)
                 (sql_or (is_null (blocked_until p))
                         (sql_lt (blocked_until p) now))).

(** [WHERE blocked_until IS NOT NULL AND blocked_until >= NOW()] *)
Definition idx_proxies_blocked_until (p : proxy) (now : Z) : bool :=
  holds (sql_and (is_not_null (blocked_until p))
                 (sql_ge (blocked_until p) now)).

(** "Active and not blocked": the rows a lease is chosen from. *)
Definition leasable (p : proxy) (now : Z) : bool :=
  idx_proxies_active_not_blocked p now.

End ProxyIndexes.

(* ===================================================================== *)
(** ** migrations/001_change_filters_to_jsonb.sql *)
(* ===================================================================== *)

Module FiltersMigration.

Local Open Scope string_scope.

Inductive data_type : Type :=
| TEXT
| JSONB
| OTHER (type_name : string).

Definition is_jsonb (ty : data_type) : bool :=
  match ty with
  | JSONB => true
  | _ => false
  end.

Inductive index_method : Type := GIN | BTREE.

(** What an index is built on: a column, or a JSON path expression such as
    [filters_json->'pattern_list'->>'item_type'] (column, then the keys). *)
Inductive index_key : Type :=
| Column (column : string)
| JsonPath (column : string) (path : list string).

Definition key_column (k : index_key) : string :=
  match k with
  | Column c => c
  | JsonPath c _ => c
  end.

Definition rekey (old new : string) (k : index_key) : index_key :=
  match k with
  | Column c => Column (if String.eqb c old then new else c)
  | JsonPath c path => JsonPath (if String.eqb c old then new else c) path
  end.

(** An index on [monitoring_tasks]. *)
Record index : Type := {
  index_name : string;
  method : index_method;
  key : index_key
}.

Record column : Type := {
  column_name : string;
  column_type : data_type;
  not_null : bool;
  comment : option string
}.

(** The outcome of a statement: the new state, or an error that leaves the
    state as it was. *)
Inductive result (A : Type) : Type :=
| OK (a : A)
| ERROR (message : string).

Arguments OK {A}.
Arguments ERROR {A}.

Section Catalog.

(** JSONB documents with the server's input conversion from text ([None]:
    invalid input syntax) and its output conversion to text. *)
Variable J : Type.
Variable jsonb_in : string -> option J.
Variable jsonb_out : J -> string.

Inductive value : Type :=
| NULL
| Text (s : string)
| Jsonb (doc : J)
| Other (repr : string).

(** A row: the value of each column, by column name. *)
Definition row : Type := list (string * value).

Record table : Type := {
  columns : list column;
  rows : list row
}.

(** The part of the database the migration can see: the table
    [monitoring_tasks], if it exists, and the indexes on it. *)
Record database : Type := {
  monitoring_tasks : option table;
  indexes : list index
}.

Definition has_column (name : string) (t : table) : bool :=
  existsb (fun c => String.eqb (column_name c) name) (columns t).

Definition find_column (name : string) (t : table) : option column :=
  find (fun c => String.eqb (column_name c) name) (columns t).

Fixpoint cell (name : string) (r : row) : value :=
  match r with
  | [] => NULL
  | (k, v) :: r' => if String.eqb k name then v else cell name r'
  end.

Fixpoint set_cell (name : string) (v : value) (r : row) : row :=
  match r with
  | [] => []
  | (k, v0) :: r' =>
      if String.eqb k name then (k, v) :: r' else (k, v0) :: set_cell name v r'
  end.

Definition is_NULL (v : value) : bool :=
  match v with
  | NULL => true
  | _ => false
  end.

Definition with_table (d : database) (t : table) : database :=
  {| monitoring_tasks := Some t; indexes := indexes d |}.

Definition on_table (d : database) (f : table -> result database) : result database :=
  match monitoring_tasks d with
  | Some t => f t
  | None => ERROR "relation monitoring_tasks does not exist"
  end.

(** [ALTER TABLE monitoring_tasks ADD COLUMN name ty] *)
Definition add_column (name : string) (ty : data_type) (d : database) : result database :=
  on_table d (fun t =>
    if has_column name t then ERROR "column already exists"
    else OK (with_table d
      {| columns := (columns t ++ [{| column_name := name; column_type := ty;
                                      not_null := false; comment := None |}])%list;
         rows := map (fun r => (r ++ [(name, NULL)])%list) (rows t) |})).

(** [v::JSONB] for a non-null [v]; string types are read as JSON text,
    [OTHER] types are taken to have no cast to jsonb. *)
Definition cast_jsonb (v : value) : result J :=
  match v with
  | Text s => match jsonb_in s with
              | Some doc => OK doc
              | None => ERROR "invalid input syntax for type json"
              end
  | Jsonb doc => OK doc
  | NULL | Other _ => ERROR "cannot cast type to jsonb"
  end.

(** Storing a jsonb value in a column of type [ty]. *)
Definition store_jsonb (ty : data_type) (doc : J) : result value :=
  match ty with
  | JSONB => OK (Jsonb doc)
  | TEXT => OK (Text (jsonb_out doc))
  | OTHER _ => ERROR "column is of another type than the expression"
  end.

Fixpoint update_rows (ty : data_type) (target source : string) (rs : list row)
    : result (list row) :=
  match rs with
  | [] => OK []
  | r :: rs' =>
      if is_NULL (cell source r) then     (* WHERE source IS NOT NULL *)
        match update_rows ty target source rs' with
        | OK rs'' => OK (r :: rs'')
        | ERROR m => ERROR m
        end
      else
        match cast_jsonb (cell source r) with
        | OK doc =>
            match store_jsonb ty doc with
            | OK v =>
                match update_rows ty target source rs' with
                | OK rs'' => OK (set_cell target v r :: rs'')
                | ERROR m => ERROR m
                end
            | ERROR m => ERROR m
            end
        | ERROR m => ERROR m
        end
  end.

(** [UPDATE monitoring_tasks SET target = source::JSONB WHERE source IS NOT NULL] *)
Definition update_cast (target source : string) (d : database) : result database :=
  on_table d (fun t =>
    match find_column target t with
    | None => ERROR "column of relation does not exist"
    | Some c =>
        if negb (has_column source t) then ERROR "column does not exist"
        else match update_rows (column_type c) target source (rows t) with
             | OK rs => OK (with_table d {| columns := columns t; rows := rs |})
             | ERROR m => ERROR m
             end
    end).

(** The table without one of its columns. *)
Definition without_column (name : string) (t : table) : table :=
  {| columns := filter (fun c => negb (String.eqb (column_name c) name)) (columns t);
     rows := map (filter (fun kv => negb (String.eqb (fst kv) name))) (rows t) |}.

(** [ALTER TABLE monitoring_tasks DROP COLUMN name]; indexes on the column
    go with it. *)
Definition drop_column (name : string) (d : database) : result database :=
  on_table d (fun t =>
    if negb (has_column name t) then ERROR "column does not exist"
    else OK
      {| monitoring_tasks := Some (without_column name t);
         indexes := filter (fun i => negb (String.eqb (key_column (key i)) name))
                      (indexes d) |}).

(** [ALTER TABLE monitoring_tasks RENAME COLUMN old TO new] *)
Definition rename_column (old new : string) (d : database) : result database :=
  on_table d (fun t =>
    if negb (has_column old t) then ERROR "column does not exist"
    else if has_column new t then ERROR "column already exists"
    else OK
      {| monitoring_tasks := Some
           {| columns := map (fun c =>
                           if String.eqb (column_name c) old
                           then {| column_name := new; column_type := column_type c;
                                   not_null := not_null c; comment := comment c |}
                           else c) (columns t);
              rows := map (map (fun kv => if String.eqb (fst kv) old
                                          then (new, snd kv) else kv)) (rows t) |};
         indexes := map (fun i => {| index_name := index_name i; method := method i;
                                     key := rekey old new (key i) |}) (indexes d) |}).

Definition alter_column (name : string) (f : column -> column) (t : table) : table :=
  {| columns := map (fun c => if String.eqb (column_name c) name then f c else c)
                  (columns t);
     rows := rows t |}.

(** [ALTER TABLE monitoring_tasks ALTER COLUMN name SET NOT NULL] *)
Definition set_not_null (name : string) (d : database) : result database :=
  on_table d (fun t =>
    if negb (has_column name t) then ERROR "column does not exist"
    else if existsb (fun r => is_NULL (cell name r)) (rows t)
    then ERROR "column contains null values"
    else OK (with_table d
      (alter_column name (fun c =>
         {| column_name := column_name c; column_type := column_type c;
            not_null := true; comment := comment c |}) t))).

(** [COMMENT ON COLUMN monitoring_tasks.name IS text] *)
Definition comment_on_column (name text : string) (d : database) : result database :=
  on_table d (fun t =>
    if negb (has_column name t) then ERROR "column does not exist"
    else OK (with_table d
      (alter_column name (fun c =>
         {| column_name := column_name c; column_type := column_type c;
            not_null := not_null c; comment := Some text |}) t))).

(** [CREATE INDEX [IF NOT EXISTS] name ON monitoring_tasks USING method (key)].
    A GIN index on a column and the JSON operators both need a JSONB
    column. *)
Definition create_index (if_not_exists : bool) (i : index) (d : database)
    : result database :=
  on_table d (fun t =>
    if existsb (fun i' => String.eqb (index_name i') (index_name i)) (indexes d) then
      if if_not_exists then OK d else ERROR "relation already exists"
    else
      match find_column (key_column (key i)) t with
      | None => ERROR "column does not exist"
      | Some c =>
          match method i, key i with
          | GIN, _ | _, JsonPath _ _ =>
              if is_jsonb (column_type c)
              then OK {| monitoring_tasks := Some t;
                         indexes := (indexes d ++ [i])%list |}
              else ERROR "no operator class / operator for this type"
          | BTREE, Column _ =>
              OK {| monitoring_tasks := Some t; indexes := (indexes d ++ [i])%list |}
          end
      end).

Definition idx_monitoring_tasks_filters_gin : index :=
  {| index_name := "idx_monitoring_tasks_filters_gin"; method := GIN;
     key := Column "filters_json" |}.

Definition idx_monitoring_tasks_max_price : index :=
  {| index_name := "idx_monitoring_tasks_max_price"; method := BTREE;
     key := JsonPath "filters_json" ["max_price"] |}.

Definition idx_monitoring_tasks_item_type : index :=
  {| index_name := "idx_monitoring_tasks_item_type"; method := BTREE;
     key := JsonPath "filters_json" ["pattern_list"; "item_type"] |}.

(** Statements in sequence; the first error ends the sequence. *)
Fixpoint sequence (stmts : list (database -> result database)) (d : database)
    : result database :=
  match stmts with
  | [] => OK d
  | st :: rest =>
      match st d with
      | OK d' => sequence rest d'
      | ERROR m => ERROR m
      end
  end.

(** Lines 17 to 39 of the file, one entry per statement. *)
Definition inner_statements : list (database -> result database) :=
  [ add_column "filters_jsonb" JSONB;
    update_cast "filters_jsonb" "filters_json";
    drop_column "filters_json";
    rename_column "filters_jsonb" "filters_json";
    set_not_null "filters_json";
    comment_on_column "filters_json" "JSONB с настройками фильтров";
    create_index false idx_monitoring_tasks_filters_gin;
    create_index true idx_monitoring_tasks_max_price;
    create_index true idx_monitoring_tasks_item_type ].

(** The block between [BEGIN] and [END] run as one [DO] statement, which is
    what the file is written to be: both guards, then the statements; an
    error anywhere undoes the whole block. *)
Definition do_block (d : database) : result database :=
  match monitoring_tasks d with
  | Some t =>
      match find_column "filters_json" t with
      | Some c =>
          if negb (is_jsonb (column_type c)) then sequence inner_statements d
          else OK d
      | None => OK d
      end
  | None => OK d
  end.

(** A statement the server rejects when parsing it. *)
Definition syntax_error (d : database) : result database :=
  ERROR "syntax error".

(** What [psql -f] sends for the file as it is.  The delimiters are written
    [\$\$]; an unquoted backslash starts a psql meta-command, so psql
    reports two invalid commands, opens no dollar-quoted string, and cuts
    the text at every semicolon: [DO BEGIN ... ADD COLUMN ...;] (not a
    statement), then each statement of the block on its own, the two
    [END IF;], and a final [END].  Without ON_ERROR_STOP a failed
    statement is reported and the next one is sent. *)
Definition psql_statements : list (database -> result database) :=
  [ syntax_error;                                   (* DO BEGIN IF ... ADD COLUMN ...; *)
    update_cast "filters_jsonb" "filters_json";
    drop_column "filters_json";
    rename_column "filters_jsonb" "filters_json";
    set_not_null "filters_json";
    comment_on_column "filters_json" "JSONB с настройками фильтров";
    create_index false idx_monitoring_tasks_filters_gin;
    create_index true idx_monitoring_tasks_max_price;
    create_index true idx_monitoring_tasks_item_type;
    syntax_error;                                   (* END IF; *)
    syntax_error;                                   (* END IF; *)
    OK ].                                           (* END: no transaction open *)

(** One statement sent by psql: its effect, or none when it fails. *)
Definition attempt (st : database -> result database) (d : database) : database :=
  match st d with
  | OK d' => d'
  | ERROR _ => d
  end.

Definition run_ignoring_errors (stmts : list (database -> result database))
    (d : database) : database :=
  fold_left (fun d st => attempt st d) stmts d.

(** [psql -f 001_change_filters_to_jsonb.sql] *)
Definition psql_file_001 (d : database) : database :=
  run_ignoring_errors psql_statements d.

End Catalog.

Arguments NULL {J}.
Arguments Text {J}.
Arguments Jsonb {J}.
Arguments Other {J}.
Arguments columns {J}.
Arguments rows {J}.
Arguments monitoring_tasks {J}.
Arguments indexes {J}.
Arguments without_column {J}.

End FiltersMigration.

(* ===================================================================== *)
(** ** Sample inputs *)
(* ===================================================================== *)

Section Samples.

Local Open Scope string_scope.

(** A page with one listing whose float equals the typed minimum 0.15 (no
    maximum typed) and one row whose float text is "1.000000": both sit on a
    bound and both stay visible. *)
Definition sample_parseFloat (s : string) : float :=
  if String.eqb s "0.15" then 0.15%float
  else if String.eqb s "1.000000" then 1%float
  else nan.

Definition sample_getFloatValue (l : bool) : option float :=
  if l then Some 0.15%float else None.

(** One "below 100" alert on an item, seen twice at the price 50. *)
Definition sample_alert : Background.price_alert :=
  {| Background.itemName := "AK-47 | Redline";
     Background.targetPrice := 100%float;
     Background.alertType := "below";
     Background.triggered := false;
     Background.triggeredAt := None |}.

Definition sample_alert_state : Background.alert_state :=
  {| Background.priceAlerts := [("alert_AK-47 | Redline_1", sample_alert)];
     Background.notifications := []; Background.now := 2 |}.

(** Two migrations where the first needs the table the second creates (and
    stops at its first error, so that psql exits with a failure status):
    the first run cannot apply 001 and leaves it unrecorded, the second
    run applies it.  [data] says whether the table exists. *)
Definition table_first_psql (file : string) (d : Migrations.database bool)
    : bool * Migrations.database bool :=
  if String.eqb file "001_add_column.sql" then (Migrations.data d, d)
  else (true, {| Migrations.data := true;
                 Migrations.schema_migrations := Migrations.schema_migrations d |}).

Definition table_first_dir : list string :=
  ["002_create_table.sql"; "001_add_column.sql"; "README.md"]%string.

Definition empty_database : Migrations.database bool :=
  {| Migrations.data := false; Migrations.schema_migrations := [] |}.

(** A table with two tasks whose filters are stored as text. *)
Definition sample_jsonb_in (s : string) : option string :=
  if String.eqb s "" then None else Some s.

Definition sample_tasks : FiltersMigration.table string :=
  {| FiltersMigration.columns :=
       [ {| FiltersMigration.column_name := "id";
            FiltersMigration.column_type := FiltersMigration.OTHER "integer";
            FiltersMigration.not_null := true; FiltersMigration.comment := None |};
         {| FiltersMigration.column_name := "filters_json";
            FiltersMigration.column_type := FiltersMigration.TEXT;
            FiltersMigration.not_null := false; FiltersMigration.comment := None |} ];
     FiltersMigration.rows :=
       [ [("id", FiltersMigration.Other "1");
          ("filters_json", FiltersMigration.Text "{}")];
         [("id", FiltersMigration.Other "2");
          ("filters_json", FiltersMigration.Text "[10]")] ] |}%string.

Definition sample_database : FiltersMigration.database string :=
  {| FiltersMigration.monitoring_tasks := Some sample_tasks;
     FiltersMigration.indexes := [] |}.

End Samples.

(* ===================================================================== *)
(** * Properties *)
(* ===================================================================== *)

(** ** Order facts about binary64 comparisons *)

Section FloatOrder.

Local Open Scope float_scope.

Lemma SFcompare_antisym (x y : spec_float) :
  SFcompare y x = option_map CompOpp (SFcompare x y).
Proof.
  destruct x as [sx|sx| |sx mx ex], y as [sy|sy| |sy my ey]; simpl;
    try reflexivity;
    try (destruct sx; reflexivity);
    try (destruct sy; reflexivity);
    try (destruct sx, sy; reflexivity).
  change (PosDef.Pos.compare_cont Eq my mx) with (Pos.compare my mx).
  change (PosDef.Pos.compare_cont Eq mx my) with (Pos.compare mx my).
  rewrite (Z.compare_antisym ey ex), (Pos.compare_antisym my mx).
  destruct sx, sy; simpl; try reflexivity;
    destruct (ey ?= ex)%Z; simpl; try reflexivity;
    destruct (my ?= mx)%positive; reflexivity.
Qed.

Lemma not_nan_Prim2SF (x : float) :
  is_nan x = false -> Prim2SF x <> S754_nan.
Proof.
  unfold is_nan. rewrite FloatAxioms.eqb_spec. intros H E.
  rewrite E in H. discriminate H.
Qed.

Lemma SFcompare_defined (x y : spec_float) :
  x <> S754_nan -> y <> S754_nan -> exists c, SFcompare x y = Some c.
Proof.
  intros Hx Hy.
  destruct x as [sx|sx| |sx mx ex], y as [sy|sy| |sy my ey]; simpl;
    try congruence; eexists; reflexivity.
Qed.

(** On numbers (no NaN), [x < y] is exactly the negation of [y <= x]. *)
Lemma ltb_negb_leb (x y : float) :
  is_nan x = false -> is_nan y = false -> (x <? y) = negb (y <=? x).
Proof.
  intros Hx Hy. rewrite FloatAxioms.ltb_spec, FloatAxioms.leb_spec.
  unfold SFltb, SFleb.
  rewrite (SFcompare_antisym (Prim2SF x) (Prim2SF y)).
  destruct (SFcompare_defined _ _ (not_nan_Prim2SF _ Hx) (not_nan_Prim2SF _ Hy))
    as [c ->].
  destruct c; reflexivity.
Qed.

Lemma leb_negb_ltb (x y : float) :
  is_nan x = false -> is_nan y = false -> (x <=? y) = negb (y <? x).
Proof.
  intros Hx Hy. rewrite (ltb_negb_leb y x Hy Hx), negb_involutive. reflexivity.
Qed.

End FloatOrder.

(* ===================================================================== *)
(** ** Wear names and investment score (background.js) *)
(* ===================================================================== *)

Section WearAndScore.

Import JS Background.
Local Open Scope string_scope.
Local Open Scope float_scope.

Example getWearName_samples :
  map getWearName [0; 0.0699; 0.07; 0.1499; 0.15; 0.38; 0.4499; 0.45; 1]
  = ["Factory New"; "Factory New"; "Minimal Wear"; "Minimal Wear"; "Field-Tested";
     "Well-Worn"; "Well-Worn"; "Battle-Scarred"; "Battle-Scarred"].
Proof. reflexivity. Qed.

(** A covert, very low float Ruby Karambit with a 99 % fade is clamped to
    10; with every field [null] the score is 8, because [null < 0.001]
    compares 0. *)
Example calculateInvestmentScore_samples :
  calculateInvestmentScore (fun _ => nan)
    (JSNumber 0.0005) (JSNumber 6) (JSNumber 415) (JSString "Ruby") (JSNumber 99)
    (JSString "Karambit") = 10
  /\ calculateInvestmentScore (fun _ => nan) JSNull JSNull JSNull JSNull JSNull JSNull = 8
  /\ calculateInvestmentScore (fun _ => nan)
       (JSNumber 0.5) JSUndefined JSUndefined (JSString "Phase 1") JSNull JSUndefined
     = 5.5.
Proof. repeat split; reflexivity. Qed.

Lemma getWearName_cases (f : float) :
  ((f <? 0.07) = true /\ getWearName f = "Factory New") \/
  ((f <? 0.07) = false /\ (f <? 0.15) = true /\ getWearName f = "Minimal Wear") \/
  ((f <? 0.15) = false /\ (f <? 0.38) = true /\ getWearName f = "Field-Tested") \/
  ((f <? 0.38) = false /\ (f <? 0.45) = true /\ getWearName f = "Well-Worn") \/
  ((f <? 0.45) = false /\ getWearName f = "Battle-Scarred").
Proof.
  unfold getWearName.
  destruct (f <? 0.07) eqn:E1; [now left|].
  destruct (f <? 0.15) eqn:E2; [now right; left|].
  destruct (f <? 0.38) eqn:E3; [now right; right; left|].
  destruct (f <? 0.45) eqn:E4; [now right; right; right; left|].
  now right; right; right; right.
Qed.

(** Thresholds are increasing: below one bound means below every later one. *)
Lemma ltb_leb_trans_const (f a b : float) :
  is_nan f = false -> is_nan a = false -> is_nan b = false ->
  (a <=? b) = true -> (f <? a) = true -> (f <? b) = true.
Proof.
  intros Hf Ha Hb.
  rewrite FloatAxioms.leb_spec, !FloatAxioms.ltb_spec. unfold SFleb, SFltb.
  pose proof (not_nan_Prim2SF _ Hf) as Nf.
  pose proof (not_nan_Prim2SF _ Ha) as Na.
  pose proof (not_nan_Prim2SF _ Hb) as Nb.
  destruct (Prim2SF f) as [sf|sf| |sf mf ef],
           (Prim2SF a) as [sa|sa| |sa ma ea],
           (Prim2SF b) as [sb|sb| |sb mb eb]; simpl; try congruence;
    try (destruct sf, sa, sb; simpl; congruence).
  all: destruct sf, sa, sb; simpl; try congruence.
  all: change (PosDef.Pos.compare_cont Eq ?p ?q) with (Pos.compare p q).
  all: destruct (Z.compare_spec ea eb), (Z.compare_spec ef ea),
         (Z.compare_spec ef eb); subst; try lia; try congruence.
  all: destruct (Pos.compare_spec ma mb), (Pos.compare_spec mf ma),
         (Pos.compare_spec mf mb); subst; simpl; try lia; congruence.
Qed.

(** C9. For every float value [f] that is a number (not NaN), [getWearName]
    returns one of the five wear names, and which one is decided by the
    half-open intervals [f < 0.07], [0.07 <= f < 0.15], [0.15 <= f < 0.38],
    [0.38 <= f < 0.45] and [0.45 <= f]. *)
Theorem getWearName_partition (f : float) :
  is_nan f = false ->
  In (getWearName f)
     ["Factory New"; "Minimal Wear"; "Field-Tested"; "Well-Worn"; "Battle-Scarred"]
  /\ (getWearName f = "Factory New" <-> (f <? 0.07) = true)
  /\ (getWearName f = "Minimal Wear" <-> (0.07 <=? f) = true /\ (f <? 0.15) = true)
  /\ (getWearName f = "Field-Tested" <-> (0.15 <=? f) = true /\ (f <? 0.38) = true)
  /\ (getWearName f = "Well-Worn" <-> (0.38 <=? f) = true /\ (f <? 0.45) = true)
  /\ (getWearName f = "Battle-Scarred" <-> (0.45 <=? f) = true).
Proof.
  intros Hf.
  assert (L : forall c, is_nan c = false -> (c <=? f) = negb (f <? c))
    by (intros c Hc; apply leb_negb_ltb; assumption).
  rewrite (L 0.07 eq_refl), (L 0.15 eq_refl), (L 0.38 eq_refl), (L 0.45 eq_refl).
  assert (M : forall a b, is_nan a = false -> is_nan b = false ->
                          (a <=? b) = true -> (f <? a) = true -> (f <? b) = true)
    by (intros a b Ha Hb; apply ltb_leb_trans_const; assumption).
  pose proof (M 0.07 0.15 eq_refl eq_refl eq_refl) as M1.
  pose proof (M 0.15 0.38 eq_refl eq_refl eq_refl) as M2.
  pose proof (M 0.38 0.45 eq_refl eq_refl eq_refl) as M3.
  assert (N1 : (f <? 0.15) = false -> (f <? 0.07) = false)
    by (intros E; apply not_true_is_false; intros T; rewrite (M1 T) in E;
        discriminate).
  assert (N2 : (f <? 0.38) = false -> (f <? 0.15) = false)
    by (intros E; apply not_true_is_false; intros T; rewrite (M2 T) in E;
        discriminate).
  assert (N3 : (f <? 0.45) = false -> (f <? 0.38) = false)
    by (intros E; apply not_true_is_false; intros T; rewrite (M3 T) in E;
        discriminate).
  destruct (getWearName_cases f)
    as [[E1 ->]|[[E1 [E2 ->]]|[[E2 [E3 ->]]|[[E3 [E4 ->]]|[E4 ->]]]]].
  - rewrite E1, (M1 E1), (M2 (M1 E1)), (M3 (M2 (M1 E1))). simpl.
    repeat split; intros; try discriminate; try tauto; intuition discriminate.
  - rewrite E1, E2, (M2 E2), (M3 (M2 E2)). simpl.
    repeat split; intros; try discriminate; try tauto; intuition discriminate.
  - rewrite (N1 E2), E2, E3, (M3 E3). simpl.
    repeat split; intros; try discriminate; try tauto; intuition discriminate.
  - rewrite (N1 (N2 E3)), (N2 E3), E3, E4. simpl.
    repeat split; intros; try discriminate; try tauto; intuition discriminate.
  - rewrite (N1 (N2 (N3 E4))), (N2 (N3 E4)), (N3 E4), E4. simpl.
    repeat split; intros; try discriminate; try tauto; intuition discriminate.
Qed.

(** A number at the boundary 0.07 is already "Minimal Wear". *)
Lemma getWearName_partition_witness :
  is_nan 0.07 = false /\ getWearName 0.07 = "Minimal Wear".
Proof.
  split; [reflexivity|].
  destruct (getWearName_partition 0.07 eq_refl) as (_ & _ & H & _).
  apply H. split; reflexivity.
Defined.

Ltac split_ifs :=
  repeat match goal with
         | |- context [if ?b then _ else _] =>
             is_var b; destruct b; cbv beta iota
         end.

(** C8. Whatever values (numbers, strings, null, undefined, ...) are passed
    for the six parameters, [calculateInvestmentScore] returns a number [s]
    with [1 <= s <= 10]. *)
Theorem calculateInvestmentScore_bounded
    (StringToNumber : string -> float)
    (floatValue rarity paintIndex dopplerPhase fadePercentage weaponType : JSValue) :
  let s := calculateInvestmentScore StringToNumber floatValue rarity paintIndex
             dopplerPhase fadePercentage weaponType in
  (1 <=? s) = true /\ (s <=? 10) = true.
Proof.
  cbv beta zeta delta [calculateInvestmentScore].
  generalize (ge_num StringToNumber rarity 6), (ge_num StringToNumber rarity 5),
    (ge_num StringToNumber rarity 4), (lt_num StringToNumber floatValue 0.001),
    (lt_num StringToNumber floatValue 0.01), (lt_num StringToNumber floatValue 0.07),
    (ge_num StringToNumber fadePercentage 95), (ge_num StringToNumber fadePercentage 90),
    (ge_num StringToNumber fadePercentage 80).
  intros r6 r5 r4 f1 f2 f3 p95 p90 p80.
  generalize (ToBoolean dopplerPhase), (ToBoolean weaponType),
    (strict_ne_null fadePercentage), (includes popularKnives weaponType).
  intros td tw fn inc.
  generalize (strict_eq_string dopplerPhase "Ruby"
              || strict_eq_string dopplerPhase "Sapphire"
              || strict_eq_string dopplerPhase "Black Pearl"
              || strict_eq_string dopplerPhase "Emerald"),
    (strict_eq_string dopplerPhase "Phase 2"),
    (strict_eq_string dopplerPhase "Phase 4"),
    (strict_eq_string dopplerPhase "Phase 1"
     || strict_eq_string dopplerPhase "Phase 3").
  intros special ph2 ph4 ph13.
  split_ifs; vm_compute; split; reflexivity.
Qed.

End WearAndScore.

(* ===================================================================== *)
(** ** Float range filters (content.js, floatSorter.js) *)
(* ===================================================================== *)

Section FloatFilters.

Local Open Scope string_scope.
Local Open Scope float_scope.

Variable parseFloat : string -> float.

(** *** content.js *)

Lemma content_fold_rows (g : Content.globals) (items : list Content.market_listing_row) :
  forall done c,
    fst (fold_left (Content.filter_step parseFloat g) items (done, c))
    = (done ++ map (Content.row_after parseFloat g) items)%list.
Proof.
  induction items as [|item items IH]; intros done c; simpl.
  - now rewrite app_nil_r.
  - unfold Content.row_after at 1.
    destruct (Content.float_element item) as [t|];
      [destruct ((Content.minFloat g <=? parseFloat t)
                 && (parseFloat t <=? Content.maxFloat g))|];
      rewrite IH, <- app_assoc; reflexivity.
Qed.

Lemma content_filterItems_rows (g : Content.globals) items :
  Content.isProcessing g = false ->
  fst (Content.filterItems parseFloat g items) = map (Content.row_after parseFloat g) items.
Proof.
  intros Hp. unfold Content.filterItems. rewrite Hp.
  pose proof (content_fold_rows g items []
                {| Content.visibleCount := 0; Content.hiddenCount := 0;
                   Content.processedCount := 0 |}) as H.
  destruct (fold_left _ items _) as [items' c]. simpl in *. exact H.
Qed.

(** *** floatSorter.js *)

Variable listing : Type.
Variable getFloatValue : listing -> option float.

Lemma sorter_fold_styles_acc (this : FloatSorter.sorter) (listings : list listing) :
  forall styles v t,
    fst (fst (fold_left
      (fun '(styles, visibleCount, totalWithFloat) l =>
         let '(st, vis, has) :=
           FloatSorter.filter_listing listing getFloatValue
             (FloatSorter.bound_of parseFloat (FloatSorter.minFloatValue this))
             (FloatSorter.bound_of parseFloat (FloatSorter.maxFloatValue this)) l in
         ((styles ++ [st])%list,
          if vis then S visibleCount else visibleCount,
          if has then S totalWithFloat else totalWithFloat))
      listings (styles, v, t)))
    = (styles ++ map (FloatSorter.style_after parseFloat listing getFloatValue this) listings)%list.
Proof.
  induction listings as [|l ls IH]; intros styles v t; simpl.
  - now rewrite app_nil_r.
  - unfold FloatSorter.style_after at 1.
    destruct (FloatSorter.filter_listing _ _ _ _ l) as [[st vis] has]; simpl.
    rewrite IH, <- app_assoc. reflexivity.
Qed.

Lemma sorter_fold_styles (this : FloatSorter.sorter) (listings : list listing) :
  fst (fst (FloatSorter.filterItems parseFloat listing getFloatValue this listings))
  = map (FloatSorter.style_after parseFloat listing getFloatValue this) listings.
Proof.
  unfold FloatSorter.filterItems. apply (sorter_fold_styles_acc this listings []).
Qed.

Lemma filter_listing_display (minFloat maxFloat : option float) (l : listing) (f : float) :
  getFloatValue l = Some f ->
  FloatSorter.display
    (fst (fst (FloatSorter.filter_listing listing getFloatValue minFloat maxFloat l)))
  = if match minFloat with Some m => f <? m | None => false end
       || match maxFloat with Some M => M <? f | None => false end
    then "none" else "".
Proof.
  intros E. unfold FloatSorter.filter_listing. rewrite E.
  destruct minFloat as [m|], maxFloat as [M|]; simpl;
    try destruct (f <? m); try destruct (M <? f); reflexivity.
Qed.


End FloatFilters.


(* ===================================================================== *)
(** ** Retry schedule of the fetch loops (background.js) *)
(* ===================================================================== *)

Section RetrySchedule.

Import Background.
Local Open Scope string_scope.
Local Open Scope nat_scope.

Variable J : Type.
Variable iteminfo : J -> option J.
Variable result_for : J -> string -> option J.
Variable error_of : J -> option string.
Variable net : nat -> fetch_outcome J.
Variable runtime_id : nat -> bool.

Abbreviation world := (Background.world J).
Abbreviation event := (Background.event J).
Abbreviation all_5xx := (Background.all_5xx net).
Abbreviation reachable :=
  (Background.reachable iteminfo result_for error_of net runtime_id).

Example match_asset_id_samples :
  match_asset_id "steam://rungame/730/76561202255233023/+csgo_econ_action_preview%20S76561198084749846A22615579127D7980523461432884093"
  = Some "22615579127"
  /\ match_asset_id "AAD A12 A7D" = Some "7"
  /\ match_asset_id "no asset here" = None.
Proof. repeat split; reflexivity. Qed.

Example backoffDelay_samples : map backoffDelay [1; 2; 3] = backoff.
Proof. reflexivity. Qed.

Lemma advance_advance (w : world) k1 es1 k2 es2 :
  advance (advance w k1 es1) k2 es2 = advance w (k1 + k2) (es1 ++ es2).
Proof.
  unfold advance; simpl. now rewrite Nat.add_assoc, app_assoc.
Qed.

Lemma advance_0_nil (w : world) : advance w 0 [] = w.
Proof.
  destruct w; unfold advance; simpl. now rewrite Nat.add_0_r, app_nil_r.
Qed.

Lemma all_5xx_head n j :
  all_5xx n (S j) ->
  exists status body, net n = Response status body /\ server_error status = true.
Proof.
  intros H. destruct (H 0 (Nat.lt_0_succ j)) as (st & b & E & S5).
  rewrite Nat.add_0_r in E. eauto.
Qed.

Lemma all_5xx_tail n j : all_5xx n (S j) -> all_5xx (S n) j.
Proof.
  intros H i Hi. destruct (H (S i)) as (st & b & E & S5); [lia|].
  exists st, b. split; [|exact S5]. now rewrite <- E, Nat.add_succ_r.
Qed.

Lemma retries_schedule r j :
  j <= 3 ->
  (retries r 0 j ++ [EvFetch r])%list = @schedule J r (firstn j backoff).
Proof.
  intros Hj. destruct j as [|[|[|[|j]]]]; try lia; reflexivity.
Qed.

(** *** The single-request loop *)

Lemma attemptFetch_retry inspectLink retryCount (w : world) status body :
  net (fetches w) = Response status body ->
  server_error status = true ->
  retryCount < MAX_RETRIES ->
  attemptFetch J iteminfo net inspectLink retryCount w
  = attemptFetch J iteminfo net inspectLink (S retryCount)
      (advance w 1 [EvFetch (Single inspectLink);
                    EvSleep (backoffDelay (S retryCount))]).
Proof.
  intros E S5 Hlt. rewrite attemptFetch_equation_1 at 1.
  unfold bind at 1, fetch at 1. rewrite E, S5.
  destruct (lt_dec retryCount MAX_RETRIES) as [_|N]; [|contradiction].
  unfold bind, sleep, log, emit, advance; simpl.
  now rewrite Nat.add_1_r, <- app_assoc.
Qed.

Lemma attemptFetch_cap inspectLink retryCount (w : world) status body :
  net (fetches w) = Response status body ->
  server_error status = true ->
  MAX_RETRIES <= retryCount ->
  attemptFetch J iteminfo net inspectLink retryCount w
  = (inr (Error ("API returned " ++ nat_to_string status ++ " after 3 retries")),
     advance w 1 [EvFetch (Single inspectLink)]).
Proof.
  intros E S5 Hge. rewrite attemptFetch_equation_1.
  unfold bind at 1, fetch at 1. rewrite E, S5.
  destruct (lt_dec retryCount MAX_RETRIES) as [L|_]; [lia|].
  unfold throw, advance; simpl. now rewrite Nat.add_1_r.
Qed.

Lemma attemptFetch_success inspectLink retryCount (w : world) status data :
  net (fetches w) = Response status (Some data) ->
  server_error status = false ->
  response_ok status = true ->
  attemptFetch J iteminfo net inspectLink retryCount w
  = (inl (iteminfo data), advance w 1 [EvFetch (Single inspectLink)]).
Proof.
  intros E S5 Hok. rewrite attemptFetch_equation_1.
  unfold bind at 1, fetch at 1. rewrite E, S5, Hok.
  unfold bind, json, ret, advance; simpl. now rewrite Nat.add_1_r.
Qed.

Lemma attemptFetch_retries inspectLink j :
  forall retryCount (w : world),
    retryCount + j <= MAX_RETRIES ->
    all_5xx (fetches w) j ->
    attemptFetch J iteminfo net inspectLink retryCount w
    = attemptFetch J iteminfo net inspectLink (retryCount + j)
        (advance w j (retries (Single inspectLink) retryCount j)).
Proof.
  induction j as [|j IH]; intros retryCount w Hle H5.
  - now rewrite Nat.add_0_r, advance_0_nil.
  - destruct (all_5xx_head _ _ H5) as (st & b & E & S5).
    rewrite (attemptFetch_retry _ _ _ st b E S5) by lia.
    rewrite IH.
    + rewrite advance_advance. simpl. now rewrite Nat.add_succ_r.
    + lia.
    + unfold advance; simpl. rewrite Nat.add_1_r. now apply all_5xx_tail.
Qed.


(** *** Shape of every run: only the batch loop issues bulk requests *)

Lemma bulk_requests_app (es1 es2 : list event) :
  bulk_requests (es1 ++ es2) = (bulk_requests es1 ++ bulk_requests es2)%list.
Proof.
  induction es1 as [|e es1 IH]; simpl; [reflexivity|].
  destruct e as [[links|l]|ms|p d|p m]; simpl; try assumption.
  now rewrite IH.
Qed.

Lemma fetch_run (r : request) (w : world) :
  fetch J net r w
  = match net (fetches w) with
    | Response status body => (inl (status, body), advance w 1 [EvFetch r])
    | Rejected err => (inr err, advance w 1 [EvFetch r])
    end.
Proof.
  unfold fetch, advance. rewrite Nat.add_1_r. reflexivity.
Qed.

Lemma log_run (e : event) (w : world) : log J e w = (inl tt, advance w 0 [e]).
Proof.
  unfold log, emit, advance. now rewrite Nat.add_0_r.
Qed.

Lemma log_all_run (es : list event) :
  forall w : world, log_all J es w = (inl tt, advance w 0 es).
Proof.
  induction es as [|e es IH]; intros w; simpl.
  - unfold ret. now rewrite advance_0_nil.
  - unfold bind. rewrite log_run, IH, advance_advance. reflexivity.
Qed.

Lemma attemptFetch_shape inspectLink :
  forall retryCount (w : world),
  exists r k es,
    attemptFetch J iteminfo net inspectLink retryCount w = (r, advance w k es)
    /\ bulk_requests es = [].
Proof.
  intros retryCount w.
  remember (MAX_RETRIES - retryCount) as m eqn:Hm.
  revert retryCount w Hm.
  induction m as [|m IH]; intros retryCount w Hm;
    rewrite attemptFetch_equation_1; unfold bind at 1; rewrite fetch_run;
    destruct (net (fetches w)) as [status body|err];
    try (now eexists _, _, _; split; [reflexivity|reflexivity]).
  all: destruct (server_error status).
  all: try (destruct (response_ok status); simpl;
            [destruct body as [data|]; simpl; unfold bind, json, ret, throw|unfold throw];
            now eexists _, _, _; split; [reflexivity|reflexivity]).
  - destruct (lt_dec retryCount MAX_RETRIES) as [L|_]; [lia|].
    unfold throw. now eexists _, _, _; split; [reflexivity|reflexivity].
  - destruct (lt_dec retryCount MAX_RETRIES) as [L|_].
    + unfold bind, sleep. rewrite log_run, advance_advance.
      destruct (IH (S retryCount)
                  (advance w (1 + 0)
                     ([EvFetch (Single inspectLink)]
                        ++ [EvSleep (backoffDelay (S retryCount))]))
                  ltac:(lia)) as (r & k & es & E & B).
      rewrite E, advance_advance. eexists _, _, _. split; [reflexivity|].
      rewrite bulk_requests_app, B. reflexivity.
    + unfold throw. now eexists _, _, _; split; [reflexivity|reflexivity].
Qed.

Lemma fallback_individually_shape (batch : list queue_item) :
  forall w : world,
  exists k es,
    fallback_individually J iteminfo net batch w = (inl tt, advance w k es)
    /\ bulk_requests es = [].
Proof.
  induction batch as [|item rest IH]; intros w; simpl.
  - exists 0, []. unfold ret. now rewrite advance_0_nil.
  - unfold bind at 1, try_catch, bind, fetchFloatDataSingle.
    destruct (attemptFetch_shape (link item) 0 w) as (r & k & es & E & B).
    rewrite E. destruct r as [data|err]; rewrite log_run, advance_advance;
      match goal with
      | |- context [fallback_individually _ _ _ rest ?w'] =>
          destruct (IH w') as (k' & es' & E' & B')
      end;
      rewrite E', advance_advance; eexists _, _; (split; [reflexivity|]);
      rewrite !bulk_requests_app, B, B'; reflexivity.
Qed.

Lemma batch_catch_shape (batch : list queue_item) (error : js_error) (w : world) :
  exists k es,
    batch_catch J iteminfo net batch error w = (inl tt, advance w k es)
    /\ bulk_requests es = [].
Proof.
  unfold batch_catch.
  destruct (string_includes (error_message error) "Extension context invalidated").
  - rewrite log_all_run. eexists _, _. split; [reflexivity|].
    induction batch as [|item rest IH]; simpl; [reflexivity|exact IH].
  - apply fallback_individually_shape.
Qed.


Lemma batch_catch_after (batch : list queue_item) (error : js_error)
    (w : world) (k : nat) (es : list event) (links : list string) :
  Forall (eq links) (bulk_requests es) ->
  exists k' es',
    batch_catch J iteminfo net batch error (advance w k es) = (inl tt, advance w k' es')
    /\ Forall (eq links) (bulk_requests es').
Proof.
  intros HF.
  destruct (batch_catch_shape batch error (advance w k es)) as (k' & es' & E & B).
  rewrite E, advance_advance. eexists _, _. split; [reflexivity|].
  rewrite bulk_requests_app, B, app_nil_r. exact HF.
Qed.


Lemma attemptBatchFetch_unfold (batch : list queue_item) retryCount (w : world) :
  attemptBatchFetch J iteminfo result_for error_of net runtime_id batch retryCount w
  = let links := map link batch in
    let catch := batch_catch J iteminfo net batch in
    if runtime_id (fetches w) then
      match net (fetches w) with
      | Rejected err => catch err (advance w 1 [EvFetch (Bulk links)])
      | Response status body =>
          if server_error status then
            if retryCount <? MAX_RETRIES then
              match attemptBatchFetch J iteminfo result_for error_of net runtime_id
                      batch (S retryCount)
                      (advance w 1 [EvFetch (Bulk links);
                                    EvSleep (backoffDelay (S retryCount))]) with
              | (inl a, w') => (inl a, w')
              | (inr e, w') => catch e w'
              end
            else
              catch (Error ("Batch API returned " ++ nat_to_string status
                            ++ " after 3 retries"))
                    (advance w 1 [EvFetch (Bulk links)])
          else if response_ok status then
            match body with
            | Some results =>
                (inl tt, advance w 1 (EvFetch (Bulk links)
                                        :: map (settle_item J result_for error_of results)
                                             batch))
            | None =>
                catch {| error_name := "SyntaxError";
                         error_message := "Unexpected token" |}
                      (advance w 1 [EvFetch (Bulk links)])
            end
          else
            catch (Error ("Batch API returned " ++ nat_to_string status))
                  (advance w 1 [EvFetch (Bulk links)])
      end
    else catch (Error "Extension context invalidated") w.
Proof.
  rewrite attemptBatchFetch_equation_1 at 1.
  cbv zeta. unfold try_catch. unfold bind at 1.
  destruct (runtime_id (fetches w)); [|reflexivity].
  unfold ret. unfold bind at 1. rewrite fetch_run.
  destruct (net (fetches w)) as [status body|err]; [|reflexivity].
  destruct (server_error status).
  - destruct (lt_dec retryCount MAX_RETRIES) as [L|N].
    + apply Nat.ltb_lt in L. rewrite L.
      unfold bind, sleep. rewrite log_run, advance_advance. reflexivity.
    + apply Nat.ltb_nlt in N. rewrite N. reflexivity.
  - destruct (response_ok status); simpl; [|reflexivity].
    destruct body as [results|]; simpl; [|reflexivity].
    unfold bind, json, ret. rewrite log_all_run, advance_advance. reflexivity.
Qed.

Lemma settle_no_bulk (results : J) (batch : list queue_item) :
  bulk_requests (map (settle_item J result_for error_of results) batch) = [].
Proof.
  induction batch as [|item rest IH]; simpl; [reflexivity|].
  unfold settle_item at 1.
  destruct (match_asset_id (link item)) as [a|]; [|exact IH].
  destruct (result_for results a) as [fd|]; [|exact IH].
  destruct (error_of fd); exact IH.
Qed.

(** The batch loop always completes (its [catch] absorbs every error), and
    every bulk request it sends carries the links of its batch. *)
Lemma attemptBatchFetch_shape (batch : list queue_item) :
  forall retryCount (w : world),
  exists k es,
    attemptBatchFetch J iteminfo result_for error_of net runtime_id batch retryCount w
    = (inl tt, advance w k es)
    /\ Forall (eq (map link batch)) (bulk_requests es).
Proof.
  intros retryCount w.
  remember (MAX_RETRIES - retryCount) as m eqn:Hm.
  revert retryCount w Hm.
  assert (F1 : Forall (eq (map link batch))
                 (bulk_requests [@EvFetch J (Bulk (map link batch))]))
    by (simpl; constructor; [reflexivity|constructor]).
  induction m as [|m IH]; intros retryCount w Hm;
    rewrite attemptBatchFetch_unfold; cbv zeta.
  all: destruct (runtime_id (fetches w));
    [|match goal with
      | |- context [batch_catch _ _ _ _ ?e ?w0] =>
          destruct (batch_catch_shape batch e w0) as (k & es & E & B);
          exists k, es; split; [exact E|rewrite B; constructor]
      end].
  all: destruct (net (fetches w)) as [status body|err];
    [|apply batch_catch_after; exact F1].
  all: destruct (server_error status);
    [|destruct (response_ok status);
      [destruct body as [results|];
       [eexists _, _; split; [reflexivity|]; simpl;
        rewrite settle_no_bulk; constructor; [reflexivity|constructor]
       |apply batch_catch_after; exact F1]
      |apply batch_catch_after; exact F1]].
  - replace (retryCount <? MAX_RETRIES) with false
      by (symmetry; apply Nat.ltb_ge; lia).
    apply batch_catch_after; exact F1.
  - destruct (retryCount <? MAX_RETRIES) eqn:L;
      [|apply batch_catch_after; exact F1].
    apply Nat.ltb_lt in L.
    destruct (IH (S retryCount)
                (advance w 1 [EvFetch (Bulk (map link batch));
                              EvSleep (backoffDelay (S retryCount))])
                ltac:(lia)) as (k & es & E & B).
    rewrite E, advance_advance. eexists _, _. split; [reflexivity|].
    rewrite bulk_requests_app. apply Forall_app. split; [exact F1|exact B].
Qed.

(** *** The batch loop *)

Lemma attemptBatchFetch_retry (batch : list queue_item) retryCount (w : world)
    status body :
  runtime_id (fetches w) = true ->
  net (fetches w) = Response status body ->
  server_error status = true ->
  retryCount < MAX_RETRIES ->
  attemptBatchFetch J iteminfo result_for error_of net runtime_id batch retryCount w
  = attemptBatchFetch J iteminfo result_for error_of net runtime_id batch (S retryCount)
      (advance w 1 [EvFetch (Bulk (map link batch));
                    EvSleep (backoffDelay (S retryCount))]).
Proof.
  intros R E S5 L. rewrite attemptBatchFetch_unfold at 1. cbv zeta.
  rewrite R, E, S5. apply Nat.ltb_lt in L. rewrite L.
  match goal with
  | |- context [attemptBatchFetch _ _ _ _ _ _ batch (S retryCount) ?w0] =>
      destruct (attemptBatchFetch_shape batch (S retryCount) w0) as (k & es & Es & _)
  end.
  rewrite Es. reflexivity.
Qed.

Lemma attemptBatchFetch_retries (batch : list queue_item) j :
  forall retryCount (w : world),
    retryCount + j <= MAX_RETRIES ->
    all_5xx (fetches w) j ->
    (forall i, i < j -> runtime_id (fetches w + i) = true) ->
    attemptBatchFetch J iteminfo result_for error_of net runtime_id batch retryCount w
    = attemptBatchFetch J iteminfo result_for error_of net runtime_id batch
        (retryCount + j)
        (advance w j (retries (Bulk (map link batch)) retryCount j)).
Proof.
  induction j as [|j IH]; intros retryCount w Hle H5 HR.
  - now rewrite Nat.add_0_r, advance_0_nil.
  - destruct (all_5xx_head _ _ H5) as (st & b & E & S5).
    rewrite (attemptBatchFetch_retry batch retryCount w st b) by
      (try assumption; try lia;
       rewrite <- (Nat.add_0_r (fetches w)); apply HR; lia).
    rewrite IH.
    + rewrite advance_advance. simpl. now rewrite Nat.add_succ_r.
    + lia.
    + unfold advance; simpl. rewrite Nat.add_1_r. now apply all_5xx_tail.
    + intros i Hi. unfold advance; simpl.
      rewrite Nat.add_1_r, Nat.add_succ_l, <- Nat.add_succ_r. apply HR. lia.
Qed.



(** *** The batch queue *)

(** With the extension context alive, a batch attempt starts with its bulk
    request. *)
Lemma attemptBatchFetch_first_request (batch : list queue_item) retryCount (w : world) :
  runtime_id (fetches w) = true ->
  exists k es,
    attemptBatchFetch J iteminfo result_for error_of net runtime_id batch retryCount w
    = (inl tt, advance w k (EvFetch (Bulk (map link batch)) :: es))
    /\ Forall (eq (map link batch)) (bulk_requests es).
Proof.
  intros R. rewrite attemptBatchFetch_unfold. cbv zeta. rewrite R.
  assert (C : forall e,
    exists k es,
      batch_catch J iteminfo net batch e
        (advance w 1 [EvFetch (Bulk (map link batch))])
      = (inl tt, advance w k (EvFetch (Bulk (map link batch)) :: es))
      /\ Forall (eq (map link batch)) (bulk_requests es)).
  { intros e.
    destruct (batch_catch_shape batch e
                (advance w 1 [EvFetch (Bulk (map link batch))]))
      as (k & es & E & B).
    rewrite E, advance_advance. exists (1 + k), es. split; [reflexivity|].
    rewrite B. constructor. }
  destruct (net (fetches w)) as [status body|err]; [|apply C].
  destruct (server_error status).
  - destruct (retryCount <? MAX_RETRIES); [|apply C].
    match goal with
    | |- context [attemptBatchFetch _ _ _ _ _ _ batch (S retryCount) ?w0] =>
        destruct (attemptBatchFetch_shape batch (S retryCount) w0) as (k & es & E & B)
    end.
    rewrite E, advance_advance. eexists _, _. split; [reflexivity|].
    simpl. exact B.
  - destruct (response_ok status); [|apply C].
    destruct body as [results|]; [|apply C].
    eexists _, _. split; [reflexivity|].
    rewrite settle_no_bulk. constructor.
Qed.

Lemma clearBatchQueue_trace (w : world) :
  exists es, trace (clearBatchQueue J w) = (trace w ++ es)%list
             /\ bulk_requests es = [].
Proof.
  unfold clearBatchQueue.
  destruct (0 <? List.length (batchQueue w)); destruct (batchTimer w); simpl.
  3,4: exists []; now rewrite app_nil_r.
  all: eexists; split; [reflexivity|].
  all: induction (batchQueue w) as [|item rest IH]; simpl; [reflexivity|exact IH].
Qed.

(** What one call of [processBatch] does to the queue and to the network. *)
Lemma processBatch_run (w : world) :
  exists w' es,
    processBatch J iteminfo result_for error_of net runtime_id w = (inl tt, w')
    /\ trace w' = (trace w ++ es)%list
    /\ Forall (eq (map link (firstn BATCH_SIZE (batchQueue w)))) (bulk_requests es)
    /\ (bulk_requests es <> [] -> batchQueue w' = skipn BATCH_SIZE (batchQueue w))
    /\ (batchQueue w <> [] -> runtime_id (fetches w) = true ->
        bulk_requests es <> [] /\ batchQueue w' = skipn BATCH_SIZE (batchQueue w))
    /\ List.length (batchQueue w') < BATCH_SIZE + (List.length (batchQueue w) - BATCH_SIZE).
Proof.
  unfold processBatch.
  destruct (batchQueue w) as [|q0 qs] eqn:Q.
  - simpl. exists w, []. rewrite app_nil_r, Q. unfold ret, BATCH_SIZE. simpl.
    repeat split; try constructor; try congruence; try lia.
  - cbn [List.length Nat.eqb].
    destruct (runtime_id (fetches w)) eqn:R; cbn [negb].
    + destruct (batchTimer w) as [handle|];
        match goal with
        | |- context [attemptBatchFetch _ _ _ _ _ _ ?b 0 ?w0] =>
            destruct (attemptBatchFetch_first_request b 0 w0) as (k & es & E & B);
            [exact R|]
        end;
        rewrite E; eexists _, _; (split; [reflexivity|]); simpl.
      all: split; [reflexivity|].
      all: split; [constructor; [reflexivity|exact B]|].
      all: split; [reflexivity|].
      all: split; [intros _ _; split; [discriminate|reflexivity]|].
      all: match goal with
           | |- List.length ?l < _ => change l with (skipn 9 qs)
           end; rewrite length_skipn; lia.
    + destruct (clearBatchQueue_trace w) as (es & Et & Eb).
      exists (clearBatchQueue J w), es. unfold ret.
      split; [reflexivity|]. split; [exact Et|]. rewrite Eb.
      split; [constructor|]. split; [congruence|]. split; [discriminate|].
      unfold clearBatchQueue. rewrite Q. simpl.
      destruct (batchTimer w); simpl; unfold BATCH_SIZE; lia.
Qed.



(** X1. Between two events the queue always holds fewer than ten items, so
    a flush never finds more than one batch worth of links. *)
Lemma queue_below_batch_size (w : world) :
  reachable w -> List.length (batchQueue w) < BATCH_SIZE.
Proof.
  induction 1 as [|inspectLink w Hr IH|handle w Hr IH].
  - unfold BATCH_SIZE. simpl. lia.
  - unfold addToBatchQueue.
    destruct (BATCH_SIZE <=? List.length (batchQueue w ++ [_])) eqn:Full.
    + match goal with
      | |- context [bind _ _ _ ?w0] =>
          destruct (processBatch_run w0) as (w' & es & E & _ & _ & _ & _ & L)
      end.
      unfold bind. rewrite E. cbn [snd ret]. cbn [batchQueue] in L.
      rewrite length_app in L. cbn [List.length] in L.
      unfold BATCH_SIZE in *. lia.
    + apply Nat.leb_gt in Full. exact Full.
  - unfold fire_timer.
    destruct (existsb _ (timers w)); [|exact IH].
    match goal with
    | |- context [processBatch _ _ _ _ _ _ ?w0] =>
        destruct (processBatch_run w0) as (w' & es & E & _ & _ & _ & _ & L)
    end.
    rewrite E. cbn [snd]. cbn [batchQueue] in L. unfold BATCH_SIZE in *. lia.
Qed.

End RetrySchedule.


(* ===================================================================== *)
(** ** Price alerts (background.js) *)
(* ===================================================================== *)

Section PriceAlerts.

Import Background.
Local Open Scope string_scope.

Lemma check_entries_notifications item currentPrice entries :
  forall alerts st,
    List.length (notifications
              (snd (fold_left (check_entry item currentPrice) entries (alerts, st))))
    = List.length (notifications st)
      + List.length (filter (fires item currentPrice) entries).
Proof.
  induction entries as [|[alertId alert] rest IH]; intros alerts st; simpl.
  - lia.
  - unfold fires at 1. simpl.
    destruct (shouldAlert alert item currentPrice) as [m|]; rewrite IH; simpl.
    + rewrite length_app. simpl. lia.
    + reflexivity.
Qed.

(** Marking an entry as triggered changes nothing that [shouldAlert] reads. *)
Lemma mark_triggered_fires item currentPrice alertId at_ alerts :
  map (fires item currentPrice) (mark_triggered alertId at_ alerts)
  = map (fires item currentPrice) alerts.
Proof.
  induction alerts as [|[k a] rest IH]; simpl; [reflexivity|].
  destruct (String.eqb k alertId); simpl.
  - reflexivity.
  - now rewrite IH.
Qed.

Lemma check_entries_alerts item currentPrice entries :
  forall alerts st,
    priceAlerts st = alerts ->
    let r := fold_left (check_entry item currentPrice) entries (alerts, st) in
    priceAlerts (snd r) = fst r
    /\ map (fires item currentPrice) (fst r) = map (fires item currentPrice) alerts.
Proof.
  induction entries as [|[alertId alert] rest IH]; intros alerts st E; simpl.
  - split; [exact E|reflexivity].
  - destruct (shouldAlert alert item currentPrice) as [m|].
    + match goal with
      | |- context [fold_left _ rest (?a, ?s)] =>
          destruct (IH a s eq_refl) as [H1 H2]
      end.
      split; [exact H1|]. rewrite H2. apply mark_triggered_fires.
    + apply IH. exact E.
Qed.

Lemma filter_length_map {A} (f : A -> bool) (l1 l2 : list A) :
  map f l1 = map f l2 -> List.length (filter f l1) = List.length (filter f l2).
Proof.
  revert l2. induction l1 as [|x l1 IH]; intros [|y l2] E; simpl in *;
    try discriminate; [reflexivity|].
  injection E as Ex El. rewrite Ex. destruct (f y); simpl; auto.
Qed.

(** X9. Every call notifies once per alert whose condition holds, whether
    or not the alert is already marked as triggered: replaying an
    observation repeats its notifications. *)
Lemma checkPriceAlerts_replay item currentPrice st :
  let n := List.length (filter (fires item currentPrice) (priceAlerts st)) in
  let st1 := checkPriceAlerts item currentPrice st in
  let st2 := checkPriceAlerts item currentPrice st1 in
  List.length (notifications st1) = List.length (notifications st) + n
  /\ List.length (notifications st2) = List.length (notifications st) + 2 * n.
Proof.
  cbv zeta. unfold checkPriceAlerts.
  rewrite !check_entries_notifications.
  split; [reflexivity|].
  destruct (check_entries_alerts item currentPrice (priceAlerts st)
              (priceAlerts st) st eq_refl) as [H1 H2].
  rewrite H1. rewrite (filter_length_map _ _ _ H2). lia.
Qed.

(** C1 on the code: the first observation notifies and marks the alert as
    triggered; the same observation delivered again notifies a second
    time. *)
Theorem checkPriceAlerts_notifies_twice :
  let st1 := checkPriceAlerts "AK-47 | Redline" 50%float sample_alert_state in
  let st2 := checkPriceAlerts "AK-47 | Redline" 50%float st1 in
  map (fun e => triggered (snd e)) (priceAlerts st1) = [true]
  /\ List.length (notifications st1) = 1
  /\ List.length (notifications st2) = 2.
Proof.
  vm_compute. repeat split.
Qed.

End PriceAlerts.

(* ===================================================================== *)
(** ** The migration runner *)
(* ===================================================================== *)

Section MigrationRunner.

Import Migrations.
Local Open Scope string_scope.

Example migration_files_sample :
  migration_files ["010_b.sql"; "README.md"; "002_a.sql"; ".hidden.sql"; "001_c.sql"]
  = ["001_c.sql"; "002_a.sql"; "010_b.sql"].
Proof. reflexivity. Qed.

(** The order [sort] uses is transitive. *)
Lemma string_leb_iff (a b : string) :
  String.leb a b = true <-> String_as_OT.lt a b \/ a = b.
Proof.
  unfold String.leb. rewrite <- String_as_OT.cmp_lt, <- String_as_OT.cmp_eq.
  unfold String_as_OT.cmp. destruct (String.compare a b); split; intros H;
    try reflexivity; try discriminate; auto; destruct H; discriminate.
Qed.

Lemma string_leb_trans : Transitive (fun a b : string => is_true (StringOrder.leb a b)).
Proof.
  intros a b c. unfold is_true, StringOrder.leb. rewrite !string_leb_iff.
  intros [H1 | ->] [H2 | ->]; auto. left. eapply String_as_OT.lt_trans; eassumption.
Qed.

Lemma migration_files_sorted (dir : list string) :
  StronglySorted (fun a b => is_true (String.leb a b)) (migration_files dir).
Proof.
  apply (StringSort.StronglySorted_sort _ string_leb_trans).
Qed.

Lemma migration_files_In (dir : list string) (f : string) :
  In f (migration_files dir) <-> In f dir /\ matches_sql_glob f = true.
Proof.
  unfold migration_files. rewrite <- filter_In. split; intros H.
  - eapply Permutation_in; [apply Permutation_sym, StringSort.Permuted_sort|exact H].
  - eapply Permutation_in; [apply StringSort.Permuted_sort|exact H].
Qed.

Variable D : Type.
Variable psql_file : string -> database D -> bool * database D.

Abbreviation apply_migration := (Migrations.apply_migration D psql_file).
Abbreviation migration_loop := (Migrations.migration_loop D psql_file).
Abbreviation run_migrations := (Migrations.run_migrations D psql_file).
Abbreviation MIGRATION_APPLIED := (Migrations.MIGRATION_APPLIED D).

Lemma loop_visits (files : list string) :
  forall r, map fst (echoed (fold_left apply_migration files r))
            = (map fst (echoed r) ++ files)%list.
Proof.
  induction files as [|f files IH]; intros r; simpl.
  - now rewrite app_nil_r.
  - rewrite IH. unfold Migrations.apply_migration.
    destruct (negb _); [destruct (psql_file f (db r)) as [[|] db']|];
      simpl; rewrite map_app, <- app_assoc; reflexivity.
Qed.

Lemma apply_migration_skips (r : run D) (name : string) :
  MIGRATION_APPLIED name (db r) = true ->
  apply_migration r name
  = {| db := db r; migrations_applied := migrations_applied r;
       echoed := (echoed r ++ [(name, AlreadyApplied)])%list |}.
Proof.
  intros H. unfold Migrations.apply_migration. rewrite H. reflexivity.
Qed.

Lemma loop_all_recorded (files : list string) :
  forall r,
    (forall f, In f files -> MIGRATION_APPLIED f (db r) = true) ->
    db (fold_left apply_migration files r) = db r
    /\ migrations_applied (fold_left apply_migration files r) = migrations_applied r.
Proof.
  induction files as [|f files IH]; intros r H; simpl; [split; reflexivity|].
  rewrite (apply_migration_skips r f) by (apply H; now left).
  destruct (IH {| db := db r; migrations_applied := migrations_applied r;
                  echoed := (echoed r ++ [(f, AlreadyApplied)])%list |})
    as [H1 H2].
  - intros g Hg. simpl. apply H. now right.
  - split; assumption.
Qed.

Lemma run_migrations_fixpoint (dir : list string) (d : database D) :
  (forall f, In f (migration_files dir) -> MIGRATION_APPLIED f d = true) ->
  run_migrations dir d = d.
Proof.
  intros H. unfold Migrations.run_migrations, Migrations.apply_migrations,
    Migrations.migration_loop.
  now destruct (loop_all_recorded (migration_files dir)
                  {| db := d; migrations_applied := 0; echoed := [] |} H).
Qed.


End MigrationRunner.



Section MigrationOrder.

Import Migrations.
Local Open Scope string_scope.

Variable D : Type.
Variable psql_file : string -> database D -> bool * database D.

Lemma record_migration_unique (name : string) (d : database D) :
  unique_names d -> unique_names (record_migration D name d).
Proof.
  unfold unique_names, record_migration. intros H.
  destruct (existsb (String.eqb name) (schema_migrations d)) eqn:E; [exact H|].
  simpl. apply NoDup_app; [exact H|constructor; [intros []|constructor]|].
  intros x Hx [Hn|[]]. subst x.
  assert (existsb (String.eqb name) (schema_migrations d) = true) as T;
    [|rewrite T in E; discriminate].
  apply existsb_exists. exists name. split; [exact Hx|apply String.eqb_refl].
Qed.

Lemma record_migration_once (name : string) (d : database D) :
  unique_names d ->
  count_occ string_dec (schema_migrations (record_migration D name d)) name = 1.
Proof.
  intros H. pose proof (record_migration_unique name d H) as U.
  assert (I : In name (schema_migrations (record_migration D name d))).
  { unfold record_migration.
    destruct (existsb (String.eqb name) (schema_migrations d)) eqn:E.
    - apply existsb_exists in E. destruct E as (x & Hx & Ex).
      apply String.eqb_eq in Ex. now subst.
    - simpl. apply in_or_app. right. now left. }
  apply (count_occ_In string_dec) in I.
  pose proof (proj1 (NoDup_count_occ string_dec _) U name). lia.
Qed.

Lemma StronglySorted_sub {A B} (R : A -> A -> Prop) (g : B -> A) (keep : B -> bool)
    (l : list B) :
  StronglySorted R (map g l) -> StronglySorted R (map g (filter keep l)).
Proof.
  induction l as [|x l IH]; simpl; intros H; [constructor|].
  inversion H as [|? ? Hs Hf]; subst.
  destruct (keep x); simpl; [|now apply IH].
  constructor; [now apply IH|].
  rewrite Forall_forall in *. intros y Hy. apply Hf.
  apply in_map_iff in Hy. destruct Hy as (b & <- & Hb).
  apply in_map. apply filter_In in Hb. tauto.
Qed.

Lemma apply_migration_unique (r : run D) (name : string) :
  (forall f d, unique_names d -> unique_names (snd (psql_file f d))) ->
  unique_names (db r) -> unique_names (db (apply_migration D psql_file r name)).
Proof.
  intros Hp H. unfold apply_migration.
  destruct (negb _); [|exact H].
  specialize (Hp name (db r) H).
  destruct (psql_file name (db r)) as [[|] db']; simpl in *.
  - now apply record_migration_unique.
  - exact Hp.
Qed.

Lemma loop_unique (files : list string) :
  (forall f d, unique_names d -> unique_names (snd (psql_file f d))) ->
  forall r, unique_names (db r) ->
            unique_names (db (fold_left (apply_migration D psql_file) files r)).
Proof.
  intros Hp. induction files as [|f files IH]; intros r H; simpl; [exact H|].
  apply IH. now apply apply_migration_unique.
Qed.


End MigrationOrder.


(* ===================================================================== *)
(** ** Leasable proxies (the partial indexes) *)
(* ===================================================================== *)

Section Leasability.

Import ProxyIndexes.
Local Open Scope Z_scope.



End Leasability.

(* ===================================================================== *)
(** ** The filters migration *)
(* ===================================================================== *)

Section FiltersJsonb.

Import FiltersMigration.
Local Open Scope string_scope.

Variable J : Type.
Variable jsonb_in : string -> option J.
Variable jsonb_out : J -> string.

Abbreviation table := (FiltersMigration.table J).
Abbreviation database := (FiltersMigration.database J).

Lemma find_column_none (name : string) (t : table) :
  has_column J name t = false -> find_column J name t = None.
Proof.
  unfold has_column, find_column.
  induction (columns t) as [|c cs IH]; simpl; [reflexivity|].
  destruct (String.eqb (column_name c) name); simpl; [discriminate|exact IH].
Qed.

Lemma find_column_some (name : string) (t : table) :
  has_column J name t = true -> exists c, find_column J name t = Some c
                                          /\ column_name c = name.
Proof.
  unfold has_column, find_column.
  induction (columns t) as [|c cs IH]; simpl; [discriminate|].
  destruct (String.eqb (column_name c) name) eqn:E; simpl.
  - intros _. exists c. split; [reflexivity|now apply String.eqb_eq].
  - exact IH.
Qed.

Lemma without_column_gone (name : string) (t : table) :
  has_column J name (without_column name t) = false.
Proof.
  unfold has_column, without_column. simpl.
  induction (columns t) as [|c cs IH]; simpl; [reflexivity|].
  destruct (String.eqb (column_name c) name) eqn:E; simpl; [exact IH|].
  now rewrite E.
Qed.

Lemma without_column_absent (name other : string) (t : table) :
  has_column J other t = false ->
  has_column J other (without_column name t) = false.
Proof.
  unfold has_column, without_column. simpl.
  induction (columns t) as [|c cs IH]; simpl; [reflexivity|].
  destruct (String.eqb (column_name c) other) eqn:E; simpl; [discriminate|].
  intros H. destruct (negb (String.eqb (column_name c) name)); simpl; auto.
  rewrite E. simpl. apply IH. exact H.
Qed.

Lemma attempt_update_cast_missing (d : database) (t : table) target source :
  monitoring_tasks d = Some t -> has_column J target t = false ->
  attempt J (update_cast J jsonb_in jsonb_out target source) d = d.
Proof.
  intros Ht H. unfold attempt, update_cast, on_table.
  now rewrite Ht, (find_column_none _ _ H).
Qed.

Lemma attempt_rename_missing (d : database) (t : table) old new :
  monitoring_tasks d = Some t -> has_column J old t = false ->
  attempt J (rename_column J old new) d = d.
Proof.
  intros Ht H. unfold attempt, rename_column, on_table. now rewrite Ht, H.
Qed.

Lemma attempt_set_not_null_missing (d : database) (t : table) name :
  monitoring_tasks d = Some t -> has_column J name t = false ->
  attempt J (set_not_null J name) d = d.
Proof.
  intros Ht H. unfold attempt, set_not_null, on_table. now rewrite Ht, H.
Qed.

Lemma attempt_comment_missing (d : database) (t : table) name text :
  monitoring_tasks d = Some t -> has_column J name t = false ->
  attempt J (comment_on_column J name text) d = d.
Proof.
  intros Ht H. unfold attempt, comment_on_column, on_table. now rewrite Ht, H.
Qed.

Lemma attempt_create_index_missing (d : database) (t : table) b (i : index) :
  monitoring_tasks d = Some t -> has_column J (key_column (key i)) t = false ->
  attempt J (create_index J b i) d = d.
Proof.
  intros Ht H. unfold attempt, create_index, on_table.
  rewrite Ht, (find_column_none _ _ H).
  destruct (existsb _ (indexes d)); [destruct b|]; reflexivity.
Qed.

(** What the file does when psql runs it: of all its statements only
    [DROP COLUMN filters_json] takes effect.  The column and its data are
    removed, whatever its type, and nothing is put in its place. *)
Lemma psql_file_001_drops_filters_json (d : database) (t : table) :
  monitoring_tasks d = Some t ->
  has_column J "filters_json" t = true ->
  has_column J "filters_jsonb" t = false ->
  psql_file_001 J jsonb_in jsonb_out d
  = {| monitoring_tasks := Some (without_column "filters_json" t);
       indexes := filter (fun i => negb (String.eqb (key_column (key i)) "filters_json"))
                    (indexes d) |}
  /\ has_column J "filters_json" (without_column "filters_json" t) = false.
Proof.
  intros Ht Hc Hn. split; [|apply without_column_gone].
  pose proof (without_column_gone "filters_json" t) as G.
  pose proof (without_column_absent "filters_json" "filters_jsonb" t Hn) as G'.
  unfold psql_file_001, run_ignoring_errors, psql_statements.
  cbn [fold_left].
  change (attempt J (syntax_error J) d) with d.
  rewrite (attempt_update_cast_missing d t _ _ Ht Hn).
  assert (Ed : attempt J (drop_column J "filters_json") d
               = {| monitoring_tasks := Some (without_column "filters_json" t);
                    indexes := filter (fun i => negb (String.eqb (key_column (key i))
                                                        "filters_json"))
                                 (indexes d) |})
    by (unfold attempt, drop_column, on_table; now rewrite Ht, Hc).
  rewrite Ed.
  set (d1 := {| monitoring_tasks := Some (without_column "filters_json" t);
                indexes := _ |}).
  rewrite (attempt_rename_missing d1 _ _ _ eq_refl G').
  rewrite (attempt_set_not_null_missing d1 _ _ eq_refl G).
  rewrite (attempt_comment_missing d1 _ _ _ eq_refl G).
  rewrite (attempt_create_index_missing d1 _ false
             idx_monitoring_tasks_filters_gin eq_refl G).
  rewrite (attempt_create_index_missing d1 _ true
             idx_monitoring_tasks_max_price eq_refl G).
  rewrite (attempt_create_index_missing d1 _ true
             idx_monitoring_tasks_item_type eq_refl G).
  reflexivity.
Qed.

(** The block itself, had it been run as a [DO] statement, leaves a table
    whose column is already JSONB (or a database without the table) as it
    is. *)
Lemma do_block_already_jsonb (d : database) (t : table) (c : column) :
  monitoring_tasks d = Some t ->
  find_column J "filters_json" t = Some c ->
  column_type c = JSONB ->
  do_block J jsonb_in jsonb_out d = OK d.
Proof.
  intros Ht Hc Hty. unfold do_block. now rewrite Ht, Hc, Hty.
Qed.

Lemma do_block_without_table (d : database) :
  monitoring_tasks d = None -> do_block J jsonb_in jsonb_out d = OK d.
Proof.
  intros Ht. unfold do_block. now rewrite Ht.
Qed.

(** Run by psql, the file removes even a column that is JSONB already. *)
Lemma psql_file_001_not_guarded (d : database) (t : table) (c : column) :
  monitoring_tasks d = Some t ->
  find_column J "filters_json" t = Some c ->
  column_type c = JSONB ->
  has_column J "filters_jsonb" t = false ->
  psql_file_001 J jsonb_in jsonb_out d <> d.
Proof.
  intros Ht Hc Hty Hn.
  assert (H : has_column J "filters_json" t = true).
  { destruct (has_column J "filters_json" t) eqn:E; [reflexivity|].
    rewrite (find_column_none _ _ E) in Hc. discriminate. }
  destruct (psql_file_001_drops_filters_json d t Ht H Hn) as [E G].
  rewrite E. intros Ed. rewrite <- Ed in Ht. simpl in Ht.
  inversion Ht as [Et]. rewrite <- Et in H. rewrite G in H. discriminate.
Qed.

End FiltersJsonb.

(** C6 on the code: run by psql, the file leaves [monitoring_tasks]
    without its [filters_json] column (no JSONB column, no index), while
    its block run as the [DO] statement it was meant to be would have
    produced the JSONB NOT NULL column with the three indexes. *)
Theorem filters_migration_drops_column :
  FiltersMigration.psql_file_001 string sample_jsonb_in (fun doc => doc) sample_database
  = {| FiltersMigration.monitoring_tasks := Some
         {| FiltersMigration.columns :=
              [ {| FiltersMigration.column_name := "id";
                   FiltersMigration.column_type := FiltersMigration.OTHER "integer";
                   FiltersMigration.not_null := true;
                   FiltersMigration.comment := None |} ];
            FiltersMigration.rows :=
              [ [("id", FiltersMigration.Other "1")];
                [("id", FiltersMigration.Other "2")] ] |};
       FiltersMigration.indexes := [] |}%string
  /\ exists d',
       FiltersMigration.do_block string sample_jsonb_in (fun doc => doc) sample_database
       = FiltersMigration.OK d'
       /\ FiltersMigration.indexes d'
          = [ FiltersMigration.idx_monitoring_tasks_filters_gin;
              FiltersMigration.idx_monitoring_tasks_max_price;
              FiltersMigration.idx_monitoring_tasks_item_type ]
       /\ option_map (fun t => FiltersMigration.find_column string "filters_json" t)
            (FiltersMigration.monitoring_tasks d')
          = Some (Some
              {| FiltersMigration.column_name := "filters_json";
                 FiltersMigration.column_type := FiltersMigration.JSONB;
                 FiltersMigration.not_null := true;
                 FiltersMigration.comment := Some "JSONB с настройками фильтров" |})%string.
Proof.
  split; [vm_compute; reflexivity|].
  eexists. split; [vm_compute; reflexivity|]. split; reflexivity.
Qed.

(* ===================================================================== *)
(** * Further properties of the code *)
(* ===================================================================== *)

(* ===================================================================== *)
(** ** Runs of the batch queue (background.js) *)
(* ===================================================================== *)

(** The equation of the batch loop, proved with the retry schedule. *)
Abbreviation attemptBatchFetch_eq := attemptBatchFetch_unfold.

Section WorkerRuns.

Import Background.
Local Open Scope string_scope.
Local Open Scope nat_scope.

Variable J : Type.
Variable iteminfo : J -> option J.
Variable result_for : J -> string -> option J.
Variable error_of : J -> option string.
Variable net : nat -> fetch_outcome J.
Variable runtime_id : nat -> bool.

Abbreviation world := (Background.world J).
Abbreviation event := (Background.event J).
Abbreviation all_5xx := (Background.all_5xx net).
Abbreviation reachable :=
  (Background.reachable iteminfo result_for error_of net runtime_id).
Abbreviation processBatch :=
  (Background.processBatch J iteminfo result_for error_of net runtime_id).
Abbreviation attemptBatchFetch :=
  (Background.attemptBatchFetch J iteminfo result_for error_of net runtime_id).
Abbreviation attemptFetch := (Background.attemptFetch J iteminfo net).
Abbreviation fetchFloatDataSingle := (Background.fetchFloatDataSingle J iteminfo net).
Abbreviation leaving := (Background.leaving J runtime_id).

Lemma settled_app (es1 es2 : list event) :
  settled (es1 ++ es2) = (settled es1 ++ settled es2)%list.
Proof.
  induction es1 as [|e es1 IH]; simpl; [reflexivity|].
  destruct e; simpl; now rewrite ?IH.
Qed.

Lemma settled_retries (r : request) j :
  forall retryCount, @settled J (retries r retryCount j) = [].
Proof.
  induction j as [|j IH]; intros retryCount; simpl; [reflexivity|apply IH].
Qed.

Lemma settled_settle_items (results : J) (batch : list queue_item) :
  settled (map (settle_item J result_for error_of results) batch) = map promise batch.
Proof.
  induction batch as [|item rest IH]; simpl; [reflexivity|].
  unfold settle_item at 1.
  destruct (match_asset_id (link item)) as [a|]; simpl; [|now rewrite IH].
  destruct (result_for results a) as [fd|]; simpl; [|now rewrite IH].
  destruct (error_of fd); simpl; now rewrite IH.
Qed.

(** Every run of the single-request loop, whatever the API answers: [j]
    answers with a 5xx status are each followed by the next delay, and the
    loop ends with the first answer that is not a 5xx or with the attempt
    that uses up the retries. *)
Lemma attemptFetch_run inspectLink :
  forall retryCount (w : world),
  exists r j,
    j <= MAX_RETRIES - retryCount
    /\ all_5xx (fetches w) j
    /\ (forall status body,
          net (fetches w + j) = Response status body ->
          server_error status = true -> MAX_RETRIES <= retryCount + j)
    /\ attemptFetch inspectLink retryCount w
       = (r, advance w (S j)
               (retries (Single inspectLink) retryCount j
                  ++ [EvFetch (Single inspectLink)])).
Proof.
  intros retryCount w.
  remember (MAX_RETRIES - retryCount) as m eqn:Hm.
  revert retryCount w Hm.
  assert (Z5 : forall n, all_5xx n 0) by (intros n i Hi; lia).
  induction m as [|m IH]; intros retryCount w Hm;
    rewrite attemptFetch_equation_1; unfold bind at 1; rewrite fetch_run;
    destruct (net (fetches w)) as [status body|err] eqn:E.
  all: try (exists (inr err), 0; rewrite Nat.add_0_r;
            split; [lia|]; split; [apply Z5|]; split; [|reflexivity];
            intros st b E'; rewrite E in E'; discriminate).
  all: destruct (server_error status) eqn:S5.
  all: try (destruct (response_ok status); simpl;
            [destruct body as [data|]; simpl; unfold bind, json, ret, throw|unfold throw];
            eexists _, 0; rewrite Nat.add_0_r;
            (split; [lia|]); (split; [apply Z5|]); (split; [|reflexivity]);
            intros st b E'; rewrite E in E'; inversion E'; subst; congruence).
  - destruct (lt_dec retryCount MAX_RETRIES) as [L|_]; [lia|].
    unfold throw. eexists _, 0. rewrite Nat.add_0_r.
    split; [lia|]. split; [apply Z5|]. split; [|reflexivity].
    intros _ _ _ _. lia.
  - destruct (lt_dec retryCount MAX_RETRIES) as [L|N].
    + unfold bind, sleep. rewrite log_run, advance_advance.
      destruct (IH (S retryCount)
                  (advance w (1 + 0)
                     ([EvFetch (Single inspectLink)]
                        ++ [EvSleep (backoffDelay (S retryCount))]))
                  ltac:(lia)) as (r & j & Hj & H5 & Hlast & Erun).
      rewrite Erun, advance_advance. exists r, (S j).
      split; [lia|]. split; [|split].
      * intros i Hi. destruct i as [|i].
        -- exists status, body. rewrite Nat.add_0_r. split; assumption.
        -- destruct (H5 i ltac:(lia)) as (st & b & E5 & S5').
           exists st, b. split; [|exact S5'].
           rewrite <- E5. f_equal. unfold advance; simpl. lia.
      * intros st b E' Hs. 
        assert (MAX_RETRIES <= S retryCount + j); [|lia].
        apply (Hlast st b); [|exact Hs]. rewrite <- E'. f_equal.
        unfold advance; simpl. lia.
      * f_equal. 
    + unfold throw. eexists _, 0. rewrite Nat.add_0_r.
      split; [lia|]. split; [apply Z5|]. split; [|reflexivity].
      intros _ _ _ _. lia.
Qed.


Lemma settled_single_run inspectLink retryCount j :
  @settled J (retries (Single inspectLink) retryCount j
                ++ [EvFetch (Single inspectLink)]) = [].
Proof.
  now rewrite settled_app, settled_retries.
Qed.

(** The fallback loop settles the promise of every item of the batch, once
    and in order, with at most four requests per item. *)
Lemma fallback_individually_run (batch : list queue_item) :
  forall w : world,
  exists k es,
    fallback_individually J iteminfo net batch w = (inl tt, advance w k es)
    /\ k <= 4 * List.length batch
    /\ settled es = map promise batch.
Proof.
  induction batch as [|item rest IH]; intros w; simpl.
  - exists 0, []. unfold ret. rewrite advance_0_nil.
    split; [reflexivity|]. split; [simpl; lia|reflexivity].
  - unfold bind at 1, try_catch, bind, Background.fetchFloatDataSingle.
    destruct (attemptFetch_run (link item) 0 w) as (r & j & Hj & _ & _ & E).
    rewrite E. destruct r as [data|err]; rewrite log_run, advance_advance;
      match goal with
      | |- context [fallback_individually _ _ _ rest ?w'] =>
          destruct (IH w') as (k' & es' & E' & Hk & Hs)
      end;
      rewrite E', advance_advance; eexists _, _; (split; [reflexivity|]);
      (split; [unfold MAX_RETRIES in Hj; lia|]);
      rewrite !settled_app, settled_retries, Hs; reflexivity.
Qed.

Lemma batch_catch_run (batch : list queue_item) (error : js_error) (w : world) :
  exists k es,
    batch_catch J iteminfo net batch error w = (inl tt, advance w k es)
    /\ k <= 4 * List.length batch
    /\ settled es = map promise batch.
Proof.
  unfold batch_catch.
  destruct (string_includes (error_message error) "Extension context invalidated").
  - rewrite log_all_run. eexists _, _. split; [reflexivity|]. split; [lia|].
    induction batch as [|item rest IH]; simpl; [reflexivity|now rewrite IH].
  - apply fallback_individually_run.
Qed.

Lemma batch_catch_later (batch : list queue_item) (error : js_error)
    (w : world) (k : nat) (es : list event) (bound : nat) :
  settled es = [] ->
  k + 4 * List.length batch <= bound ->
  exists k' es',
    batch_catch J iteminfo net batch error (advance w k es) = (inl tt, advance w k' es')
    /\ k' <= bound
    /\ settled es' = map promise batch.
Proof.
  intros Hs Hb.
  destruct (batch_catch_run batch error (advance w k es)) as (k' & es' & E & Hk & S').
  rewrite E, advance_advance. eexists _, _. split; [reflexivity|].
  split; [lia|]. now rewrite settled_app, Hs, S'.
Qed.

(** The batch loop settles the promise of every item of its batch, once
    and in order, and makes at most four bulk requests and four single
    requests per item. *)
Lemma attemptBatchFetch_run (batch : list queue_item) :
  forall retryCount (w : world),
  exists k es,
    attemptBatchFetch batch retryCount w = (inl tt, advance w k es)
    /\ k <= S (MAX_RETRIES - retryCount) + 4 * List.length batch
    /\ settled es = map promise batch.
Proof.
  intros retryCount w.
  remember (MAX_RETRIES - retryCount) as m eqn:Hm.
  revert retryCount w Hm.
  induction m as [|m IH]; intros retryCount w Hm;
    rewrite attemptBatchFetch_eq; cbv zeta.
  all: destruct (runtime_id (fetches w));
    [|match goal with
      | |- context [batch_catch _ _ _ _ ?e ?w0] =>
          destruct (batch_catch_run batch e w0) as (k & es & E & Hk & Hs);
          exists k, es; split; [exact E|split; [lia|exact Hs]]
      end].
  all: destruct (net (fetches w)) as [status body|err];
    [|apply batch_catch_later; [reflexivity|lia]].
  all: destruct (server_error status);
    [|destruct (response_ok status);
      [destruct body as [results|];
       [eexists _, _; split; [reflexivity|]; split; [lia|]; simpl;
        apply settled_settle_items
       |apply batch_catch_later; [reflexivity|lia]]
      |apply batch_catch_later; [reflexivity|lia]]].
  - replace (retryCount <? MAX_RETRIES) with false
      by (symmetry; apply Nat.ltb_ge; lia).
    apply batch_catch_later; [reflexivity|lia].
  - destruct (retryCount <? MAX_RETRIES) eqn:L;
      [|apply batch_catch_later; [reflexivity|lia]].
    apply Nat.ltb_lt in L.
    destruct (IH (S retryCount)
                (advance w 1 [EvFetch (Bulk (map link batch));
                              EvSleep (backoffDelay (S retryCount))])
                ltac:(lia)) as (k & es & E & Hk & Hs).
    rewrite E, advance_advance. eexists _, _. split; [reflexivity|].
    split; [lia|]. rewrite settled_app, Hs. reflexivity.
Qed.

Lemma settled_rejects (message : string) (items : list queue_item) :
  @settled J (map (fun item => EvReject (promise item) message) items)
  = map promise items.
Proof.
  induction items as [|item rest IH]; simpl; [reflexivity|now rewrite IH].
Qed.


(** One call of [processBatch], in full. *)
Lemma processBatch_outcome (w : world) :
  exists w' k es,
    processBatch w = (inl tt, w')
    /\ trace w' = (trace w ++ es)%list
    /\ fetches w' = fetches w + k
    /\ k <= 4 + 4 * List.length (leaving w)
    /\ (runtime_id (fetches w) = false -> k = 0)
    /\ settled es = map promise (leaving w)
    /\ batchQueue w = (leaving w ++ batchQueue w')%list
    /\ next_timer w' = next_timer w
    /\ next_promise w' = next_promise w
    /\ (batchQueue w = [] -> w' = w)
    /\ (batchQueue w <> [] ->
        batchTimer w' = None
        /\ timers w' = match batchTimer w with
                       | Some handle => clearTimeout handle (timers w)
                       | None => timers w
                       end).
Proof.
  unfold Background.processBatch, Background.leaving.
  destruct (batchQueue w) as [|q0 qs] eqn:Q.
  - exists w, 0, []. simpl. unfold ret.
    rewrite app_nil_r, Nat.add_0_r. 
    destruct (runtime_id (fetches w)); simpl; repeat split; try lia; congruence.
  - cbn [List.length Nat.eqb].
    destruct (runtime_id (fetches w)) eqn:R; cbn [negb].
    + destruct (batchTimer w) as [handle|] eqn:T;
        match goal with
        | |- context [Background.attemptBatchFetch _ _ _ _ _ _ ?b 0 ?w0] =>
            destruct (attemptBatchFetch_run b 0 w0) as (k & es & E & Hk & Hs)
        end;
        rewrite E; eexists _, k, es; (split; [reflexivity|]); simpl.
      all: split; [reflexivity|].
      all: split; [reflexivity|].
      all: split; [unfold MAX_RETRIES in Hk; simpl in Hk; lia|].
      all: split; [discriminate|].
      all: split; [exact Hs|].
      all: split; [now rewrite <- (firstn_skipn BATCH_SIZE (q0 :: qs)) at 1|].
      all: repeat split; try discriminate.
    + exists (clearBatchQueue J w), 0,
        (map (fun item => EvReject (promise item) "Extension context invalidated")
           (q0 :: qs)).
      unfold ret, clearBatchQueue. rewrite Q. cbn [List.length Nat.ltb Nat.leb].
      destruct (batchTimer w) as [handle|] eqn:T; cbn [batchTimer]; rewrite ?T;
        cbn [trace fetches batchQueue next_timer next_promise batchTimer timers].
      all: rewrite settled_rejects, app_nil_r, Nat.add_0_r.
      all: repeat split; try lia; try discriminate.
Qed.


(** X4. Whatever the API answers, a single-link fetch is a run of [j + 1]
    attempts with [j <= 3], as many as there are 5xx answers in a row (at
    most three are retried), separated by the delays 1000, 2000, 4000 ms
    in that order; nothing else is sent and nothing is slept after the last
    attempt. *)
Theorem fetchFloatDataSingle_schedule_for_any_answers
    (inspectLink : string) (w : world) :
  exists r j,
    j <= MAX_RETRIES
    /\ all_5xx (fetches w) j
    /\ (forall status body,
          net (fetches w + j) = Response status body ->
          server_error status = true -> j = MAX_RETRIES)
    /\ fetchFloatDataSingle inspectLink w
       = (r, advance w (j + 1) (schedule (Single inspectLink) (firstn j backoff))).
Proof.
  destruct (attemptFetch_run inspectLink 0 w) as (r & j & Hj & H5 & Hlast & E).
  exists r, j. rewrite Nat.sub_0_r in Hj.
  split; [exact Hj|]. split; [exact H5|]. split.
  - intros status body En S5. specialize (Hlast status body En S5). lia.
  - unfold Background.fetchFloatDataSingle. rewrite E.
    rewrite retries_schedule by exact Hj. now rewrite Nat.add_1_r.
Qed.

(** X3. A call of [processBatch] settles the promise of every item it takes
    off the queue exactly once, in queue order, and settles no other
    promise; the call itself never throws.  The items taken are the first
    ten with the extension context alive, and the whole queue (all
    rejected) without it. *)
Theorem processBatch_settles_each_promise_once (w : world) :
  exists w' es,
    processBatch w = (inl tt, w')
    /\ trace w' = (trace w ++ es)%list
    /\ batchQueue w = (leaving w ++ batchQueue w')%list
    /\ settled es = map promise (leaving w).
Proof.
  destruct (processBatch_outcome w)
    as (w' & k & es & E & Et & _ & _ & _ & Hs & Hq & _).
  exists w', es. repeat split; assumption.
Qed.

(** X5. A call of [processBatch] makes at most four bulk requests and four
    single requests per item of its batch: 44 requests at most, and none
    at all once the extension context is gone. *)
Theorem processBatch_request_budget (w : world) :
  exists w',
    processBatch w = (inl tt, w')
    /\ fetches w <= fetches w'
    /\ fetches w' <= fetches w
                     + 4 * (1 + Nat.min BATCH_SIZE (List.length (batchQueue w)))
    /\ fetches w' <= fetches w + 44
    /\ (runtime_id (fetches w) = false -> fetches w' = fetches w).
Proof.
  destruct (processBatch_outcome w)
    as (w' & k & es & E & _ & Ef & Hk & H0 & _).
  exists w'. split; [exact E|]. rewrite Ef.
  assert (B : k <= 4 * (1 + Nat.min BATCH_SIZE (List.length (batchQueue w)))).
  { unfold Background.leaving in Hk.
    destruct (runtime_id (fetches w)).
    - rewrite length_firstn in Hk. lia.
    - rewrite H0 by reflexivity. lia. }
  split; [lia|]. split; [lia|]. split.
  - unfold BATCH_SIZE in B. lia.
  - intros R. rewrite (H0 R). lia.
Qed.

Lemma clearTimeout_nil handle : clearTimeout handle [] = [].
Proof. reflexivity. Qed.

Lemma clearTimeout_own handle delay : clearTimeout handle [(handle, delay)] = [].
Proof.
  unfold clearTimeout. simpl. now rewrite Nat.eqb_refl.
Qed.

Lemma leaving_all (w : world) :
  List.length (batchQueue w) <= BATCH_SIZE -> leaving w = batchQueue w.
Proof.
  intros H. unfold Background.leaving.
  destruct (runtime_id (fetches w)); [|reflexivity].
  now apply firstn_all2.
Qed.

Lemma pending_cleared (w : world) :
  at_rest w ->
  match batchTimer w with
  | Some handle => clearTimeout handle (timers w)
  | None => timers w
  end = [].
Proof.
  intros (_ & [T|(h & B & T)] & _).
  - rewrite T. now destruct (batchTimer w).
  - rewrite B, T. apply clearTimeout_own.
Qed.

(** A flush of a queue of at most ten links leaves nothing behind. *)
Lemma processBatch_flushes (w : world) :
  List.length (batchQueue w) <= BATCH_SIZE ->
  match batchTimer w with
  | Some handle => clearTimeout handle (timers w)
  | None => timers w
  end = [] ->
  timers w = [] ->
  exists w',
    processBatch w = (inl tt, w') /\ batchQueue w' = [] /\ timers w' = [].
Proof.
  intros Hl Hc Ht.
  destruct (processBatch_outcome w)
    as (w' & k & es & E & _ & _ & _ & _ & _ & Hq & _ & _ & He & Hn).
  exists w'. split; [exact E|].
  rewrite (leaving_all w Hl) in Hq.
  assert (Q' : batchQueue w' = []).
  { apply (app_inv_head (batchQueue w)). now rewrite app_nil_r, <- Hq. }
  split; [exact Q'|].
  destruct (batchQueue w) as [|q0 qs] eqn:Q.
  - now rewrite (He eq_refl).
  - destruct Hn as [_ Hn]; [discriminate|]. now rewrite Hn.
Qed.

Lemma reachable_at_rest (w : world) : reachable w -> at_rest w.
Proof.
  induction 1 as [|inspectLink w Hr IH|handle w Hr IH].
  - unfold at_rest, BATCH_SIZE. simpl. split; [lia|]. split; [now left|congruence].
  - pose proof (pending_cleared w IH) as Hc.
    destruct IH as (Hl & _ & _).
    unfold Background.addToBatchQueue. rewrite Hc.
    destruct (BATCH_SIZE <=? List.length (batchQueue w ++ [_])) eqn:Full.
    + match goal with
      | |- context [bind _ _ _ ?w0] =>
          destruct (processBatch_flushes w0) as (w' & E & Q' & T')
      end.
      * cbn [batchQueue]. rewrite length_app. simpl. unfold BATCH_SIZE in *. lia.
      * cbn [batchTimer timers]. now destruct (batchTimer w).
      * reflexivity.
      * unfold bind. rewrite E. cbn [snd ret]. unfold at_rest.
        rewrite Q', T'. unfold BATCH_SIZE. simpl.
        split; [lia|]. split; [now left|congruence].
    + apply Nat.leb_gt in Full. cbn [snd ret]. unfold at_rest.
      cbn [batchQueue batchTimer timers app].
      split; [exact Full|]. split; [|discriminate].
      right. exists (next_timer w). split; reflexivity.
  - unfold Background.fire_timer.
    destruct (existsb _ (timers w)) eqn:Ex; [|exact IH].
    destruct IH as (Hl & [T|(h & B & T)] & _).
    { rewrite T in Ex. discriminate. }
    rewrite T in Ex. cbn [existsb fst] in Ex. rewrite orb_false_r in Ex.
    apply Nat.eqb_eq in Ex. subst handle.
    match goal with
    | |- context [Background.processBatch _ _ _ _ _ _ ?w0] =>
        destruct (processBatch_flushes w0) as (w' & E & Q' & T')
    end.
    + cbn [batchQueue]. lia.
    + cbn [batchTimer timers]. rewrite B, T, clearTimeout_own. reflexivity.
    + cbn [timers]. rewrite T. apply clearTimeout_own.
    + rewrite E. cbn [snd]. unfold at_rest. rewrite Q', T'.
      unfold BATCH_SIZE. simpl. split; [lia|]. split; [now left|congruence].
Qed.

(** X2. Between two events at most one flush timer is pending: it is the one
    [batchTimer] refers to and it runs 100 ms; and whenever a link waits in
    the queue that timer is pending, so no link is left waiting without a
    flush to come. *)
Theorem flush_timer_invariant (w : world) :
  reachable w ->
  (timers w = []
   \/ exists handle, batchTimer w = Some handle
                     /\ timers w = [(handle, BATCH_DELAY)])
  /\ (batchQueue w <> [] -> timers w <> []).
Proof.
  intros Hr. now destruct (reachable_at_rest w Hr) as (_ & H1 & H2).
Qed.

(** X6. [fetchFloatData] never throws: its synchronous part hands back a cache
    entry or the promise, and after the promise is settled it returns data
    or [null], with at most four further requests. *)
Theorem fetchFloatData_absorbs_errors
    (cached : option (J * nat)) (Date_now : nat) (inspectLink : string)
    (outcome : option J + string) (w : world) :
  (exists s w',
     fetchFloatData J iteminfo result_for error_of net runtime_id
       cached Date_now inspectLink w = (inl s, w'))
  /\ exists r k es,
       fetchFloatData_resume J iteminfo net inspectLink outcome w
       = (inl r, advance w k es)
       /\ k <= 4.
Proof.
  split.
  - assert (Q : exists s w',
              bind J (addToBatchQueue J iteminfo result_for error_of net runtime_id
                        inspectLink)
                   (fun p => ret J (@Awaiting J p)) w = (inl s, w')).
    { unfold bind at 1, Background.addToBatchQueue.
      destruct (BATCH_SIZE <=? _).
      - match goal with
        | |- context [bind _ _ _ ?w0] =>
            destruct (processBatch_outcome w0) as (w' & k & es & E & _)
        end.
        unfold bind. rewrite E. unfold ret. eauto.
      - unfold ret. eauto. }
    unfold Background.fetchFloatData. cbv zeta.
    destruct cached as [[data timestamp]|]; [|exact Q].
    destruct (Date_now - timestamp <? 60000); [|exact Q].
    unfold ret. eauto.
  - destruct outcome as [data|message]; simpl.
    + exists data, 0, []. unfold ret. rewrite advance_0_nil. split; [reflexivity|lia].
    + destruct (string_includes message "Extension context invalidated").
      * exists None, 0, []. unfold ret. rewrite advance_0_nil. split; [reflexivity|lia].
      * unfold try_catch, Background.fetchFloatDataSingle.
        destruct (attemptFetch_run inspectLink 0 w) as (r & j & Hj & _ & _ & E).
        rewrite E. unfold MAX_RETRIES in Hj.
        destruct r as [data|err]; unfold ret; eexists _, _, _;
          (split; [reflexivity|lia]).
Qed.

(** X7. When the extension context is gone at the time a batch is attempted,
    every item of the batch is rejected with "Extension reloaded".  That
    message is not the one [fetchFloatData] looks for: the call waiting for
    such an item goes on to the single-link loop and sends between one and
    four requests, whereas after a rejection with "Extension context
    invalidated" (a cleared queue) it returns [null] and sends nothing. *)
Theorem cancelled_batch_is_fetched_again (batch : list queue_item) (w : world) :
  runtime_id (fetches w) = false ->
  let rejections :=
    map (fun item => @EvReject J (promise item) "Extension reloaded") batch in
  attemptBatchFetch batch 0 w = (inl tt, advance w 0 rejections)
  /\ (forall item, In item batch ->
        settlement (promise item) rejections = Some (inr "Extension reloaded"))
  /\ (forall inspectLink (w1 : world),
        exists r j,
          j <= MAX_RETRIES
          /\ fetchFloatData_resume J iteminfo net inspectLink
               (inr "Extension reloaded") w1
             = (inl r, advance w1 (j + 1)
                         (schedule (Single inspectLink) (firstn j backoff))))
  /\ (forall inspectLink (w1 : world),
        fetchFloatData_resume J iteminfo net inspectLink
          (inr "Extension context invalidated") w1
        = (inl None, w1)).
Proof.
  intros R rejections. split; [|split; [|split]].
  - rewrite attemptBatchFetch_eq. cbv zeta. rewrite R.
    unfold batch_catch. 
    change (string_includes (error_message (Error "Extension context invalidated"))
              "Extension context invalidated") with true.
    cbv iota. apply log_all_run.
  - intros item Hin. unfold rejections.
    induction batch as [|item0 rest IH]; [destruct Hin|].
    simpl. destruct (promise item0 =? promise item) eqn:Ep; [reflexivity|].
    destruct Hin as [->|Hin]; [now rewrite Nat.eqb_refl in Ep|].
    apply IH. exact Hin.
  - intros inspectLink w1.
    unfold Background.fetchFloatData_resume.
    change (string_includes "Extension reloaded" "Extension context invalidated")
      with false. cbv iota.
    unfold try_catch, Background.fetchFloatDataSingle.
    destruct (attemptFetch_run inspectLink 0 w1) as (r & j & Hj & _ & _ & E).
    rewrite E. rewrite Nat.sub_0_r in Hj.
    destruct r as [data|err]; unfold ret; eexists _, j; (split; [exact Hj|]);
      rewrite Nat.add_1_r, <- retries_schedule by exact Hj; reflexivity.
  - intros inspectLink w1. reflexivity.
Qed.

End WorkerRuns.

(** One link queued on a freshly loaded worker: it waits with its timer. *)
Lemma queue_below_batch_size_witness :
  List.length
    (Background.batchQueue
       (snd (Background.addToBatchQueue nat (fun data => Some data)
               (fun _ _ => None) (fun _ => None)
               (fun _ => Background.Response 503 None) (fun _ => true)
               "L" Background.initial_world)))
  < Background.BATCH_SIZE.
Proof.
  apply (queue_below_batch_size nat (fun data => Some data)
           (fun _ _ => None) (fun _ => None)
           (fun _ => Background.Response 503 None) (fun _ => true)).
  apply Background.reach_add. apply Background.reach_init.
Defined.

Lemma flush_timer_invariant_witness :
  let w := snd (Background.addToBatchQueue nat (fun data => Some data)
                  (fun _ _ => None) (fun _ => None)
                  (fun _ => Background.Response 503 None) (fun _ => true)
                  "L" Background.initial_world) in
  (Background.timers w = []
   \/ exists handle, Background.batchTimer w = Some handle
                     /\ Background.timers w = [(handle, Background.BATCH_DELAY)])
  /\ (Background.batchQueue w <> [] -> Background.timers w <> []).
Proof.
  apply (flush_timer_invariant nat (fun data => Some data)
           (fun _ _ => None) (fun _ => None)
           (fun _ => Background.Response 503 None) (fun _ => true)).
  apply Background.reach_add. apply Background.reach_init.
Defined.

(** A batch of one link attempted after the extension context has gone. *)
Lemma cancelled_batch_is_fetched_again_witness :
  Background.attemptBatchFetch nat (fun data => Some data)
    (fun _ _ => None) (fun _ => None)
    (fun _ => Background.Response 503 None) (fun _ => false)
    [{| Background.link := "L"; Background.promise := 0 |}] 0
    Background.initial_world
  = (inl tt,
     Background.advance Background.initial_world 0
       [Background.EvReject 0 "Extension reloaded"]).
Proof.
  refine (proj1 (cancelled_batch_is_fetched_again nat (fun data => Some data)
                   (fun _ _ => None) (fun _ => None)
                   (fun _ => Background.Response 503 None) (fun _ => false)
                   [{| Background.link := "L"; Background.promise := 0 |}]
                   Background.initial_world _)).
  reflexivity.
Defined.

(* ===================================================================== *)
(** ** Asset ids of inspect links (background.js) *)
(* ===================================================================== *)

Section AssetIds.

Import Background.
Local Open Scope string_scope.
Local Open Scope nat_scope.

Lemma span_digits_split (s : string) :
  forall ds tl, span_digits s = (ds, tl) -> s = ds ++ tl /\ all_digits ds = true.
Proof.
  induction s as [|c s IH]; intros ds tl E; simpl in E.
  - inversion E. split; reflexivity.
  - destruct (is_digit c) eqn:Dc.
    + destruct (span_digits s) as [ds' tl'] eqn:Es. inversion E; subst.
      destruct (IH ds' tl eq_refl) as [-> Hd]. simpl. rewrite Dc, Hd. split; reflexivity.
    + inversion E; subst. split; reflexivity.
Qed.

Lemma span_digits_run (id : string) (c : ascii) (post : string) :
  all_digits id = true -> is_digit c = false ->
  span_digits (id ++ String c post) = (id, String c post).
Proof.
  intros Hd Hc. induction id as [|d id IH]; simpl in *.
  - now rewrite Hc.
  - apply andb_true_iff in Hd. destruct Hd as [Hd1 Hd2].
    rewrite Hd1, (IH Hd2). reflexivity.
Qed.

Lemma match_asset_id_sound (link : string) :
  forall id, match_asset_id link = Some id ->
    id <> "" /\ all_digits id = true
    /\ exists pre post, link = pre ++ "A" ++ id ++ "D" ++ post.
Proof.
  induction link as [|c rest IH]; intros id E; simpl in E; [discriminate|].
  assert (R : match_asset_id rest = Some id ->
              id <> "" /\ all_digits id = true
              /\ exists pre post, String c rest = pre ++ "A" ++ id ++ "D" ++ post).
  { intros E'. destruct (IH id E') as (N & Hd & pre & post & ->).
    split; [exact N|]. split; [exact Hd|]. exists (String c pre), post. reflexivity. }
  destruct (Ascii.eqb c "A") eqn:Ec; [|exact (R E)].
  apply Ascii.eqb_eq in Ec. subst c.
  destruct (span_digits rest) as [ds tl] eqn:Es.
  destruct ds as [|d ds]; [exact (R E)|].
  destruct tl as [|e tl]; [exact (R E)|].
  destruct (Ascii.eqb e "D") eqn:Ee; [|exact (R E)].
  apply Ascii.eqb_eq in Ee. subst e. inversion E; subst id.
  destruct (span_digits_split rest _ _ Es) as [-> Hd].
  split; [discriminate|]. split; [exact Hd|]. exists "", tl. reflexivity.
Qed.

Lemma match_asset_id_complete (pre id post : string) :
  id <> "" -> all_digits id = true ->
  exists id', match_asset_id (pre ++ "A" ++ id ++ "D" ++ post) = Some id'.
Proof.
  intros N Hd.
  assert (Here : match_asset_id ("A" ++ id ++ "D" ++ post) = Some id).
  { simpl. change (id ++ String "D" post) with (id ++ String "D" post).
    rewrite (span_digits_run id "D" post Hd eq_refl).
    destruct id as [|d ds]; [congruence|]. reflexivity. }
  induction pre as [|c pre IH]; [eauto|].
  destruct IH as (id' & E).
  change (String c pre ++ "A" ++ id ++ "D" ++ post)
    with (String c (pre ++ "A" ++ id ++ "D" ++ post)).
  cbn [match_asset_id]. rewrite E.
  destruct (Ascii.eqb c "A"); [|eauto].
  destruct (span_digits _) as [[|d ds] [|e tl]]; eauto.
  destruct (Ascii.eqb e "D"); eauto.
Qed.

Lemma match_asset_id_leftmost (pre id post : string) :
  string_includes pre "A" = false ->
  id <> "" -> all_digits id = true ->
  match_asset_id (pre ++ "A" ++ id ++ "D" ++ post) = Some id.
Proof.
  intros NA N Hd.
  assert (Here : match_asset_id ("A" ++ id ++ "D" ++ post) = Some id).
  { simpl. rewrite (span_digits_run id "D" post Hd eq_refl).
    destruct id as [|d ds]; [congruence|]. reflexivity. }
  induction pre as [|c pre IH]; [exact Here|].
  change (String c pre ++ "A" ++ id ++ "D" ++ post)
    with (String c (pre ++ "A" ++ id ++ "D" ++ post)).
  cbn [match_asset_id].
  unfold string_includes in NA. cbn [index prefix] in NA.
  destruct (ascii_dec "A" c) as [Eq|Nc].
  - destruct pre; discriminate NA.
  - replace (Ascii.eqb c "A") with false
      by (symmetry; apply Ascii.eqb_neq; congruence).
    apply IH. unfold string_includes.
    destruct (index 0 "A" pre); [discriminate|reflexivity].
Qed.

(** X8. The asset id that [settle_item] reads off an inspect link with
    [/A(\d+)D/].  A result is a non-empty run of digits that stands in the
    link between an [A] and a [D]; there is no result exactly when the link
    has no such place (the item is then rejected with "Invalid inspect link
    format"); and the id after the first [A] of the link is the one
    found. *)
Theorem match_asset_id_characterised (link : string) :
  (forall id,
      match_asset_id link = Some id ->
      id <> "" /\ all_digits id = true
      /\ exists pre post, link = pre ++ "A" ++ id ++ "D" ++ post)
  /\ (match_asset_id link = None
      <-> ~ exists pre id post,
              id <> "" /\ all_digits id = true
              /\ link = pre ++ "A" ++ id ++ "D" ++ post)
  /\ (forall pre id post,
        string_includes pre "A" = false ->
        id <> "" -> all_digits id = true ->
        link = pre ++ "A" ++ id ++ "D" ++ post ->
        match_asset_id link = Some id).
Proof.
  split; [exact (match_asset_id_sound link)|]. split.
  - split.
    + intros E (pre & id & post & N & Hd & ->).
      destruct (match_asset_id_complete pre id post N Hd) as (id' & E').
      congruence.
    + intros H. destruct (match_asset_id link) as [id|] eqn:E; [|reflexivity].
      exfalso. apply H.
      destruct (match_asset_id_sound link id E) as (N & Hd & pre & post & El).
      exists pre, id, post. auto.
  - intros pre id post NA N Hd ->. now apply match_asset_id_leftmost.
Qed.

End AssetIds.

(* ===================================================================== *)
(** ** The alert store and the hourly cleanup (background.js) *)
(* ===================================================================== *)

Section AlertStore.

Import Background.
Local Open Scope string_scope.
Local Open Scope nat_scope.

Lemma unique_key {A} (l : list (string * A)) (e e' : string * A) :
  NoDup (map fst l) -> In e l -> In e' l -> fst e = fst e' -> e = e'.
Proof.
  induction l as [|x l IH]; simpl; intros N H H' K; [contradiction|].
  inversion N as [|? ? Hx Nl]; subst.
  destruct H as [<-|H], H' as [<-|H']; auto.
  - exfalso. apply Hx. rewrite K. now apply in_map.
  - exfalso. apply Hx. rewrite <- K. now apply in_map.
Qed.

Lemma mark_triggered_absent alertId at_ (l : list (string * price_alert)) :
  ~ In alertId (map fst l) -> mark_triggered alertId at_ l = l.
Proof.
  induction l as [|[k a] l IH]; simpl; intros N; [reflexivity|].
  destruct (String.eqb k alertId) eqn:E.
  - apply String.eqb_eq in E. exfalso. apply N. now left.
  - rewrite IH; [reflexivity|]. intros H. apply N. now right.
Qed.

Lemma mark_triggered_app alertId at_ (l1 l2 : list (string * price_alert)) :
  ~ In alertId (map fst l1) ->
  mark_triggered alertId at_ (l1 ++ l2) = (l1 ++ mark_triggered alertId at_ l2)%list.
Proof.
  induction l1 as [|[k a] l1 IH]; simpl; intros N; [reflexivity|].
  destruct (String.eqb k alertId) eqn:E.
  - apply String.eqb_eq in E. exfalso. apply N. now left.
  - rewrite IH; [reflexivity|]. intros H. apply N. now right.
Qed.

Lemma checked_key item currentPrice at_ (l : list (string * price_alert)) :
  map fst (map (checked item currentPrice at_) l) = map fst l.
Proof.
  rewrite map_map. apply map_ext. intros e. unfold checked.
  now destruct (fires item currentPrice e).
Qed.

Lemma check_entry_step item currentPrice (st : alert_state) k a :
  check_entry item currentPrice (priceAlerts st, st) (k, a)
  = match shouldAlert a item currentPrice with
    | Some m =>
        let st1 :=
          {| priceAlerts := mark_triggered k (now st) (priceAlerts st);
             notifications :=
               (notifications st ++
                  [{| notified_item := item; move := m;
                      notified_price := currentPrice;
                      notified_target := targetPrice a |}])%list;
             now := now st |} in
        (priceAlerts st1, st1)
    | None => (priceAlerts st, st)
    end.
Proof.
  unfold check_entry. now destruct (shouldAlert a item currentPrice).
Qed.

Lemma check_entries_run item currentPrice (todo : list (string * price_alert)) :
  forall (done : list (string * price_alert)) (st : alert_state),
    NoDup (map fst (done ++ todo)) ->
    priceAlerts st = (map (checked item currentPrice (now st)) done ++ todo)%list ->
    let r := snd (fold_left (check_entry item currentPrice) todo (priceAlerts st, st)) in
    priceAlerts r = map (checked item currentPrice (now st)) (done ++ todo)
    /\ notifications r
       = (notifications st ++ flat_map (notified item currentPrice) todo)%list
    /\ now r = now st.
Proof.
  induction todo as [|[k a] todo IH]; intros done st N E; cbv zeta.
  - simpl. rewrite !app_nil_r in *. auto.
  - cbn [fold_left]. rewrite check_entry_step.
    assert (Hk : ~ In k (map fst (map (checked item currentPrice (now st)) done))).
    { rewrite checked_key. rewrite map_app in N. apply NoDup_remove_2 in N.
      intros H. apply N. apply in_or_app. now left. }
    assert (N' : NoDup (map fst ((done ++ [(k, a)]) ++ todo)))
      by now rewrite <- app_assoc.
    unfold notified at 1. cbn [flat_map snd].
    destruct (shouldAlert a item currentPrice) as [m|] eqn:Sa; cbv zeta.
    + match goal with
      | |- context [fold_left _ todo (priceAlerts ?s, ?s)] => set (st1 := s)
      end.
      destruct (IH (done ++ [(k, a)])%list st1 N') as (H1 & H2 & H3).
      * unfold st1. cbn [priceAlerts now].
        rewrite E, mark_triggered_app by exact Hk.
        cbn [mark_triggered]. rewrite String.eqb_refl.
        rewrite map_app. cbn [map]. unfold checked at 3, fires. cbn [snd fst].
        rewrite Sa, <- app_assoc. reflexivity.
      * rewrite <- app_assoc in H1. split; [exact H1|]. split; [|exact H3].
        rewrite H2. unfold st1. cbn [notifications]. now rewrite <- app_assoc.
    + destruct (IH (done ++ [(k, a)])%list st N') as (H1 & H2 & H3).
      * rewrite E, map_app. cbn [map]. unfold checked at 3, fires. cbn [snd].
        rewrite Sa, <- app_assoc. reflexivity.
      * rewrite <- app_assoc in H1. auto.
Qed.

(** X10. What [checkPriceAlerts] does in full.  Every alert on the item whose
    condition holds is written back with [triggered = true] and
    [triggeredAt] set to the time of the call, whether or not it was
    marked before; every other alert, and the key and the three fields of
    each alert that the condition reads, stay as they are; and one
    notification per such alert is created, in the order of the keys. *)
Theorem checkPriceAlerts_effect (item : string) (currentPrice : float)
    (st : alert_state) :
  NoDup (map fst (priceAlerts st)) ->
  let st' := checkPriceAlerts item currentPrice st in
  priceAlerts st' = map (checked item currentPrice (now st)) (priceAlerts st)
  /\ notifications st'
     = (notifications st ++ flat_map (notified item currentPrice) (priceAlerts st))%list
  /\ now st' = now st.
Proof.
  intros N. exact (check_entries_run item currentPrice (priceAlerts st) [] st N eq_refl).
Qed.

Lemma fold_delete (ids : list string) :
  forall alerts : list (string * price_alert),
    fold_left (fun alerts alertId => delete alertId alerts) ids alerts
    = filter (fun kv => negb (existsb (String.eqb (fst kv)) ids)) alerts.
Proof.
  induction ids as [|id ids IH]; intros alerts; simpl.
  - induction alerts as [|x l IHl]; simpl; [reflexivity|now rewrite <- IHl].
  - rewrite IH. unfold delete.
    induction alerts as [|x l IHl]; simpl; [reflexivity|].
    destruct (String.eqb (fst x) id); simpl; [exact IHl|].
    destruct (existsb (String.eqb (fst x)) ids); simpl; [exact IHl|now rewrite IHl].
Qed.

Lemma selected_keys {A} (P : string * A -> bool) (l : list (string * A)) (e : string * A) :
  NoDup (map fst l) -> In e l ->
  existsb (String.eqb (fst e)) (map fst (filter P l)) = P e.
Proof.
  intros N He. destruct (P e) eqn:Pe.
  - apply existsb_exists. exists (fst e). split; [|apply String.eqb_refl].
    apply in_map. apply filter_In. split; assumption.
  - apply not_true_is_false. intros H. apply existsb_exists in H.
    destruct H as (k & Hk & Ek). apply String.eqb_eq in Ek. subst k.
    apply in_map_iff in Hk. destruct Hk as (e' & K & He').
    apply filter_In in He'. destruct He' as [He' Pe'].
    assert (e' = e) by (eapply unique_key; eauto). subst e'. congruence.
Qed.

Lemma remove_selected {A} (P : string * A -> bool) (l : list (string * A)) :
  NoDup (map fst l) ->
  filter (fun kv => negb (existsb (String.eqb (fst kv)) (map fst (filter P l)))) l
  = filter (fun kv => negb (P kv)) l.
Proof.
  intros N. apply filter_ext_in. intros e He. now rewrite selected_keys.
Qed.

Lemma nothing_selected {A} (P : string * A -> bool) (l : list (string * A)) :
  (0 <? List.length (map fst (filter P l))) = false ->
  filter (fun kv => negb (P kv)) l = l.
Proof.
  intros H. apply Nat.ltb_ge in H. rewrite length_map in H.
  assert (E : filter P l = []) by (destruct (filter P l); [reflexivity|simpl in H; lia]).
  apply forallb_filter_id. apply forallb_forall. intros e He.
  destruct (P e) eqn:Pe; [|reflexivity].
  assert (In e (filter P l)) by (apply filter_In; auto). rewrite E in H0. contradiction.
Qed.

Lemma dataCleanup_alerts (Date_now : nat) (data : storage) :
  NoDup (map fst (stored_alerts data)) ->
  stored_alerts (dataCleanup Date_now data)
  = filter (fun kv => negb (stale Date_now (snd kv))) (stored_alerts data).
Proof.
  intros Na. unfold dataCleanup. cbv zeta. cbn [stored_alerts].
  destruct (0 <? _) eqn:L.
  - rewrite fold_delete. now apply remove_selected.
  - symmetry. now apply nothing_selected.
Qed.

Lemma dataCleanup_histories (Date_now : nat) (data : storage) :
  NoDup (map fst (histories data)) ->
  histories (dataCleanup Date_now data)
  = filter (fun kv => negb (outdated (Date_now - 7 * 24 * 60 * 60 * 1000) (snd kv)))
      (histories data).
Proof.
  intros Nh. unfold dataCleanup. cbv zeta. cbn [histories].
  destruct (0 <? _) eqn:L.
  - unfold remove_keys. now apply remove_selected.
  - symmetry. now apply nothing_selected.
Qed.

(** X11. The hourly cleanup removes exactly the history records that were last
    updated more than seven days ago and the alerts that are marked as
    triggered and were triggered more than 24 hours ago; everything else
    stays, in its order.  In particular an alert that has not fired is
    never removed. *)
Theorem dataCleanup_removes_exactly_the_old (Date_now : nat) (data : storage) :
  NoDup (map fst (histories data)) ->
  NoDup (map fst (stored_alerts data)) ->
  dataCleanup Date_now data
  = {| histories :=
         filter (fun kv => negb (outdated (Date_now - 7 * 24 * 60 * 60 * 1000) (snd kv)))
           (histories data);
       stored_alerts :=
         filter (fun kv => negb (stale Date_now (snd kv))) (stored_alerts data) |}
  /\ (forall id alert,
        In (id, alert) (stored_alerts data) -> triggered alert = false ->
        In (id, alert) (stored_alerts (dataCleanup Date_now data))).
Proof.
  intros Nh Na.
  pose proof (dataCleanup_alerts Date_now data Na) as Ea.
  pose proof (dataCleanup_histories Date_now data Nh) as Eh.
  split.
  - destruct (dataCleanup Date_now data) as [hs al]. cbn [histories stored_alerts] in *.
    now subst.
  - intros id alert Hin Ht. rewrite Ea.
    apply filter_In. split; [exact Hin|]. unfold stale. cbn [snd]. now rewrite Ht.
Qed.

(** X12. From firing to removal.  An alert that fires in a call of
    [checkPriceAlerts] is stored with the time of that call, and a cleanup
    that runs at [Date_now] keeps it exactly as long as no more than 24
    hours have passed since then; every new firing restarts that day. *)
Theorem fired_alert_is_kept_for_a_day (item : string) (currentPrice : float)
    (st : alert_state) (id : string) (alert : price_alert)
    (Date_now : nat) (hs : list (string * item_data)) :
  NoDup (map fst (priceAlerts st)) ->
  In (id, alert) (priceAlerts st) ->
  fires item currentPrice (id, alert) = true ->
  let st' := checkPriceAlerts item currentPrice st in
  let data := dataCleanup Date_now {| histories := hs; stored_alerts := priceAlerts st' |} in
  In (checked item currentPrice (now st) (id, alert)) (priceAlerts st')
  /\ (In id (map fst (stored_alerts data))
      <-> Date_now <= now st + 24 * 60 * 60 * 1000).
Proof.
  intros N Hin Hf st' data.
  destruct (check_entries_run item currentPrice (priceAlerts st) [] st N eq_refl)
    as (Ea & _ & _).
  cbv zeta in Ea. fold (checkPriceAlerts item currentPrice st) in Ea. fold st' in Ea.
  cbn [app] in Ea.
  assert (N' : NoDup (map fst (priceAlerts st'))) by (now rewrite Ea, checked_key).
  assert (Hin' : In (checked item currentPrice (now st) (id, alert)) (priceAlerts st'))
    by (rewrite Ea; now apply in_map).
  split; [exact Hin'|].
  unfold data. rewrite dataCleanup_alerts by exact N'. cbn [stored_alerts].
  remember (24 * 60 * 60 * 1000) as day eqn:Hday.
  assert (St : stale Date_now (snd (checked item currentPrice (now st) (id, alert)))
               = (now st <? Date_now - day)).
  { unfold checked. rewrite Hf. unfold stale. cbn [snd triggered triggeredAt andb].
    now rewrite Hday. }
  assert (K : fst (checked item currentPrice (now st) (id, alert)) = id)
    by (unfold checked; now rewrite Hf).
  split.
  - intros Hk. apply in_map_iff in Hk. destruct Hk as (e & Ke & He).
    apply filter_In in He. destruct He as [He Hs].
    assert (e = checked item currentPrice (now st) (id, alert)).
    { apply (unique_key (priceAlerts st')); auto. now rewrite K. }
    subst e. rewrite St in Hs. apply negb_true_iff, Nat.ltb_ge in Hs. lia.
  - intros Hd. apply in_map_iff.
    exists (checked item currentPrice (now st) (id, alert)). split; [exact K|].
    apply filter_In. split; [exact Hin'|]. rewrite St.
    apply negb_true_iff, Nat.ltb_ge. lia.
Qed.

End AlertStore.

Lemma checkPriceAlerts_effect_witness :
  let st' := Background.checkPriceAlerts "AK-47 | Redline" 50%float sample_alert_state in
  Background.priceAlerts st'
  = map (Background.checked "AK-47 | Redline" 50%float
           (Background.now sample_alert_state))
        (Background.priceAlerts sample_alert_state)
  /\ Background.notifications st'
     = (Background.notifications sample_alert_state
        ++ flat_map (Background.notified "AK-47 | Redline" 50%float)
             (Background.priceAlerts sample_alert_state))%list
  /\ Background.now st' = Background.now sample_alert_state.
Proof.
  apply (checkPriceAlerts_effect "AK-47 | Redline" 50%float sample_alert_state).
  constructor; [intros []|constructor].
Defined.

(** A cleanup over the sample alert, which has not fired. *)
Lemma dataCleanup_removes_exactly_the_old_witness :
  Background.stored_alerts
    (Background.dataCleanup 5
       {| Background.histories := [];
          Background.stored_alerts := Background.priceAlerts sample_alert_state |})
  = Background.priceAlerts sample_alert_state.
Proof.
  refine (f_equal Background.stored_alerts
            (proj1 (dataCleanup_removes_exactly_the_old 5
                      {| Background.histories := [];
                         Background.stored_alerts :=
                           Background.priceAlerts sample_alert_state |} _ _))).
  - constructor.
  - constructor; [intros []|constructor].
Defined.

Lemma fired_alert_is_kept_for_a_day_witness :
  let st' := Background.checkPriceAlerts "AK-47 | Redline" 50%float sample_alert_state in
  let data :=
    Background.dataCleanup 5
      {| Background.histories := []; Background.stored_alerts := Background.priceAlerts st' |} in
  In (Background.checked "AK-47 | Redline" 50%float (Background.now sample_alert_state)
        ("alert_AK-47 | Redline_1"%string, sample_alert))
     (Background.priceAlerts st')
  /\ (In "alert_AK-47 | Redline_1"%string (map fst (Background.stored_alerts data))
      <-> 5 <= Background.now sample_alert_state + 24 * 60 * 60 * 1000).
Proof.
  apply (fired_alert_is_kept_for_a_day "AK-47 | Redline" 50%float sample_alert_state
           "alert_AK-47 | Redline_1" sample_alert 5 []).
  - constructor; [intros []|constructor].
  - left. reflexivity.
  - reflexivity.
Defined.

Section DistinctIds.

Import Background.
Local Open Scope string_scope.
Local Open Scope nat_scope.

Lemma keys_of_filter {A} (f : string * A -> bool) (l : list (string * A)) :
  NoDup (map fst l) -> NoDup (map fst (filter f l)).
Proof.
  induction l as [|x l IH]; simpl; intros N; [constructor|].
  inversion N as [|? ? Hx Nl]; subst.
  destruct (f x); simpl; [|now apply IH].
  constructor; [|now apply IH].
  intros H. apply Hx. apply in_map_iff in H. destruct H as (e & Ke & He).
  apply filter_In in He. rewrite <- Ke. apply in_map. tauto.
Qed.

Lemma keys_of_assign id alertData (alerts : list (string * price_alert)) :
  map fst (assign id alertData alerts)
  = if existsb (String.eqb id) (map fst alerts) then map fst alerts
    else (map fst alerts ++ [id])%list.
Proof.
  induction alerts as [|[k a] rest IH]; simpl; [reflexivity|].
  rewrite (String.eqb_sym id k).
  destruct (String.eqb k id) eqn:E; simpl; [reflexivity|].
  rewrite IH. now destruct (existsb (String.eqb id) (map fst rest)).
Qed.

Lemma lookup_assign id alertData (alerts : list (string * price_alert)) :
  lookup id (assign id alertData alerts) = Some alertData.
Proof.
  unfold lookup. induction alerts as [|[k a] rest IH]; simpl.
  - now rewrite String.eqb_refl.
  - destruct (String.eqb k id) eqn:E; simpl; rewrite E; [reflexivity|exact IH].
Qed.

Lemma lookup_delete id (alerts : list (string * price_alert)) :
  lookup id (delete id alerts) = None.
Proof.
  unfold lookup, delete. induction alerts as [|[k a] rest IH]; simpl; [reflexivity|].
  destruct (String.eqb k id) eqn:E; simpl; [exact IH|]. now rewrite E.
Qed.

(** X24. The ids of the stored alerts stay distinct under every handler
    that writes [priceAlerts]: saving an alert (which replaces the alert
    stored under its id, or adds it last), deleting one, checking prices
    and the hourly cleanup.  After [saveAlert] the id holds the saved
    alert, after [deleteAlert] it holds none, and deleting a newly saved
    alert gives back the store as it was. *)
Theorem alert_ids_stay_distinct (st : alert_state) (id : string)
    (alertData : price_alert) (item : string) (currentPrice : float)
    (Date_now : nat) (hs : list (string * item_data)) :
  NoDup (map fst (priceAlerts st)) ->
  NoDup (map fst (priceAlerts (saveAlert id alertData st)))
  /\ NoDup (map fst (priceAlerts (deleteAlert id st)))
  /\ NoDup (map fst (priceAlerts (checkPriceAlerts item currentPrice st)))
  /\ NoDup (map fst (stored_alerts
                       (dataCleanup Date_now
                          {| histories := hs; stored_alerts := priceAlerts st |})))
  /\ lookup id (priceAlerts (saveAlert id alertData st)) = Some alertData
  /\ lookup id (priceAlerts (deleteAlert id st)) = None
  /\ (~ In id (map fst (priceAlerts st)) ->
      deleteAlert id (saveAlert id alertData st) = st).
Proof.
  intros N. split; [|split; [|split; [|split; [|split; [|split]]]]].
  - cbn [saveAlert priceAlerts]. rewrite keys_of_assign.
    destruct (existsb (String.eqb id) (map fst (priceAlerts st))) eqn:E; [exact N|].
    apply NoDup_app; [exact N|constructor; [intros []|constructor]|].
    intros x Hx [<-|[]].
    assert (T : existsb (String.eqb id) (map fst (priceAlerts st)) = true);
      [|rewrite T in E; discriminate].
    apply existsb_exists. exists id. split; [exact Hx|apply String.eqb_refl].
  - cbn [deleteAlert priceAlerts]. now apply keys_of_filter.
  - destruct (check_entries_run item currentPrice (priceAlerts st) [] st N eq_refl)
      as (Ea & _ & _).
    cbv zeta in Ea. fold (checkPriceAlerts item currentPrice st) in Ea.
    cbn [app] in Ea. now rewrite Ea, checked_key.
  - rewrite dataCleanup_alerts by exact N. cbn [stored_alerts].
    now apply keys_of_filter.
  - apply lookup_assign.
  - apply lookup_delete.
  - intros Fresh. destruct st as [alerts ns t]. unfold deleteAlert, saveAlert.
    cbn [priceAlerts notifications now] in *. f_equal.
    clear N. induction alerts as [|[k a] rest IH]; simpl.
    + now rewrite String.eqb_refl.
    + destruct (String.eqb k id) eqn:E.
      * apply String.eqb_eq in E. exfalso. apply Fresh. now left.
      * simpl. rewrite E. simpl. f_equal. apply IH.
        intros H. apply Fresh. now right.
Qed.

End DistinctIds.

(** The sample store, a second alert saved into it. *)
Lemma alert_ids_stay_distinct_witness :
  NoDup (map fst (Background.priceAlerts
                    (Background.saveAlert "alert_AWP | Asiimov_2" sample_alert
                       sample_alert_state))).
Proof.
  refine (proj1 (alert_ids_stay_distinct sample_alert_state "alert_AWP | Asiimov_2"
                   sample_alert "AK-47 | Redline" 50%float 5 [] _)).
  constructor; [intros []|constructor].
Defined.

(* ===================================================================== *)
(** ** Item keys and price histories (background.js) *)
(* ===================================================================== *)

Section PriceHistory.

Import JS Background.
Local Open Scope string_scope.
Local Open Scope nat_scope.

Lemma is_alnum_byte (c : nat) : is_alnum c = true -> c < 256 /\ c <> 95.
Proof.
  unfold is_alnum. rewrite !orb_true_iff, !andb_true_iff, !Nat.leb_le. lia.
Qed.

Lemma alnum_char (c : nat) :
  is_alnum c = true -> nat_of_ascii (ascii_of_nat c) = c /\ ascii_of_nat c <> "_"%char.
Proof.
  intros H. destruct (is_alnum_byte c H) as [Hb H95].
  pose proof (nat_ascii_embedding c Hb) as E. split; [exact E|].
  intros U. rewrite U in E. change (nat_of_ascii "_") with 95 in E. congruence.
Qed.

Lemma replace_non_alnum_length (n : code_units) :
  String.length (replace_non_alnum n) = List.length n.
Proof.
  induction n as [|c n IH]; simpl; [reflexivity|now rewrite IH].
Qed.

Lemma replace_non_alnum_chars (n : code_units) :
  forall i c, get i (replace_non_alnum n) = Some c ->
              is_alnum (nat_of_ascii c) = true \/ c = "_"%char.
Proof.
  induction n as [|x n IH]; intros i c G; simpl in G; [discriminate|].
  destruct i as [|i]; [|exact (IH i c G)].
  inversion G; subst c. destruct (is_alnum x) eqn:A; [|now right].
  left. now rewrite (proj1 (alnum_char x A)).
Qed.

Lemma replace_non_alnum_eq (a : code_units) :
  forall b,
    replace_non_alnum a = replace_non_alnum b
    <-> Forall2 (fun x y => (is_alnum x = true /\ x = y)
                            \/ (is_alnum x = false /\ is_alnum y = false)) a b.
Proof.
  induction a as [|x a IH]; intros [|y b]; simpl; split; intros H;
    try discriminate; try (now constructor); try (now inversion H).
  - inversion H as [[Hc Hr]]. constructor; [|now apply IH].
    destruct (is_alnum x) eqn:Ax, (is_alnum y) eqn:Ay.
    + left. split; [reflexivity|].
      rewrite <- (proj1 (alnum_char x Ax)), <- (proj1 (alnum_char y Ay)). now rewrite Hc.
    + exfalso. now apply (proj2 (alnum_char x Ax)).
    + exfalso. now apply (proj2 (alnum_char y Ay)).
    + now right.
  - inversion H as [|? ? ? ? Hxy Hab]; subst. f_equal; [|now apply IH].
    destruct Hxy as [[Ax <-]|[Ax Ay]]; [reflexivity|now rewrite Ax, Ay].
Qed.

(** X13. The storage key of an item name is the prefix followed by one ASCII
    character per code unit of the name, a letter or digit for itself and
    an underscore for anything else.  So two names share one key, and with
    it one price history, exactly when they have the same length and
    differ only where both have something other than a letter or digit. *)
Theorem itemKey_shared_exactly_when (a b : code_units) :
  String.length (itemKey a) = 13 + List.length a
  /\ (forall i c, get (13 + i) (itemKey a) = Some c ->
                  is_alnum (nat_of_ascii c) = true \/ c = "_"%char)
  /\ (itemKey a = itemKey b
      <-> Forall2 (fun x y => (is_alnum x = true /\ x = y)
                              \/ (is_alnum x = false /\ is_alnum y = false)) a b).
Proof.
  split; [|split].
  - unfold itemKey. simpl. now rewrite replace_non_alnum_length.
  - intros i c G. apply (replace_non_alnum_chars a i c). exact G.
  - rewrite <- replace_non_alnum_eq. unfold itemKey. split; intros H.
    + simpl in H. now inversion H.
    + now rewrite H.
Qed.

Lemma substring_all (s : string) : substring 0 (String.length s) s = s.
Proof.
  induction s as [|c s IH]; simpl; [reflexivity|now rewrite IH].
Qed.

(** X14. The name the debug listing shows for the key of an item: the item name
    with a space in place of every code unit that is not a letter or
    digit. *)
Theorem debug_key_of_itemKey (itemName : code_units) :
  debug_key (itemKey itemName)
  = Some (string_of_list_ascii
            (map (fun c => if is_alnum c then ascii_of_nat c else " "%char) itemName)).
Proof.
  unfold debug_key, itemKey.
  change (prefix "priceHistory_" ("priceHistory_" ++ replace_non_alnum itemName))
    with (prefix "" (replace_non_alnum itemName)).
  replace (prefix "" (replace_non_alnum itemName)) with true
    by (now destruct (replace_non_alnum itemName)).
  f_equal.
  change (String.length ("priceHistory_" ++ replace_non_alnum itemName))
    with (13 + String.length (replace_non_alnum itemName)).
  replace (13 + String.length (replace_non_alnum itemName) - 13)
    with (String.length (replace_non_alnum itemName)) by lia.
  change (substring 13 (String.length (replace_non_alnum itemName))
            ("priceHistory_" ++ replace_non_alnum itemName))
    with (substring 0 (String.length (replace_non_alnum itemName))
            (replace_non_alnum itemName)).
  rewrite substring_all.
  induction itemName as [|c n IH]; simpl; [reflexivity|]. rewrite IH. f_equal.
  destruct (is_alnum c) eqn:A; [|reflexivity].
  replace (Ascii.eqb (ascii_of_nat c) "_") with false; [reflexivity|].
  symmetry. apply Ascii.eqb_neq. exact (proj2 (alnum_char c A)).
Qed.

Lemma capped_push {A} (all : list A) (p : A) :
  let l' := (skipn (List.length all - 100) all ++ [p])%list in
  (if 100 <? List.length l' then shift l' else l')
  = skipn (List.length (all ++ [p]) - 100) (all ++ [p]).
Proof.
  cbv zeta. rewrite !length_app, length_skipn. cbn [List.length].
  destruct (Nat.lt_ge_cases (List.length all) 100) as [L|G].
  - replace (List.length all - 100) with 0 by lia.
    replace (List.length all + 1 - 100) with 0 by lia.
    replace (100 <? List.length all - 0 + 1) with false
      by (symmetry; apply Nat.ltb_ge; lia).
    reflexivity.
  - replace (100 <? List.length all - (List.length all - 100) + 1) with true
      by (symmetry; apply Nat.ltb_lt; lia).
    replace (List.length all + 1 - 100) with (S (List.length all - 100)) by lia.
    rewrite skipn_app.
    replace (S (List.length all - 100) - List.length all) with 0 by lia.
    cbn [skipn].
    remember (List.length all - 100) as k eqn:Hk.
    assert (Hlt : k < List.length all) by lia.
    clear Hk G. revert k Hlt.
    induction all as [|x all IH]; intros k Hlt; [simpl in Hlt; lia|].
    destruct k as [|k]; [reflexivity|].
    cbn [skipn]. apply IH. simpl in Hlt. lia.
Qed.

Lemma tracked_snoc messages itemName price floatValue inspectLink Date_now :
  tracked (messages ++ [(itemName, price, floatValue, inspectLink, Date_now)])
  = Some (track (tracked messages) itemName price floatValue inspectLink Date_now).
Proof.
  unfold tracked. now rewrite fold_left_app.
Qed.

Lemma tracked_histories messages :
  match tracked messages with
  | None => messages = []
  | Some d =>
      let points := map point_of messages in
      let floats := flat_map float_of messages in
      priceHistory d = skipn (List.length points - 100) points
      /\ floatHistory d = skipn (List.length floats - 100) floats
      /\ hd_error (map sender messages) = Some (tracked_itemName d, firstSeen d)
      /\ lastUpdated d = option_map point_timestamp (hd_error (List.rev points))
  end.
Proof.
  induction messages
    as [|[[[[itemName price] floatValue] inspectLink] Date_now] messages IH]
    using rev_ind; [reflexivity|].
  rewrite tracked_snoc. cbv zeta.
  rewrite !map_app, flat_map_app, rev_app_distr.
  cbn [map flat_map point_of float_of sender List.rev app hd_error option_map point_timestamp].
  rewrite app_nil_r.
  unfold track. cbv zeta.
  cbn [priceHistory floatHistory tracked_itemName firstSeen lastUpdated].
  destruct (tracked messages) as [d|].
  - destruct IH as (Hp & Hf & Hn & _). rewrite Hp, Hf.
    split; [apply capped_push|]. split; [|split; [|reflexivity]].
    + destruct (ToBoolean floatValue).
      * apply capped_push.
      * rewrite app_nil_r.
        replace (100 <? _) with false; [reflexivity|].
        symmetry. apply Nat.ltb_ge. rewrite length_skipn. lia.
    + destruct messages as [|m messages]; [discriminate Hn|exact Hn].
  - subst messages.
    cbn [priceHistory floatHistory tracked_itemName firstSeen map app hd_error].
    split; [reflexivity|]. split; [|split; reflexivity].
    destruct (ToBoolean floatValue); reflexivity.
Qed.


End PriceHistory.

(* ===================================================================== *)
(** ** Fade percentage (background.js) *)
(* ===================================================================== *)

Section FadeNames.

Import JS Background.
Local Open Scope string_scope.
Local Open Scope nat_scope.

Variable StringToNumber : string -> float.
Variable Math_round : float -> float.
Variable Math_random : float.

Lemma substring_suffix (a b : string) :
  forall m s,
    substring m (String.length (a ++ b)) s = a ++ b ->
    substring (m + String.length a) (String.length b) s = b.
Proof.
  intros m. induction m as [|m IHm]; intros s H.
  - revert s H. induction a as [|c a IHa]; intros s H; [exact H|].
    destruct s as [|c' s]; simpl in H; [discriminate|].
    inversion H as [[Hc Hr]]. exact (IHa s Hr).
  - destruct s as [|c' s].
    + simpl in H. destruct a; [|discriminate]. simpl in H. subst b. reflexivity.
    + simpl in *. apply IHm. exact H.
Qed.

(** A string that contains [a ++ b] contains [b]. *)
Lemma includes_suffix (s a b : string) :
  b <> "" -> string_includes s (a ++ b) = true -> string_includes s b = true.
Proof.
  unfold string_includes. intros Nb H.
  destruct (index 0 (a ++ b) s) as [m|] eqn:E; [|discriminate].
  apply index_correct1 in E. apply substring_suffix in E.
  destruct (index 0 b s) eqn:Eb; [reflexivity|].
  exfalso. apply (index_correct3 0 (m + String.length a) b s Eb Nb); [lia|exact E].
Qed.

Lemma no_fade_no_variant (s : string) :
  string_includes s "Fade" = false ->
  string_includes s "Acid Fade" = false /\ string_includes s "Amber Fade" = false.
Proof.
  intros H. split; apply not_true_is_false; intros T.
  - apply (includes_suffix s "Acid " "Fade") in T; [congruence|discriminate].
  - apply (includes_suffix s "Amber " "Fade") in T; [congruence|discriminate].
Qed.

(** X16. Only the fade type 'Fade' is ever used.  An item name that contains
    'Acid Fade' or 'Amber Fade' contains 'Fade', which is tested first, so
    the result is [null] or the rounded percentage of the plain 'Fade'
    calculation for a weapon of the 'Fade' list; the weapons listed only
    for the other two types (SSG 08, AUG, Galil AR, P2000, Sawed-Off) get
    [null] whatever the names and the seed. *)
Theorem getFadePercentage_uses_plain_fade_only
    (weaponType itemName : option string) (paintSeed : JSValue)
    (fullItemName : option string) :
  let result :=
    getFadePercentage StringToNumber Math_round Math_random
      weaponType itemName paintSeed fullItemName in
  (result = None
   \/ exists weapon weapons,
        weaponType = Some weapon
        /\ supportedWeapons "Fade" = Some weapons /\ In weapon weapons
        /\ result = option_map Math_round
                      (calculateFadeForWeapon StringToNumber Math_random
                         weapon "Fade" paintSeed))
  /\ (forall weapon,
        In weapon ["SSG 08"; "AUG"; "Galil AR"; "P2000"; "Sawed-Off"] ->
        weaponType = Some weapon -> result = None).
Proof.
  cbv zeta.
  assert (Plain : forall weapon,
    match supportedWeapons "Fade" with
    | None => None
    | Some weapons =>
        if negb (existsb (String.eqb weapon) weapons) then None
        else match calculateFadeForWeapon StringToNumber Math_random
                     weapon "Fade" paintSeed with
             | Some percentage => Some (Math_round percentage)
             | None => None
             end
    end = None
    \/ exists weapons,
         supportedWeapons "Fade" = Some weapons /\ In weapon weapons
         /\ match supportedWeapons "Fade" with
            | None => None
            | Some weapons =>
                if negb (existsb (String.eqb weapon) weapons) then None
                else match calculateFadeForWeapon StringToNumber Math_random
                             weapon "Fade" paintSeed with
                     | Some percentage => Some (Math_round percentage)
                     | None => None
                     end
            end
            = option_map Math_round
                (calculateFadeForWeapon StringToNumber Math_random
                   weapon "Fade" paintSeed)).
  { intros weapon.
    destruct (supportedWeapons "Fade") as [weapons|] eqn:Sw; [|now left].
    destruct (existsb (String.eqb weapon) weapons) eqn:Ex; [|now left].
    right. exists weapons. split; [reflexivity|]. split.
    - apply existsb_exists in Ex. destruct Ex as (x & Hx & Ex).
      apply String.eqb_eq in Ex. now subst.
    - cbn [negb]. now destruct (calculateFadeForWeapon _ _ _ _ _). }
  assert (Other : forall weapon,
    In weapon ["SSG 08"; "AUG"; "Galil AR"; "P2000"; "Sawed-Off"] ->
    match supportedWeapons "Fade" with
    | None => None
    | Some weapons =>
        if negb (existsb (String.eqb weapon) weapons) then None
        else match calculateFadeForWeapon StringToNumber Math_random
                     weapon "Fade" paintSeed with
             | Some percentage => Some (Math_round percentage)
             | None => None
             end
    end = None).
  { intros weapon Hw. simpl in Hw.
    destruct Hw as [<-|[<-|[<-|[<-|[<-|[]]]]]]; reflexivity. }
  unfold getFadePercentage.
  destruct itemName as [itemName|]; [|split; [now left|reflexivity]].
  destruct weaponType as [weaponType|]; [|split; [now left|reflexivity]].
  destruct (String.eqb itemName "" || String.eqb weaponType "");
    [split; [now left|reflexivity]|].
  cbv zeta.
  match goal with
  | |- context [match ?ft with Some _ => _ | None => None end] =>
      match ft with
      | context [string_includes itemName "Fade"] => set (fadeType := ft)
      end
  end.
  assert (Hft : fadeType = Some "Fade" \/ fadeType = None).
  { unfold fadeType.
    destruct (string_includes itemName "Fade") eqn:F; [now left|].
    destruct (no_fade_no_variant itemName F) as [-> ->].
    destruct fullItemName as [fullItemName|]; [|now right].
    destruct (String.eqb fullItemName ""); [now right|].
    destruct (string_includes fullItemName "Fade") eqn:F'; [now left|].
    destruct (no_fade_no_variant fullItemName F') as [-> ->]. now right. }
  clearbody fadeType. destruct Hft as [-> | ->]; [|split; [now left|reflexivity]].
  split.
  - destruct (Plain weaponType) as [N|(weapons & Sw & Hin & E)]; [now left|].
    right. exists weaponType, weapons. auto.
  - intros weapon Hw E. inversion E; subst. now apply Other.
Qed.

End FadeNames.

(* ===================================================================== *)
(** ** Filter passes and their counters (content.js, floatSorter.js) *)
(* ===================================================================== *)

Section FilterCounters.

Local Open Scope string_scope.
Local Open Scope nat_scope.

Variable parseFloat : string -> float.

(** *** content.js *)

Abbreviation has_float := Content.has_float.
Abbreviation hidden := Content.hidden.

Lemma filter_step_counters (g : Content.globals) done c
    (item : Content.market_listing_row) :
  exists c',
    Content.filter_step parseFloat g (done, c) item
    = ((done ++ [Content.row_after parseFloat g item])%list, c')
    /\ Content.processedCount c' = S (Content.processedCount c)
    /\ Content.visibleCount c' + Content.hiddenCount c'
       = Content.visibleCount c + Content.hiddenCount c
         + (if has_float item then 1 else 0)
    /\ Content.hiddenCount c'
       = Content.hiddenCount c
         + (if hidden (Content.row_after parseFloat g item) then 1 else 0).
Proof.
  unfold Content.filter_step, Content.row_after, Content.has_float.
  destruct (Content.float_element item) as [t|];
    [destruct ((Content.minFloat g <=? parseFloat t)%float
               && (parseFloat t <=? Content.maxFloat g)%float)|];
    eexists; (split; [reflexivity|]); cbn; lia.
Qed.

Lemma content_fold_counters (g : Content.globals)
    (items : list Content.market_listing_row) :
  forall done c,
    let r := fold_left (Content.filter_step parseFloat g) items (done, c) in
    Content.processedCount (snd r) = Content.processedCount c + List.length items
    /\ Content.visibleCount (snd r) + Content.hiddenCount (snd r)
       = Content.visibleCount c + Content.hiddenCount c
         + List.length (filter has_float items)
    /\ Content.hiddenCount (snd r)
       = Content.hiddenCount c
         + List.length (filter hidden (map (Content.row_after parseFloat g) items)).
Proof.
  induction items as [|item items IH]; intros done c; cbv zeta.
  - simpl. lia.
  - cbn [fold_left map filter].
    destruct (filter_step_counters g done c item) as (c' & E & H1 & H2 & H3).
    rewrite E. destruct (IH (done ++ [Content.row_after parseFloat g item])%list c')
      as (I1 & I2 & I3).
    rewrite I1, I2, I3.
    destruct (has_float item), (hidden (Content.row_after parseFloat g item));
      cbn [List.length]; lia.
Qed.

Lemma listings_fold (minValue maxValue : float)
    (listings : list Content.market_listing_row) :
  forall done c,
    fold_left
      (fun '(done, visible) listing =>
         match Content.float_element listing with
         | Some textContent =>
             let floatValue := parseFloat textContent in
             if ((minValue <=? floatValue) && (floatValue <=? maxValue))%float
             then ((done ++ [Content.set_display listing ""])%list, S visible)
             else ((done ++ [Content.set_display listing "none"])%list, visible)
         | None => ((done ++ [Content.set_display listing ""])%list, visible)
         end)
      listings (done, Content.visibleCount c)
    = let r := fold_left
                 (Content.filter_step parseFloat
                    {| Content.minFloat := minValue; Content.maxFloat := maxValue;
                       Content.isProcessing := false |})
                 listings (done, c) in
      (fst r, Content.visibleCount (snd r)).
Proof.
  induction listings as [|l ls IH]; intros done c; cbv zeta; [reflexivity|].
  cbn [fold_left]. unfold Content.filter_step at 2 4.
  cbn [Content.minFloat Content.maxFloat].
  destruct (Content.float_element l) as [t|];
    [destruct ((minValue <=? parseFloat t)%float && (parseFloat t <=? maxValue)%float)|].
  - exact (IH (done ++ [Content.set_display l ""])%list
              {| Content.visibleCount := S (Content.visibleCount c);
                 Content.hiddenCount := Content.hiddenCount c;
                 Content.processedCount := S (Content.processedCount c) |}).
  - exact (IH (done ++ [Content.set_display l "none"])%list
              {| Content.visibleCount := Content.visibleCount c;
                 Content.hiddenCount := S (Content.hiddenCount c);
                 Content.processedCount := S (Content.processedCount c) |}).
  - exact (IH (done ++ [Content.set_display l ""])%list
              {| Content.visibleCount := Content.visibleCount c;
                 Content.hiddenCount := Content.hiddenCount c;
                 Content.processedCount := S (Content.processedCount c) |}).
Qed.

(** X17. The handler of the sorting bar's inputs, [filterListings], shows and
    hides exactly the rows that [filterItems] shows and hides when the
    globals hold the bounds as [filterListings] reads them (an empty or
    unparsable text, and a typed 0, count as 0 for the minimum and as 1 for
    the maximum); its [visible] is [visibleCount], and the total in its
    stats line is the number of all rows, with or without a float. *)
Theorem filterListings_agrees_with_filterItems
    (min_input max_input : string) (listings : list Content.market_listing_row) :
  let g := {| Content.minFloat := Content.number_or (parseFloat min_input) 0;
              Content.maxFloat := Content.number_or (parseFloat max_input) 1;
              Content.isProcessing := false |} in
  exists rows c,
    Content.filterItems parseFloat g listings = (rows, Some c)
    /\ Content.filterListings parseFloat min_input max_input listings
       = (rows, Content.visibleCount c, Content.processedCount c)
    /\ Content.processedCount c = List.length listings.
Proof.
  cbv zeta. unfold Content.filterItems, Content.filterListings.
  cbn [Content.isProcessing]. cbv zeta.
  set (c0 := {| Content.visibleCount := 0; Content.hiddenCount := 0;
                Content.processedCount := 0 |}).
  change 0 with (Content.visibleCount c0) at 1.
  rewrite (listings_fold _ _ listings [] c0). cbv zeta.
  match goal with
  | |- context [fold_left ?f listings ([], c0)] =>
      pose proof (content_fold_counters
                    {| Content.minFloat := Content.number_or (parseFloat min_input) 0;
                       Content.maxFloat := Content.number_or (parseFloat max_input) 1;
                       Content.isProcessing := false |} listings [] c0) as H;
      cbv zeta in H;
      destruct (fold_left f listings ([], c0)) as [rows c] eqn:E
  end.
  destruct H as (H1 & _).
  exists rows, c. cbn [fst snd] in *. rewrite H1. simpl. repeat split.
Qed.

(** *** floatSorter.js *)

Lemma filter_length_sub {A} (f g : A -> bool) (l : list A) :
  (forall x, f x = true -> g x = true) ->
  List.length (filter f l) <= List.length (filter g l).
Proof.
  intros H. induction l as [|x l IH]; simpl; [lia|].
  destruct (f x) eqn:F.
  - rewrite (H x F). simpl. lia.
  - destruct (g x); simpl; lia.
Qed.

Variable listing : Type.
Variable getFloatValue : listing -> option float.

Abbreviation with_float := (FloatSorter.with_float listing getFloatValue).
Abbreviation shown := FloatSorter.shown.

Lemma filter_listing_flags (minFloat maxFloat : option float) (l : listing) :
  let r := FloatSorter.filter_listing listing getFloatValue minFloat maxFloat l in
  snd r = with_float l
  /\ snd (fst r) = with_float l && shown (fst (fst r)).
Proof.
  cbv zeta. unfold FloatSorter.filter_listing, FloatSorter.with_float.
  destruct (getFloatValue l) as [f|]; [|split; reflexivity].
  cbv zeta.
  match goal with
  | |- context [if ?b then ({| FloatSorter.display := "" |}, _, _) else _] =>
      destruct b
  end; split; reflexivity.
Qed.

Lemma sorter_fold_counters (minFloat maxFloat : option float) (listings : list listing) :
  forall styles v t,
    let r := fold_left
      (fun '(styles, visibleCount, totalWithFloat) l =>
         let '(st, vis, has) :=
           FloatSorter.filter_listing listing getFloatValue minFloat maxFloat l in
         ((styles ++ [st])%list,
          if vis then S visibleCount else visibleCount,
          if has then S totalWithFloat else totalWithFloat))
      listings (styles, v, t) in
    snd r = t + List.length (filter with_float listings)
    /\ snd (fst r)
       = v + List.length
               (filter (fun l => with_float l
                                 && shown (fst (fst (FloatSorter.filter_listing listing
                                                      getFloatValue minFloat maxFloat l))))
                  listings).
Proof.
  induction listings as [|l ls IH]; intros styles v t; cbv zeta.
  - simpl. lia.
  - cbn [fold_left filter].
    destruct (filter_listing_flags minFloat maxFloat l) as [Hh Hv].
    destruct (FloatSorter.filter_listing listing getFloatValue minFloat maxFloat l)
      as [[st vis] has].
    cbn [fst snd] in *. rewrite <- Hv, <- Hh.
    match goal with
    | |- context [fold_left _ ls (?s, ?v', ?t')] =>
        destruct (IH s v' t') as (H1 & H2)
    end.
    rewrite H1, H2. destruct vis, has; cbn [List.length]; lia.
Qed.

(** X18. The numbers the two filters report.  In content.js, [processedCount]
    is the number of rows, [visibleCount + hiddenCount] the number of rows
    that carry a float element, and [hiddenCount] the number of rows the
    pass leaves with [display: none].  In floatSorter.js, [totalWithFloat]
    is the number of listings with a float value and [visibleCount] the
    number of those that are shown, so never more than the total. *)
Theorem filter_counters_account_for_every_row
    (g : Content.globals) (items : list Content.market_listing_row)
    (this : FloatSorter.sorter) (listings : list listing) :
  (Content.isProcessing g = true ->
   Content.filterItems parseFloat g items = (items, None))
  /\ (Content.isProcessing g = false ->
      exists rows c,
        Content.filterItems parseFloat g items = (rows, Some c)
        /\ Content.processedCount c = List.length items
        /\ Content.visibleCount c + Content.hiddenCount c
           = List.length (filter has_float items)
        /\ Content.hiddenCount c = List.length (filter hidden rows))
  /\ (let '(styles, visibleCount, totalWithFloat) :=
        FloatSorter.filterItems parseFloat listing getFloatValue this listings in
      totalWithFloat = List.length (filter with_float listings)
      /\ visibleCount
         = List.length
             (filter (fun l =>
                        with_float l
                        && shown (FloatSorter.style_after parseFloat listing
                                    getFloatValue this l))
                listings)
      /\ visibleCount <= totalWithFloat <= List.length listings).
Proof.
  split; [|split].
  - intros P. unfold Content.filterItems. now rewrite P.
  - intros P. unfold Content.filterItems. rewrite P.
    set (c0 := {| Content.visibleCount := 0; Content.hiddenCount := 0;
                  Content.processedCount := 0 |}).
    pose proof (content_fold_counters g items [] c0) as H.
    pose proof (content_fold_rows parseFloat g items [] c0) as R.
    destruct (fold_left _ items ([], c0)) as [rows c].
    cbv zeta in H. cbn [fst snd app] in *. destruct H as (H1 & H2 & H3).
    exists rows, c. split; [reflexivity|]. subst rows.
    split; [exact H1|]. split; [exact H2|exact H3].
  - unfold FloatSorter.filterItems.
    pose proof (sorter_fold_counters
                  (FloatSorter.bound_of parseFloat (FloatSorter.minFloatValue this))
                  (FloatSorter.bound_of parseFloat (FloatSorter.maxFloatValue this))
                  listings [] 0 0) as H.
    cbv zeta in H.
    match type of H with
    | context [fold_left ?f listings ?a] =>
        destruct (fold_left f listings a) as [[styles v] t]
    end.
    cbn [fst snd] in H. destruct H as (H1 & H2).
    split; [exact H1|]. split; [exact H2|].
    rewrite H1, H2. cbn [Nat.add]. split.
    + apply filter_length_sub. intros l Hl. now apply andb_true_iff in Hl.
    + apply filter_length_le.
Qed.

(** X19. After [resetFilter] a pass of [filterItems] (the mutation observer
    runs one whenever rows are added) changes no style: every listing
    stays shown.  The pass reports [n]/[n] for the [n] listings that have a
    float value, where [resetFilter] itself had written the number of all
    listings. *)
Theorem resetFilter_then_filterItems (listings : list listing) :
  let r := FloatSorter.resetFilter listing listings in
  let n := List.length (filter with_float listings) in
  FloatSorter.filterItems parseFloat listing getFloatValue
    (FloatSorter.reset_this r) listings
  = (FloatSorter.reset_styles r, n, n)
  /\ FloatSorter.reset_stats r
     = FloatSorter.updateFilterStats (List.length listings) (List.length listings)
  /\ n <= List.length listings.
Proof.
  cbv zeta. split; [|split; [reflexivity|apply filter_length_le]].
  set (this := FloatSorter.reset_this (FloatSorter.resetFilter listing listings)).
  pose proof (sorter_fold_styles parseFloat listing getFloatValue this listings) as Hs.
  pose proof (sorter_fold_counters None None listings [] 0 0) as Hc.
  cbv zeta in Hc. unfold FloatSorter.filterItems in *.
  change (FloatSorter.bound_of parseFloat (FloatSorter.minFloatValue this))
    with (@None float) in *.
  change (FloatSorter.bound_of parseFloat (FloatSorter.maxFloatValue this))
    with (@None float) in *.
  match type of Hc with
  | context [fold_left ?f listings ?a] =>
      destruct (fold_left f listings a) as [[styles v] t]
  end.
  cbn [fst snd Nat.add] in *. destruct Hc as [Ht Hv]. subst styles t v.
  assert (Shown : forall l,
            FloatSorter.filter_listing listing getFloatValue None None l
            = ({| FloatSorter.display := ""; FloatSorter.opacity := "1" |},
               with_float l, with_float l)).
  { intros l. unfold FloatSorter.filter_listing, FloatSorter.with_float.
    now destruct (getFloatValue l). }
  assert (E1 : map (FloatSorter.style_after parseFloat listing getFloatValue this) listings
               = FloatSorter.reset_styles (FloatSorter.resetFilter listing listings)).
  { unfold FloatSorter.resetFilter. cbn [FloatSorter.reset_styles].
    apply map_ext. intros l. unfold FloatSorter.style_after.
    change (FloatSorter.bound_of parseFloat (FloatSorter.minFloatValue this))
      with (@None float).
    change (FloatSorter.bound_of parseFloat (FloatSorter.maxFloatValue this))
      with (@None float).
    now rewrite Shown. }
  assert (E2 : filter (fun l => with_float l
                         && shown (fst (fst (FloatSorter.filter_listing listing
                                              getFloatValue None None l)))) listings
               = filter with_float listings).
  { apply filter_ext. intros l. rewrite Shown. cbn [fst].
    unfold FloatSorter.shown. cbn. apply andb_true_r. }
  rewrite E1, E2. reflexivity.
Qed.

End FilterCounters.

(* ===================================================================== *)
(** ** The migration runner: waiting and clean runs *)
(* ===================================================================== *)

Section WaitForPostgres.

Import Migrations.
Local Open Scope nat_scope.

Variable pg_isready : nat -> bool.

Lemma wait_for_postgres_run (attempt : nat) :
  attempt < max_attempts ->
  match wait_for_postgres pg_isready attempt with
  | PostgresReady k =>
      attempt <= k < max_attempts /\ pg_isready k = true
      /\ forall i, attempt <= i < k -> pg_isready i = false
  | Exit1 sleeps =>
      sleeps = max_attempts - 1
      /\ forall i, attempt <= i < max_attempts -> pg_isready i = false
  end.
Proof.
  remember (max_attempts - attempt) as m eqn:Hm.
  revert attempt Hm. induction m as [|m IH]; intros attempt Hm Hlt; [lia|].
  rewrite wait_for_postgres_equation_1.
  destruct (pg_isready attempt) eqn:P.
  - split; [lia|]. split; [exact P|]. intros i Hi. lia.
  - destruct (lt_dec (S attempt) max_attempts) as [L|N].
    + specialize (IH (S attempt) ltac:(lia) L).
      destruct (wait_for_postgres pg_isready (S attempt)) as [k|s].
      * destruct IH as (Hk & Pk & Hf). split; [lia|]. split; [exact Pk|].
        intros i Hi. destruct (Nat.eq_dec i attempt) as [->|Ne]; [exact P|].
        apply Hf. lia.
      * destruct IH as (Hs & Hf). split; [exact Hs|].
        intros i Hi. destruct (Nat.eq_dec i attempt) as [->|Ne]; [exact P|].
        apply Hf. lia.
    + split; [lia|]. intros i Hi. replace i with attempt by lia. exact P.
Qed.

(** X20. The service-side script probes PostgreSQL at most 30 times.  It goes
    on to the migrations after the first successful probe, having slept
    one second after each failed one, and it ends with status 1, after 29
    sleeps, exactly when all 30 probes fail. *)
Theorem wait_for_postgres_gives_up_after_30 :
  (forall k,
      wait_for_postgres pg_isready 0 = PostgresReady k
      <-> k < 30 /\ pg_isready k = true /\ forall i, i < k -> pg_isready i = false)
  /\ (forall sleeps,
        wait_for_postgres pg_isready 0 = Exit1 sleeps
        <-> sleeps = 29 /\ forall i, i < 30 -> pg_isready i = false).
Proof.
  pose proof (wait_for_postgres_run 0 ltac:(unfold max_attempts; lia)) as H.
  unfold max_attempts in H. split.
  - intros k. split.
    + intros E. rewrite E in H. destruct H as (Hk & Pk & Hf).
      split; [lia|]. split; [exact Pk|]. intros i Hi. apply Hf. lia.
    + intros (Hk & Pk & Hf).
      destruct (wait_for_postgres pg_isready 0) as [k'|s].
      * destruct H as (Hk' & Pk' & Hf'). f_equal.
        destruct (Nat.lt_trichotomy k k') as [L|[E|G]]; [|exact (eq_sym E)|].
        -- rewrite Hf' in Pk by lia. discriminate.
        -- rewrite Hf in Pk' by lia. discriminate.
      * destruct H as (_ & Hf'). rewrite Hf' in Pk by lia. discriminate.
  - intros sleeps. split.
    + intros E. rewrite E in H. destruct H as (Hs & Hf).
      split; [lia|]. intros i Hi. apply Hf. lia.
    + intros (Hs & Hf).
      destruct (wait_for_postgres pg_isready 0) as [k|s].
      * destruct H as (Hk & Pk & _). rewrite Hf in Pk by lia. discriminate.
      * destruct H as (Hs' & _). f_equal. lia.
Qed.

End WaitForPostgres.

Section CleanRuns.

Import Migrations.
Local Open Scope string_scope.

Variable D : Type.
Variable psql_file : string -> database D -> bool * database D.

Abbreviation apply_migration := (Migrations.apply_migration D psql_file).
Abbreviation MIGRATION_APPLIED := (Migrations.MIGRATION_APPLIED D).

(** Every [psql -f] exits with status 0, and no migration deletes rows of
    [schema_migrations]. *)
Hypothesis psql_succeeds : forall file d, fst (psql_file file d) = true.
Hypothesis rows_kept :
  forall file d name,
    MIGRATION_APPLIED name d = true ->
    MIGRATION_APPLIED name (snd (psql_file file d)) = true.

Lemma record_migration_recorded (name : string) (d : database D) :
  MIGRATION_APPLIED name (record_migration D name d) = true.
Proof.
  unfold Migrations.MIGRATION_APPLIED, record_migration.
  destruct (existsb (String.eqb name) (schema_migrations d)) eqn:E; [exact E|].
  cbn [schema_migrations]. rewrite existsb_app. cbn [existsb].
  now rewrite String.eqb_refl, orb_true_r.
Qed.

Lemma record_migration_keeps (name other : string) (d : database D) :
  MIGRATION_APPLIED other d = true ->
  MIGRATION_APPLIED other (record_migration D name d) = true.
Proof.
  unfold Migrations.MIGRATION_APPLIED, record_migration. intros H.
  destruct (existsb (String.eqb name) (schema_migrations d)); [exact H|].
  cbn [schema_migrations]. rewrite existsb_app, H. reflexivity.
Qed.

Lemma apply_migration_records (r : run D) (name : string) :
  MIGRATION_APPLIED name (db (apply_migration r name)) = true
  /\ forall other, MIGRATION_APPLIED other (db r) = true ->
                   MIGRATION_APPLIED other (db (apply_migration r name)) = true.
Proof.
  unfold Migrations.apply_migration.
  destruct (Migrations.MIGRATION_APPLIED D name (db r)) eqn:A; cbn [negb].
  - split; [exact A|auto].
  - pose proof (psql_succeeds name (db r)) as S.
    pose proof (rows_kept name (db r)) as K.
    destruct (psql_file name (db r)) as [ok d']. cbn [fst snd] in *. subst ok.
    cbn [db]. split; [apply record_migration_recorded|].
    intros other H. apply record_migration_keeps. now apply K.
Qed.

Lemma loop_records (files : list string) :
  forall r,
    let r' := fold_left apply_migration files r in
    (forall f, In f files -> MIGRATION_APPLIED f (db r') = true)
    /\ (forall other, MIGRATION_APPLIED other (db r) = true ->
                      MIGRATION_APPLIED other (db r') = true).
Proof.
  induction files as [|f files IH]; intros r; cbv zeta; cbn [fold_left].
  - split; [intros f []|auto].
  - destruct (apply_migration_records r f) as [Hf Hk].
    destruct (IH (apply_migration r f)) as [H1 H2]. split.
    + intros g [<-|Hg]; [now apply H2|now apply H1].
    + intros other H. apply H2. now apply Hk.
Qed.

Lemma loop_skips_all (files : list string) :
  forall r,
    (forall f, In f files -> MIGRATION_APPLIED f (db r) = true) ->
    fold_left apply_migration files r
    = {| db := db r; migrations_applied := migrations_applied r;
         echoed := (echoed r ++ map (fun f => (f, AlreadyApplied)) files)%list |}.
Proof.
  induction files as [|f files IH]; intros r H; cbn [fold_left map].
  - rewrite app_nil_r. now destruct r.
  - rewrite (apply_migration_skips D psql_file r f) by (apply H; now left).
    rewrite IH by (intros g Hg; cbn [db]; apply H; now right).
    cbn [db migrations_applied echoed]. now rewrite <- app_assoc.
Qed.

End CleanRuns.



(* ===================================================================== *)
(** ** The two partial indexes on [proxies] *)
(* ===================================================================== *)

Section IndexPartition.

Import ProxyIndexes.
Local Open Scope Z_scope.


End IndexPartition.

(* ===================================================================== *)
(** ** The filters migration run twice *)
(* ===================================================================== *)

Section FiltersLost.

Import FiltersMigration.
Local Open Scope string_scope.

Variable J : Type.
Variable jsonb_in : string -> option J.
Variable jsonb_out : J -> string.

Abbreviation table := (FiltersMigration.table J).
Abbreviation database := (FiltersMigration.database J).

Lemma attempt_drop_missing (d : database) (t : table) name :
  monitoring_tasks d = Some t -> has_column J name t = false ->
  attempt J (drop_column J name) d = d.
Proof.
  intros Ht H. unfold attempt, drop_column, on_table. now rewrite Ht, H.
Qed.

(** With neither column in the table every statement of the file fails. *)
Lemma psql_file_001_nothing_to_do (d : database) (t : table) :
  monitoring_tasks d = Some t ->
  has_column J "filters_json" t = false ->
  has_column J "filters_jsonb" t = false ->
  psql_file_001 J jsonb_in jsonb_out d = d.
Proof.
  intros Ht G G'.
  unfold psql_file_001, run_ignoring_errors, psql_statements.
  cbn [fold_left].
  change (attempt J (syntax_error J) d) with d.
  rewrite (attempt_update_cast_missing J jsonb_in jsonb_out d t _ _ Ht G').
  rewrite (attempt_drop_missing d t _ Ht G).
  rewrite (attempt_rename_missing J d t _ _ Ht G').
  rewrite (attempt_set_not_null_missing J d t _ Ht G).
  rewrite (attempt_comment_missing J d t _ _ Ht G).
  rewrite (attempt_create_index_missing J d t false
             idx_monitoring_tasks_filters_gin Ht G).
  rewrite (attempt_create_index_missing J d t true
             idx_monitoring_tasks_max_price Ht G).
  rewrite (attempt_create_index_missing J d t true
             idx_monitoring_tasks_item_type Ht G).
  reflexivity.
Qed.

(** X23. Once [psql -f] has run the file on a table that has the [filters_json]
    column, the column is gone for good: running the file again changes
    nothing, and neither would its block run as the [DO] statement it was
    meant to be, whose guard now finds no column to convert.  No row is
    removed and the other columns keep their values. *)
Theorem psql_file_001_cannot_be_repaired_by_rerunning (d : database) (t : table) :
  monitoring_tasks d = Some t ->
  has_column J "filters_json" t = true ->
  has_column J "filters_jsonb" t = false ->
  let d1 := psql_file_001 J jsonb_in jsonb_out d in
  monitoring_tasks d1 = Some (without_column "filters_json" t)
  /\ psql_file_001 J jsonb_in jsonb_out d1 = d1
  /\ do_block J jsonb_in jsonb_out d1 = OK d1
  /\ rows (without_column "filters_json" t)
     = map (filter (fun kv => negb (String.eqb (fst kv) "filters_json"))) (rows t).
Proof.
  intros Ht Hc Hn d1.
  destruct (psql_file_001_drops_filters_json J jsonb_in jsonb_out d t Ht Hc Hn)
    as [E G].
  pose proof (without_column_absent J "filters_json" "filters_jsonb" t Hn) as G'.
  assert (T1 : monitoring_tasks d1 = Some (without_column "filters_json" t))
    by (unfold d1; now rewrite E).
  split; [exact T1|]. split; [|split; [|reflexivity]].
  - exact (psql_file_001_nothing_to_do d1 _ T1 G G').
  - unfold do_block. rewrite T1. now rewrite (find_column_none J _ _ G).
Qed.

End FiltersLost.

Lemma psql_file_001_cannot_be_repaired_by_rerunning_witness :
  let d1 := FiltersMigration.psql_file_001 string sample_jsonb_in (fun doc => doc)
              sample_database in
  FiltersMigration.monitoring_tasks d1
  = Some (FiltersMigration.without_column "filters_json" sample_tasks)
  /\ FiltersMigration.psql_file_001 string sample_jsonb_in (fun doc => doc) d1 = d1
  /\ FiltersMigration.do_block string sample_jsonb_in (fun doc => doc) d1
     = FiltersMigration.OK d1
  /\ FiltersMigration.rows (FiltersMigration.without_column "filters_json" sample_tasks)
     = map (filter (fun kv => negb (String.eqb (fst kv) "filters_json")))
         (FiltersMigration.rows sample_tasks).
Proof.
  apply (psql_file_001_cannot_be_repaired_by_rerunning string sample_jsonb_in
           (fun doc => doc) sample_database sample_tasks); reflexivity.
Defined.
